(** * Pushwoosh web-push orchestrator: a shallow embedding of [src/Pushwoosh.ts]

    The class [Pushwoosh] is embedded as functions in a state-and-exception
    monad over an explicit orchestrator state.  JavaScript values are a small
    inductive type, objects are insertion-ordered association lists, and the
    external collaborators (transport driver, backend API, clock) are an
    oracle indexed by the position in the trace.  The command queue [push]
    runs over a page, which adds to the instance what it has done with the
    callbacks it was handed. *)

From Stdlib Require Import String Ascii List ZArith Bool Lia.
From Stdlib Require Import Decimal DecimalString DecimalZ.
Import ListNotations.
Open Scope string_scope.

Set Warnings "-register-all".

(** ** JavaScript values *)

(** Numbers are restricted to integers (the values the orchestrator itself
    stores are 0, 1 and millisecond time stamps): fractions, [NaN] and the
    infinities have no counterpart, and an integer stands for a JavaScript
    number only below 2^53 in magnitude.  Objects keep their keys in
    insertion order; keys that are array indices, which JavaScript
    enumerates first and in numeric order, are not given a special
    treatment.  The statements that conclude from the text of a value to the
    value are restricted to the values on which the model is exact
    ([portable] below). *)
Inductive value : Type :=
| VUndef
| VNull
| VBool (b : bool)
| VNum (n : Z)
| VStr (s : string)
| VArr (l : list value)
| VObj (l : list (string * value)).

Definition obj := list (string * value).

(** [!!v] *)
Definition truthy (v : value) : bool :=
  match v with
  | VUndef | VNull => false
  | VBool b => b
  | VNum n => negb (n =? 0)%Z
  | VStr s => negb (s =? "")
  | VArr _ | VObj _ => true
  end.

(** [a === b].  Arrays and objects are compared by reference in JavaScript;
    every use below compares a value read back from a store with a freshly
    built one, so two such references are never the same. *)
Definition strict_eq (a b : value) : bool :=
  match a, b with
  | VUndef, VUndef => true
  | VNull, VNull => true
  | VBool x, VBool y => Bool.eqb x y
  | VNum x, VNum y => (x =? y)%Z
  | VStr x, VStr y => (x =? y)
  | _, _ => false
  end.

(** [a || b] *)
Definition js_or (a b : value) : value := if truthy a then a else b.

(** [a && b] *)
Definition js_and (a b : value) : value := if truthy a then b else a.

(** ** Objects as insertion-ordered association lists *)

(** [o[k]]; an absent key reads as [undefined]. *)
Fixpoint obj_get (k : string) (o : obj) : value :=
  match o with
  | [] => VUndef
  | (k', v) :: t => if k =? k' then v else obj_get k t
  end.

(** [o[k] = v]: an existing key keeps its position, a new key goes last. *)
Fixpoint obj_set (k : string) (v : value) (o : obj) : obj :=
  match o with
  | [] => [(k, v)]
  | (k', v') :: t => if k =? k' then (k', v) :: t else (k', v') :: obj_set k v t
  end.

(** [delete o[k]] *)
Fixpoint obj_delete (k : string) (o : obj) : obj :=
  match o with
  | [] => []
  | (k', v') :: t => if k =? k' then obj_delete k t else (k', v') :: obj_delete k t
  end.

(** [Object.keys(o)] *)
Definition obj_keys (o : obj) : list string := map fst o.

(** The properties a spread [...v] copies.  [undefined], [null] and the
    primitive values copy nothing; spreading arrays and strings, which the
    declared types of the configuration exclude, is not modelled. *)
Definition spread_of (v : value) : obj :=
  match v with
  | VObj l => l
  | _ => []
  end.

(** [{...base, ...extra}] continued from an object under construction. *)
Definition obj_spread (base extra : obj) : obj :=
  fold_left (fun acc kv => obj_set (fst kv) (snd kv) acc) extra base.

(** ** JSON.stringify *)

Definition dquote : ascii := "034"%char.
Definition backslash : ascii := "092"%char.

Definition hex_digit (n : nat) : ascii :=
  nth n ["0"; "1"; "2"; "3"; "4"; "5"; "6"; "7"; "8"; "9";
         "a"; "b"; "c"; "d"; "e"; "f"]%char "0"%char.

(** QuoteJSONString on one code unit (strings are byte strings here). *)
Definition escape_char (c : ascii) : string :=
  let n := nat_of_ascii c in
  if (n =? 34)%nat then String backslash (String dquote "")
  else if (n =? 92)%nat then String backslash (String backslash "")
  else if (n =? 8)%nat then String backslash "b"
  else if (n =? 12)%nat then String backslash "f"
  else if (n =? 10)%nat then String backslash "n"
  else if (n =? 13)%nat then String backslash "r"
  else if (n =? 9)%nat then String backslash "t"
  else if (n <? 32)%nat then
    String backslash
      (String "u" (String "0" (String "0"
        (String (hex_digit (n / 16)) (String (hex_digit (n mod 16)) "")))))
  else String c "".

Fixpoint escape (s : string) : string :=
  match s with
  | EmptyString => ""
  | String c t => escape_char c ++ escape t
  end.

Definition quote (s : string) : string :=
  String dquote (escape s ++ String dquote "").

Fixpoint join_comma (l : list string) : string :=
  match l with
  | [] => ""
  | [x] => x
  | x :: t => x ++ "," ++ join_comma t
  end.

(** Number::toString on an integer below 10^21 in magnitude: its decimal
    digits, with a minus sign when negative. *)
Definition num_to_string (n : Z) : string := NilZero.string_of_int (Z.to_int n).

(** [JSON.stringify(v)]: [None] is the JavaScript result [undefined].  An
    [undefined] array element is written [null], an object property whose
    value is [undefined] is left out.  The text is the one JavaScript
    produces for integers below 2^53 in magnitude and objects without
    array-index keys. *)
Fixpoint JSON_stringify (v : value) : option string :=
  match v with
  | VUndef => None
  | VNull => Some "null"
  | VBool true => Some "true"
  | VBool false => Some "false"
  | VNum n => Some (num_to_string n)
  | VStr s => Some (quote s)
  | VArr l =>
      Some ("[" ++ join_comma
              (map (fun x => match JSON_stringify x with
                             | Some s => s
                             | None => "null"
                             end) l) ++ "]")
  | VObj l =>
      Some ("{" ++ join_comma
              (flat_map (fun kx => match JSON_stringify (snd kx) with
                                   | Some s => [quote (fst kx) ++ ":" ++ s]
                                   | None => []
                                   end) l) ++ "}")
  end.

(** [a !== b] on two results of [JSON.stringify]. *)
Definition opt_string_neq (a b : option string) : bool :=
  match a, b with
  | None, None => false
  | Some x, Some y => negb (x =? y)
  | _, _ => true
  end.

(** ** Constants, platform facts and external collaborators *)

(** The module [./constants] is not part of the sources: its values are
    parameters.  The keys of the [keyValue] store are an enumeration, that is,
    pairwise distinct names. *)
Inductive kv_key : Type :=
| KEY_API_PARAMS
| KEY_INIT_PARAMS
| KEY_SDK_VERSION
| KEY_LAST_OPEN_MESSAGE
| KEY_LAST_SENT_APP_OPEN
| KEY_SAFARI_PREVIOUS_PERMISSION
| KEY_COMMUNICATION_ENABLED
| KEY_DEVICE_DATA_REMOVED
| KEY_DELAYED_EVENT.

Definition kv_key_eqb (a b : kv_key) : bool :=
  match a, b with
  | KEY_API_PARAMS, KEY_API_PARAMS
  | KEY_INIT_PARAMS, KEY_INIT_PARAMS
  | KEY_SDK_VERSION, KEY_SDK_VERSION
  | KEY_LAST_OPEN_MESSAGE, KEY_LAST_OPEN_MESSAGE
  | KEY_LAST_SENT_APP_OPEN, KEY_LAST_SENT_APP_OPEN
  | KEY_SAFARI_PREVIOUS_PERMISSION, KEY_SAFARI_PREVIOUS_PERMISSION
  | KEY_COMMUNICATION_ENABLED, KEY_COMMUNICATION_ENABLED
  | KEY_DEVICE_DATA_REMOVED, KEY_DEVICE_DATA_REMOVED
  | KEY_DELAYED_EVENT, KEY_DELAYED_EVENT => true
  | _, _ => false
  end.

Record Consts : Type := {
  DEFAULT_SERVICE_WORKER_URL : value;
  PERIOD_SEND_APP_OPEN : Z;
  PERMISSION_DENIED : string;
  PERMISSION_GRANTED : string;
  PERMISSION_PROMPT : string;
  DEVICE_REGISTRATION_STATUS_REGISTERED : string;
  DEVICE_REGISTRATION_STATUS_UNREGISTERED : string;
  DEFAULT_USER_ID : string;
  EVENT_GDPR_CONSENT : string;
  EVENT_GDPR_DELETE : string
}.

Inductive event : Type :=
| EVENT_ON_READY
| EVENT_ON_SUBSCRIBE
| EVENT_ON_UNSUBSCRIBE
| EVENT_ON_REGISTER
| EVENT_ON_PERMISSION_PROMPT
| EVENT_ON_PERMISSION_DENIED
| EVENT_ON_PERMISSION_GRANTED
| EVENT_ON_CHANGE_COMMUNICATION_ENABLED
| EVENT_DYNAMIC (type : value).

Inductive driver_kind : Type := WorkerDriver | SafariDriver.

(** A transport driver as constructed by [init]: its class and the settings
    object handed to the constructor. *)
Record Driver : Type := {
  drv_kind : driver_kind;
  drv_settings : obj
}.

(** [new API(func, apiParams, lastOpenMessage)], with [func] the result of
    [createDoApiXHR(applicationCode, pushwooshApiUrl)]. *)
Record API : Type := {
  api_applicationCode : value;
  api_pushwooshApiUrl : value;
  api_params : obj;
  api_lastOpenMessage : value
}.

(** Calls to the transport driver and to the backend facade. *)
Inductive call : Type :=
| DriverInitWorker
| DriverGetPermission
| DriverGetAPIParams
| DriverIsSubscribed
| DriverAskSubscribe (isDeviceRegistered : bool)
| DriverUnsubscribe
| DriverIsNeedUnsubscribe
| ApiRegisterDevice
| ApiUnregisterDevice
| ApiSetTags (tags : value)
| ApiRegisterUser
| ApiPostEvent (name : string) (payload : value)
| ApiGetTags
| ApiApplicationOpen.

Definition is_backend_call (c : call) : bool :=
  match c with
  | ApiRegisterDevice | ApiUnregisterDevice | ApiSetTags _ | ApiRegisterUser
  | ApiPostEvent _ _ | ApiGetTags | ApiApplicationOpen => true
  | _ => false
  end.

(** What [./functions] and the browser report. *)
Record Platform : Type := {
  isSafariBrowser : bool;
  canUseServiceWorkers : bool;
  serviceWorker_in_navigator : bool;
  getBrowserType : value;
  getBrowserVersion : value;
  navigator_language : value;
  getVersion : value;
  getPushwooshUrl : value -> value -> value;
  driver_has_initWorker : driver_kind -> bool;
  driver_has_isNeedUnsubscribe : driver_kind -> bool
}.

(** The behaviour of the collaborators.  A call started when the trace has
    length [t] settles with [answer t c]: [None] is a rejection.  The driver
    and the backend facade keep the device-registration status in
    [localStorage] themselves (the orchestrator only reads and removes it):
    [status_effect t c] is what the call does to it.  [now t] is
    [Date.now()]. *)
Record World : Type := {
  answer : nat -> call -> option value;
  status_effect : nat -> call -> option string -> option string;
  now : nat -> Z
}.

(** ** Trace *)

Inductive promise : Type :=
| PExt (t : nat) (c : call)
| PKv (k : kv_key).

Inductive action : Type :=
| ACall (c : call)
| ASettled (c : call) (fulfilled : bool)
| AKvWrite (k : kv_key) (v : value)
| ALocalStorageRemove
| AEmit (e : event) (payload : value)
| ANewDriver (d : Driver)
| ALog (level : string) (message : string)
| ADispatchInitialized.

Inductive error : Type :=
| Error (message : string)
| TypeError (message : string)
| Rejection (c : call).

(** ** Orchestrator state *)

Record State : Type := {
  params : value;
  _initParams : value;
  _isNeedResubscribe : bool;
  _isNeedRegisterUser : bool;
  _isNeedRegisterDevice : bool;
  _isNeedSetTags : bool;
  api : option API;
  driver : option Driver;
  isSafari : bool;
  permissionOnInit : value;
  ready : bool;
  subscribeWidgetConfig : value;
  sw_onmessage : bool;
  keyValue : list (kv_key * value);
  registration_status : option string;
  trace : list action
}.

(** The state of [new Pushwoosh()] over a given store and [localStorage]. *)
Definition new_Pushwoosh (P : Platform) (kv : list (kv_key * value))
    (status : option string) : State :=
  {| params := VUndef; _initParams := VUndef;
     _isNeedResubscribe := false; _isNeedRegisterUser := false;
     _isNeedRegisterDevice := false; _isNeedSetTags := false;
     api := None; driver := None; isSafari := isSafariBrowser P;
     permissionOnInit := VUndef; ready := false; subscribeWidgetConfig := VUndef;
     sw_onmessage := false; keyValue := kv; registration_status := status;
     trace := [] |}.

Definition set_params (v : value) (s : State) : State :=
  {| params := v; _initParams := _initParams s;
     _isNeedResubscribe := _isNeedResubscribe s;
     _isNeedRegisterUser := _isNeedRegisterUser s;
     _isNeedRegisterDevice := _isNeedRegisterDevice s;
     _isNeedSetTags := _isNeedSetTags s; api := api s; driver := driver s;
     isSafari := isSafari s; permissionOnInit := permissionOnInit s;
     ready := ready s; subscribeWidgetConfig := subscribeWidgetConfig s;
     sw_onmessage := sw_onmessage s; keyValue := keyValue s;
     registration_status := registration_status s; trace := trace s |}.

Definition set_initParams (v : value) (s : State) : State :=
  {| params := params s; _initParams := v;
     _isNeedResubscribe := _isNeedResubscribe s;
     _isNeedRegisterUser := _isNeedRegisterUser s;
     _isNeedRegisterDevice := _isNeedRegisterDevice s;
     _isNeedSetTags := _isNeedSetTags s; api := api s; driver := driver s;
     isSafari := isSafari s; permissionOnInit := permissionOnInit s;
     ready := ready s; subscribeWidgetConfig := subscribeWidgetConfig s;
     sw_onmessage := sw_onmessage s; keyValue := keyValue s;
     registration_status := registration_status s; trace := trace s |}.

(** The three flags [init] computes from the previously persisted parameters. *)
Definition set_init_flags (resub user tags : bool) (s : State) : State :=
  {| params := params s; _initParams := _initParams s;
     _isNeedResubscribe := resub;
     _isNeedRegisterUser := user;
     _isNeedRegisterDevice := _isNeedRegisterDevice s;
     _isNeedSetTags := tags; api := api s; driver := driver s;
     isSafari := isSafari s; permissionOnInit := permissionOnInit s;
     ready := ready s; subscribeWidgetConfig := subscribeWidgetConfig s;
     sw_onmessage := sw_onmessage s; keyValue := keyValue s;
     registration_status := registration_status s; trace := trace s |}.

Definition set_isNeedRegisterDevice (b : bool) (s : State) : State :=
  {| params := params s; _initParams := _initParams s;
     _isNeedResubscribe := _isNeedResubscribe s;
     _isNeedRegisterUser := _isNeedRegisterUser s;
     _isNeedRegisterDevice := b;
     _isNeedSetTags := _isNeedSetTags s; api := api s; driver := driver s;
     isSafari := isSafari s; permissionOnInit := permissionOnInit s;
     ready := ready s; subscribeWidgetConfig := subscribeWidgetConfig s;
     sw_onmessage := sw_onmessage s; keyValue := keyValue s;
     registration_status := registration_status s; trace := trace s |}.

Definition set_api (a : option API) (s : State) : State :=
  {| params := params s; _initParams := _initParams s;
     _isNeedResubscribe := _isNeedResubscribe s;
     _isNeedRegisterUser := _isNeedRegisterUser s;
     _isNeedRegisterDevice := _isNeedRegisterDevice s;
     _isNeedSetTags := _isNeedSetTags s; api := a; driver := driver s;
     isSafari := isSafari s; permissionOnInit := permissionOnInit s;
     ready := ready s; subscribeWidgetConfig := subscribeWidgetConfig s;
     sw_onmessage := sw_onmessage s; keyValue := keyValue s;
     registration_status := registration_status s; trace := trace s |}.

Definition set_driver (d : option Driver) (s : State) : State :=
  {| params := params s; _initParams := _initParams s;
     _isNeedResubscribe := _isNeedResubscribe s;
     _isNeedRegisterUser := _isNeedRegisterUser s;
     _isNeedRegisterDevice := _isNeedRegisterDevice s;
     _isNeedSetTags := _isNeedSetTags s; api := api s; driver := d;
     isSafari := isSafari s; permissionOnInit := permissionOnInit s;
     ready := ready s; subscribeWidgetConfig := subscribeWidgetConfig s;
     sw_onmessage := sw_onmessage s; keyValue := keyValue s;
     registration_status := registration_status s; trace := trace s |}.

Definition set_permissionOnInit (v : value) (s : State) : State :=
  {| params := params s; _initParams := _initParams s;
     _isNeedResubscribe := _isNeedResubscribe s;
     _isNeedRegisterUser := _isNeedRegisterUser s;
     _isNeedRegisterDevice := _isNeedRegisterDevice s;
     _isNeedSetTags := _isNeedSetTags s; api := api s; driver := driver s;
     isSafari := isSafari s; permissionOnInit := v;
     ready := ready s; subscribeWidgetConfig := subscribeWidgetConfig s;
     sw_onmessage := sw_onmessage s; keyValue := keyValue s;
     registration_status := registration_status s; trace := trace s |}.

Definition set_ready (b : bool) (s : State) : State :=
  {| params := params s; _initParams := _initParams s;
     _isNeedResubscribe := _isNeedResubscribe s;
     _isNeedRegisterUser := _isNeedRegisterUser s;
     _isNeedRegisterDevice := _isNeedRegisterDevice s;
     _isNeedSetTags := _isNeedSetTags s; api := api s; driver := driver s;
     isSafari := isSafari s; permissionOnInit := permissionOnInit s;
     ready := b; subscribeWidgetConfig := subscribeWidgetConfig s;
     sw_onmessage := sw_onmessage s; keyValue := keyValue s;
     registration_status := registration_status s; trace := trace s |}.

Definition set_subscribeWidgetConfig (v : value) (s : State) : State :=
  {| params := params s; _initParams := _initParams s;
     _isNeedResubscribe := _isNeedResubscribe s;
     _isNeedRegisterUser := _isNeedRegisterUser s;
     _isNeedRegisterDevice := _isNeedRegisterDevice s;
     _isNeedSetTags := _isNeedSetTags s; api := api s; driver := driver s;
     isSafari := isSafari s; permissionOnInit := permissionOnInit s;
     ready := ready s; subscribeWidgetConfig := v;
     sw_onmessage := sw_onmessage s; keyValue := keyValue s;
     registration_status := registration_status s; trace := trace s |}.

Definition set_sw_onmessage (b : bool) (s : State) : State :=
  {| params := params s; _initParams := _initParams s;
     _isNeedResubscribe := _isNeedResubscribe s;
     _isNeedRegisterUser := _isNeedRegisterUser s;
     _isNeedRegisterDevice := _isNeedRegisterDevice s;
     _isNeedSetTags := _isNeedSetTags s; api := api s; driver := driver s;
     isSafari := isSafari s; permissionOnInit := permissionOnInit s;
     ready := ready s; subscribeWidgetConfig := subscribeWidgetConfig s;
     sw_onmessage := b; keyValue := keyValue s;
     registration_status := registration_status s; trace := trace s |}.

Definition set_keyValue (kv : list (kv_key * value)) (s : State) : State :=
  {| params := params s; _initParams := _initParams s;
     _isNeedResubscribe := _isNeedResubscribe s;
     _isNeedRegisterUser := _isNeedRegisterUser s;
     _isNeedRegisterDevice := _isNeedRegisterDevice s;
     _isNeedSetTags := _isNeedSetTags s; api := api s; driver := driver s;
     isSafari := isSafari s; permissionOnInit := permissionOnInit s;
     ready := ready s; subscribeWidgetConfig := subscribeWidgetConfig s;
     sw_onmessage := sw_onmessage s; keyValue := kv;
     registration_status := registration_status s; trace := trace s |}.

Definition set_registration_status (r : option string) (s : State) : State :=
  {| params := params s; _initParams := _initParams s;
     _isNeedResubscribe := _isNeedResubscribe s;
     _isNeedRegisterUser := _isNeedRegisterUser s;
     _isNeedRegisterDevice := _isNeedRegisterDevice s;
     _isNeedSetTags := _isNeedSetTags s; api := api s; driver := driver s;
     isSafari := isSafari s; permissionOnInit := permissionOnInit s;
     ready := ready s; subscribeWidgetConfig := subscribeWidgetConfig s;
     sw_onmessage := sw_onmessage s; keyValue := keyValue s;
     registration_status := r; trace := trace s |}.

Definition set_trace (t : list action) (s : State) : State :=
  {| params := params s; _initParams := _initParams s;
     _isNeedResubscribe := _isNeedResubscribe s;
     _isNeedRegisterUser := _isNeedRegisterUser s;
     _isNeedRegisterDevice := _isNeedRegisterDevice s;
     _isNeedSetTags := _isNeedSetTags s; api := api s; driver := driver s;
     isSafari := isSafari s; permissionOnInit := permissionOnInit s;
     ready := ready s; subscribeWidgetConfig := subscribeWidgetConfig s;
     sw_onmessage := sw_onmessage s; keyValue := keyValue s;
     registration_status := registration_status s; trace := t |}.

(** ** The monad of asynchronous methods

    An [async] method is a state transformer that either returns or throws;
    [await] of a rejected promise throws.  Mutations made before a throw
    stay. *)

Inductive res (A : Type) : Type :=
| Ok (a : A)
| Throw (e : error).
Arguments Ok {A} a.
Arguments Throw {A} e.

Definition M (A : Type) : Type := State -> res A * State.

Definition ret {A} (a : A) : M A := fun s => (Ok a, s).

Definition bind {A B} (m : M A) (k : A -> M B) : M B :=
  fun s => match m s with
           | (Ok a, s') => k a s'
           | (Throw e, s') => (Throw e, s')
           end.

Definition throw {A} (e : error) : M A := fun s => (Throw e, s).

(** [try { m } catch (e) { h e }] *)
Definition try_catch {A} (m : M A) (h : error -> M A) : M A :=
  fun s => match m s with
           | (Ok a, s') => (Ok a, s')
           | (Throw e, s') => h e s'
           end.

Definition gets {A} (f : State -> A) : M A := fun s => (Ok (f s), s).

Definition modify (f : State -> State) : M unit := fun s => (Ok tt, f s).

Declare Scope async_scope.
Delimit Scope async_scope with async.
Notation "x <- c1 ;; c2" := (bind c1 (fun x => c2))
  (at level 61, c1 at next level, right associativity) : async_scope.
Notation "c1 ;; c2" := (bind c1 (fun _ => c2))
  (at level 61, right associativity) : async_scope.
Open Scope async_scope.

Definition when (b : bool) (m : M unit) : M unit := if b then m else ret tt.

(** ** Primitive effects *)

Definition log_action (a : action) : M unit :=
  modify (fun s => set_trace (trace s ++ [a]) s).

(** [this._ee.emit(e, payload)].  The handlers registered on the bus are host
    callbacks; an emission is recorded in the trace. *)
Definition emit (e : event) (payload : value) : M unit :=
  log_action (AEmit e payload).

(** [Logger.write(level, error, message)], [Logger.error], [Logger.info] *)
Definition Logger_write (level message : string) : M unit :=
  log_action (ALog level message).

Fixpoint kv_lookup (k : kv_key) (kv : list (kv_key * value)) : value :=
  match kv with
  | [] => VUndef
  | (k', v) :: t => if kv_key_eqb k k' then v else kv_lookup k t
  end.

Fixpoint kv_put (k : kv_key) (v : value) (kv : list (kv_key * value))
  : list (kv_key * value) :=
  match kv with
  | [] => [(k, v)]
  | (k', v') :: t =>
      if kv_key_eqb k k' then (k', v) :: t else (k', v') :: kv_put k v t
  end.

(** [await keyValue.get(k)]; a key never written reads as [undefined]. *)
Definition keyValue_get (k : kv_key) : M value :=
  gets (fun s => kv_lookup k (keyValue s)).

(** [keyValue.set(k, v)]: the write is issued when the call is made; the
    promise it returns always fulfils. *)
Definition keyValue_set (k : kv_key) (v : value) : M promise :=
  modify (fun s => set_keyValue (kv_put k v (keyValue s)) s) ;;
  log_action (AKvWrite k v) ;;
  ret (PKv k).

(** Modelled from the spec: [keyValue.extend] of the module [./storage], which
    is not part of the sources; the spec gives it shallow-merge semantics,
    [{...stored, ...partialValue}]. *)
Definition keyValue_extend (k : kv_key) (v : value) : M promise :=
  old <- keyValue_get k ;;
  keyValue_set k (VObj (obj_spread (spread_of old) (spread_of v))).

(** [v.k]: reading a property of [undefined] or [null] throws. *)
Definition get_prop (v : value) (k : string) : M value :=
  match v with
  | VUndef | VNull => throw (TypeError k)
  | _ => ret (obj_get k (spread_of v))
  end.

Section Orchestrator.

Variable K : Consts.
Variable P : Platform.
Variable W : World.

(** Starting an external call: it is recorded, the collaborator applies its
    effect on the registration status, and a promise is handed back. *)
Definition start (c : call) : M promise :=
  t <- gets (fun s => length (trace s)) ;;
  modify (fun s => set_registration_status
                     (status_effect W t c (registration_status s)) s) ;;
  log_action (ACall c) ;;
  ret (PExt t c).

(** [await p] *)
Definition await (p : promise) : M value :=
  match p with
  | PKv _ => ret VUndef
  | PExt t c =>
      match answer W t c with
      | Some v => log_action (ASettled c true) ;; ret v
      | None => log_action (ASettled c false) ;; throw (Rejection c)
      end
  end.

(** [await this.driver.m(...)]: with no driver the property access throws. *)
Definition driver_call (c : call) : M value :=
  d <- gets driver ;;
  match d with
  | None => throw (TypeError "driver")
  | Some _ => p <- start c ;; await p
  end.

(** [this.api.m(...)], not awaited. *)
Definition api_start (c : call) : M promise :=
  a <- gets api ;;
  match a with
  | None => throw (TypeError "api")
  | Some _ => start c
  end.

(** [await this.api.m(...)] *)
Definition api_call (c : call) : M value :=
  p <- api_start c ;; await p.

(** An element of the iterable handed to [Promise.all]: a promise, or a plain
    array (which is not a thenable, whatever it holds). *)
Inductive all_item : Type :=
| ItemPromise (p : promise)
| ItemArray (ps : list promise).

(** [await Promise.all(items)].  Each element goes through [Promise.resolve]:
    a promise is waited for, any other value counts as already fulfilled.
    The promises are taken to settle in the order of the list, and the first
    rejection rejects the aggregate. *)
Fixpoint Promise_all (items : list all_item) : M unit :=
  match items with
  | [] => ret tt
  | ItemPromise p :: rest => _ <- await p ;; Promise_all rest
  | ItemArray _ :: rest => Promise_all rest
  end.

Definition isDeviceRegistered (s : State) : bool :=
  match registration_status s with
  | Some x => x =? DEVICE_REGISTRATION_STATUS_REGISTERED K
  | None => false
  end.

Definition isDeviceUnregistered (s : State) : bool :=
  match registration_status s with
  | Some x => x =? DEVICE_REGISTRATION_STATUS_UNREGISTERED K
  | None => false
  end.

(** [localStorage.removeItem(KEY_DEVICE_REGISTRATION_STATUS)] *)
Definition removeRegistrationStatus : M unit :=
  modify (set_registration_status None) ;;
  log_action ALocalStorageRemove.

(** [getParams]: [{...apiParams, ...initParams}] over [keyValue.getAll()]. *)
Definition getParams : M value :=
  apiParams <- keyValue_get KEY_API_PARAMS ;;
  initParams <- keyValue_get KEY_INIT_PARAMS ;;
  ret (VObj (obj_spread (obj_spread [] (spread_of apiParams)) (spread_of initParams))).

(** [isCommunicationEnabled]: [isEnabled !== 0]. *)
Definition isCommunicationEnabled : M bool :=
  isEnabled <- keyValue_get KEY_COMMUNICATION_ENABLED ;;
  ret (negb (strict_eq isEnabled (VNum 0))).

(** [isNaN(val) ? 0 : Number(val)].  The slot is written by the orchestrator
    only, with a number (line 614); a number, a boolean, [undefined], [null]
    and a string of decimal digits with an optional minus sign are read as
    JavaScript reads them.  The other texts [Number] understands (blanks, a
    plus sign, exponents, hexadecimal) and arrays are outside what is
    modelled: they read as 0 here. *)
Definition lastSentTime_of (val : value) : Z :=
  match val with
  | VNum n => n
  | VBool true => 1
  | VStr s => match NilZero.int_of_string s with
              | Some d => Z.of_int d
              | None => 0
              end
  | _ => 0
  end.

(** [callApplicationOpen(force)] (lines 604-618) *)
Definition callApplicationOpen (force : value) : M unit :=
  apiParams <- driver_call DriverGetAPIParams ;;
  t <- gets (fun s => length (trace s)) ;;
  let curTime := now W t in
  val <- keyValue_get KEY_LAST_SENT_APP_OPEN ;;
  let lastSentTime := lastSentTime_of val in
  safari <- gets isSafari ;;
  noHwid <- (if safari
             then hwid <- get_prop apiParams "hwid" ;; ret (negb (truthy hwid))
             else ret false) ;;
  if noHwid then ret tt
  else if truthy force || (PERIOD_SEND_APP_OPEN K <? curTime - lastSentTime)%Z then
    p1 <- keyValue_set KEY_LAST_SENT_APP_OPEN
            (js_or (VNum curTime) (VNum (now W t))) ;;
    p2 <- api_start ApiApplicationOpen ;;
    Promise_all [ItemPromise p1; ItemPromise p2]
  else ret tt.

(** [needForcedOpen] (lines 624-634) *)
Definition needForcedOpen : M bool :=
  safari <- gets isSafari ;;
  if negb safari then ret false
  else
    previousPermission <- keyValue_get KEY_SAFARI_PREVIOUS_PERMISSION ;;
    currentPermission <- driver_call DriverGetPermission ;;
    let compare := fun prev curr : value =>
      negb (strict_eq prev (VStr (PERMISSION_GRANTED K)))
      && strict_eq curr (VStr (PERMISSION_GRANTED K)) in
    _ <- keyValue_set KEY_SAFARI_PREVIOUS_PERMISSION currentPermission ;;
    onInit <- gets permissionOnInit ;;
    ret (compare onInit currentPermission
         || compare previousPermission currentPermission).

(** [installDevice(forceRequests)] (lines 496-548).  The calls are started as
    they are pushed on [installationMethods]; the aggregation of line 542 is
    [Promise.all([installationMethods])], a one-element iterable whose
    element is the array. *)
Definition installDevice (forceRequests : value) : M unit :=
  a <- gets api ;;
  match a with
  | None => throw (Error "API is not inited")
  | Some _ =>
      isEnabled <- isCommunicationEnabled ;;
      if negb isEnabled then ret tt
      else
        savedSDKVersion <- keyValue_get KEY_SDK_VERSION ;;
        savedInitParams <- keyValue_get KEY_INIT_PARAMS ;;
        let isNewVersion := negb (strict_eq (getVersion P) savedSDKVersion) in
        let forceInstallFlag := truthy forceRequests || isNewVersion in
        m1 <- (if isNewVersion
               then p <- keyValue_set KEY_SDK_VERSION (getVersion P) ;; ret [p]
               else ret []) ;;
        needDevice <- gets _isNeedRegisterDevice ;;
        m2 <- (if needDevice || forceInstallFlag
               then p <- api_start ApiRegisterDevice ;; ret (m1 ++ [p])%list
               else ret m1) ;;
        needTags <- gets _isNeedSetTags ;;
        m3 <- (if needTags || forceInstallFlag
               then tags <- get_prop savedInitParams "tags" ;;
                    p <- api_start (ApiSetTags (VObj (obj_spread [] (spread_of tags)))) ;;
                    ret (m2 ++ [p])%list
               else ret m2) ;;
        needUser <- gets _isNeedRegisterUser ;;
        installationMethods <-
              (if needUser || forceInstallFlag
               then p <- api_start ApiRegisterUser ;; ret (m3 ++ [p])%list
               else ret m3) ;;
        Promise_all [ItemArray installationMethods] ;;
        needDevice' <- gets _isNeedRegisterDevice ;;
        when (needDevice' || forceInstallFlag) (emit EVENT_ON_REGISTER VUndef)
  end.

(** [unsubscribe(notify)] (lines 448-459) *)
Definition unsubscribe (notify : bool) : M unit :=
  try_catch
    (_ <- driver_call DriverUnsubscribe ;;
     _ <- api_call ApiUnregisterDevice ;;
     when notify (emit EVENT_ON_UNSUBSCRIBE VUndef))
    (fun e => Logger_write "error" "Error occurred during the unsubscribe").

(** [registerDuringSubscribe] (lines 424-431) *)
Definition registerDuringSubscribe : M unit :=
  subscribed <- driver_call DriverIsSubscribed ;;
  safari <- gets isSafari ;;
  (if safari
   then force <- needForcedOpen ;; callApplicationOpen (VBool force)
   else ret tt) ;;
  installDevice subscribed.

(** [onSubscribeEmitter] (lines 437-442) *)
Definition onSubscribeEmitter : M unit :=
  subscribed <- driver_call DriverIsSubscribed ;;
  when (truthy subscribed) (emit EVENT_ON_SUBSCRIBE VUndef).

(** [subscribe] (lines 390-418) *)
Definition subscribe : M unit :=
  isEnabled <- isCommunicationEnabled ;;
  if negb isEnabled then Logger_write "error" "Communication is disabled"
  else
    try_catch
      (subscribed <- driver_call DriverIsSubscribed ;;
       registered <- gets isDeviceRegistered ;;
       _ <- driver_call (DriverAskSubscribe registered) ;;
       when (negb registered) registerDuringSubscribe ;;
       when (negb (truthy subscribed)) onSubscribeEmitter)
      (fun e => Logger_write "error" "subscribe fail").

(** [isSubscribed] (lines 477-480):
    [deviceRegistration && this.driver.isSubscribed() || false]; the promise
    returned by the driver is an object, hence truthy, and is what the method
    resolves with. *)
Definition isSubscribed : M value :=
  safari <- gets isSafari ;;
  registered <- gets isDeviceRegistered ;;
  if safari || registered
  then driver_call DriverIsSubscribed
  else ret (VBool false).

(** [setCommunicationEnabled(isEnabled = true)] (lines 556-572); the default
    applies when the argument is [undefined]. *)
Definition setCommunicationEnabled (argument : value) : M value :=
  let isEnabled := match argument with VUndef => VBool true | v => v end in
  a <- gets api ;;
  match a with
  | None => throw (Error "API is not inited")
  | Some _ =>
      prm <- getParams ;;
      device_type <- get_prop prm "deviceType" ;;
      _ <- api_call (ApiPostEvent (EVENT_GDPR_CONSENT K)
             (VObj [("channel", VBool (truthy isEnabled));
                    ("device_type", device_type)])) ;;
      _ <- keyValue_set KEY_COMMUNICATION_ENABLED
             (if truthy isEnabled then VNum 1 else VNum 0) ;;
      emit EVENT_ON_CHANGE_COMMUNICATION_ENABLED (VBool (truthy isEnabled)) ;;
      if truthy isEnabled then api_call ApiRegisterDevice
      else api_call ApiUnregisterDevice
  end.

(** [Object.keys(v)]; throws on [undefined] and [null].  The keys of a
    primitive value are taken to be none (index keys of arrays and strings
    are not modelled). *)
Definition Object_keys (v : value) : M (list string) :=
  match v with
  | VUndef | VNull => throw (TypeError "Object.keys")
  | _ => ret (obj_keys (spread_of v))
  end.

(** One step of the reducer of lines 584-588, [acc[tagName] = null], on the
    accumulator and whether it still has [Object.prototype] as its
    prototype.  While it has, assigning to [__proto__] runs the setter
    inherited from [Object.prototype]: the prototype becomes [null] and no
    key is created.  Every other assignment, and one to [__proto__] after
    that, sets an own key. *)
Definition clear_step (acc : obj * bool) (tagName : string) : obj * bool :=
  if snd acc && (tagName =? "__proto__")
  then (fst acc, false)
  else (obj_set tagName VNull (fst acc), snd acc).

(** The reducer of lines 584-588 over the tag names, from [{}]. *)
Definition clearTags_of (keys : list string) : obj :=
  fst (fold_left clear_step keys ([], true)).

(** [removeAllDeviceData] (lines 578-595) *)
Definition removeAllDeviceData : M value :=
  a <- gets api ;;
  match a with
  | None => throw (Error "API is not inited")
  | Some _ =>
      prm <- getParams ;;
      device_type <- get_prop prm "deviceType" ;;
      currentTags <- api_call ApiGetTags ;;
      result <- get_prop currentTags "result" ;;
      keys <- Object_keys result ;;
      let clearTags := clearTags_of keys in
      _ <- api_call (ApiPostEvent (EVENT_GDPR_DELETE K)
             (VObj [("status", VBool true); ("device_type", device_type)])) ;;
      p1 <- api_start (ApiSetTags (VObj clearTags)) ;;
      p2 <- api_start ApiUnregisterDevice ;;
      Promise_all [ItemPromise p1; ItemPromise p2] ;;
      p <- keyValue_set KEY_DEVICE_DATA_REMOVED (VNum 1) ;;
      await p
  end.

(** The [apiParams] literal of lines 361-371. *)
Definition build_apiParams (driverApiParams deviceType deviceModel applicationCode
                            language pushwooshApiUrl userId : value) : obj :=
  let apiParams :=
    obj_set "pushwooshApiUrl" pushwooshApiUrl
      (obj_set "language" language
        (obj_set "applicationCode" applicationCode
          (obj_set "deviceModel" deviceModel
            (obj_set "deviceType" deviceType
              (obj_spread [] (spread_of driverApiParams)))))) in
  if truthy userId then obj_set "userId" userId apiParams else apiParams.

(** The comparison of line 375. *)
Definition needRegisterDevice (driverApiParams savedApiParams : value) : bool :=
  opt_string_neq (JSON_stringify driverApiParams) (JSON_stringify savedApiParams).

(** [initApi] (lines 354-383) *)
Definition initApi : M unit :=
  prm <- gets params ;;
  driverApiParams <- driver_call DriverGetAPIParams ;;
  lastOpen <- keyValue_get KEY_LAST_OPEN_MESSAGE ;;
  let lastOpenMessage := js_or lastOpen (VObj []) in
  saved <- keyValue_get KEY_API_PARAMS ;;
  let savedApiParams := js_or saved (VObj []) in
  deviceType <- get_prop prm "deviceType" ;;
  tags <- get_prop prm "tags" ;;
  deviceModel <- get_prop tags "Device Model" ;;
  applicationCode <- get_prop prm "applicationCode" ;;
  language <- get_prop tags "Language" ;;
  pushwooshApiUrl <- get_prop prm "pushwooshApiUrl" ;;
  userId <- get_prop prm "userId" ;;
  let apiParams := build_apiParams driverApiParams deviceType deviceModel
                     applicationCode language pushwooshApiUrl userId in
  modify (set_isNeedRegisterDevice (needRegisterDevice driverApiParams savedApiParams)) ;;
  p1 <- keyValue_extend KEY_API_PARAMS driverApiParams ;;
  _ <- await p1 ;;
  p2 <- keyValue_extend KEY_INIT_PARAMS prm ;;
  _ <- await p2 ;;
  modify (set_api (Some {| api_applicationCode := applicationCode;
                           api_pushwooshApiUrl := pushwooshApiUrl;
                           api_params := apiParams;
                           api_lastOpenMessage := lastOpenMessage |})).

(** Lines 643-655 of [defaultProcess]: permission query, API facade, session
    open, and the two silent unsubscribes. *)
Definition startup_prologue : M unit :=
  perm <- driver_call DriverGetPermission ;;
  modify (set_permissionOnInit perm) ;;
  initApi ;;
  callApplicationOpen VUndef ;;
  d <- gets driver ;;
  match d with
  | None => throw (TypeError "driver")
  | Some dr =>
      (if driver_has_isNeedUnsubscribe P (drv_kind dr)
       then need <- driver_call DriverIsNeedUnsubscribe ;;
            registered <- gets isDeviceRegistered ;;
            when (truthy need && registered) (unsubscribe false)
       else ret tt) ;;
      resub <- gets _isNeedResubscribe ;;
      when resub (unsubscribe false)
  end.

(** The [switch (this.permissionOnInit)] of lines 665-695. *)
Definition permission_branch (autoSubscribe : value) : M unit :=
  perm <- gets permissionOnInit ;;
  safari <- gets isSafari ;;
  if strict_eq perm (VStr (PERMISSION_DENIED K)) then
    emit EVENT_ON_PERMISSION_DENIED VUndef ;;
    registered <- gets isDeviceRegistered ;;
    when (negb safari && registered) (unsubscribe true) ;;
    removeRegistrationStatus
  else if strict_eq perm (VStr (PERMISSION_PROMPT K)) then
    registered <- gets isDeviceRegistered ;;
    when (negb safari && registered) (unsubscribe true) ;;
    removeRegistrationStatus ;;
    if truthy autoSubscribe then subscribe
    else emit EVENT_ON_PERMISSION_PROMPT VUndef
  else if strict_eq perm (VStr (PERMISSION_GRANTED K)) then
    emit EVENT_ON_PERMISSION_GRANTED VUndef ;;
    registered <- gets isDeviceRegistered ;;
    unregistered <- gets isDeviceUnregistered ;;
    resub <- gets _isNeedResubscribe ;;
    when ((negb safari && negb registered && negb unregistered) || resub) subscribe
  else Logger_write "error" "unknown permission value".

(** Lines 697-714 of [defaultProcess]. *)
Definition startup_epilogue : M unit :=
  initApi ;;
  installDevice VUndef ;;
  force <- needForcedOpen ;;
  when force (callApplicationOpen (VBool true)) ;;
  emit EVENT_ON_READY VUndef ;;
  modify (set_ready true) ;;
  delayedEvent <- keyValue_get KEY_DELAYED_EVENT ;;
  if truthy delayedEvent then
    type <- get_prop delayedEvent "type" ;;
    payload <- get_prop delayedEvent "payload" ;;
    emit (EVENT_DYNAMIC type) payload ;;
    p <- keyValue_set KEY_DELAYED_EVENT VNull ;;
    _ <- await p ;;
    ret tt
  else ret tt.

(** [const {autoSubscribe = true} = this.params || {}] *)
Definition autoSubscribe_of (prm : value) : value :=
  match obj_get "autoSubscribe" (spread_of (js_or prm (VObj []))) with
  | VUndef => VBool true
  | v => v
  end.

(** [defaultProcess] (lines 642-715) *)
Definition defaultProcess : M unit :=
  autoSubscribe <- gets (fun s => autoSubscribe_of (params s)) ;;
  startup_prologue ;;
  dataIsRemoved <- keyValue_get KEY_DEVICE_DATA_REMOVED ;;
  if truthy dataIsRemoved then Logger_write "error" "Device data has been removed"
  else
    permission_branch autoSubscribe ;;
    startup_epilogue.

(** The [params] literal of lines 238-260. *)
Definition build_params (initParams pushwooshUrl : value) : obj :=
  let ip := spread_of initParams in
  let tags :=
    obj_set "Device Model" (getBrowserVersion P)
      (obj_spread [("Language", js_or (navigator_language P) (VStr "en"))]
         (spread_of (obj_get "tags" ip))) in
  let ds := obj_get "driversSettings" ip in
  let worker :=
    obj_spread [("serviceWorkerUrl", DEFAULT_SERVICE_WORKER_URL K);
                ("applicationServerPublicKey", VUndef)]
      (spread_of (js_and ds (obj_get "worker" (spread_of ds)))) in
  let subscribeWidget :=
    obj_spread [("enable", VBool false)]
      (spread_of (obj_get "subscribeWidget" ip)) in
  obj_set "subscribeWidget" (VObj subscribeWidget)
    (obj_set "driversSettings" (VObj [("worker", VObj worker)])
      (obj_set "tags" (VObj tags)
        (obj_set "deviceType" (getBrowserType P)
          (obj_spread [("autoSubscribe", VBool true);
                       ("serviceWorkerUrl", VNull);
                       ("pushwooshUrl", pushwooshUrl)] ip)))).

(** Lines 262-265: the placeholder user id is deleted. *)
Definition drop_default_userId (prm : obj) : obj :=
  if strict_eq (obj_get "userId" prm) (VStr (DEFAULT_USER_ID K))
  then obj_delete "userId" prm
  else prm.

(** The three comparisons of lines 271-273. *)
Definition needResubscribe (prevParams prm : obj) : bool :=
  truthy (obj_get "applicationCode" prevParams)
  && negb (strict_eq (obj_get "applicationCode" prevParams)
                     (obj_get "applicationCode" prm)).

Definition needRegisterUser (prevParams prm : obj) : bool :=
  truthy (obj_get "userId" prevParams)
  && truthy (obj_get "userId" prm)
  && negb (strict_eq (obj_get "userId" prevParams) (obj_get "userId" prm)).

Definition needSetTags (prevTags tags : value) : bool :=
  truthy prevTags
  && opt_string_neq (JSON_stringify prevTags) (JSON_stringify tags).

(** Lines 280-322: the transport driver.  The event-emitter argument of the
    constructors and the ready handler the Safari branch registers on the bus
    are host-side wiring and are left out. *)
Definition init_driver (prm : obj) (scope applicationCode pushwooshUrl : value)
  : M unit :=
  safari <- gets isSafari ;;
  if canUseServiceWorkers P then
    let worker := obj_get "worker" (spread_of (obj_get "driversSettings" prm)) in
    let d := {| drv_kind := WorkerDriver;
                drv_settings :=
                  [("scope", scope);
                   ("applicationCode", applicationCode);
                   ("serviceWorkerUrl", obj_get "serviceWorkerUrl" prm);
                   ("applicationServerPublicKey",
                    obj_get "applicationServerPublicKey" (spread_of worker))] |} in
    modify (set_driver (Some d)) ;;
    log_action (ANewDriver d) ;;
    try_catch
      (if driver_has_initWorker P WorkerDriver
       then _ <- driver_call DriverInitWorker ;; ret tt
       else ret tt)
      (fun e => Logger_write "error" "driver initialization failed")
  else if safari && truthy (obj_get "safariWebsitePushID" prm) then
    let d := {| drv_kind := SafariDriver;
                drv_settings :=
                  [("applicationCode", applicationCode);
                   ("pushwooshUrl", pushwooshUrl);
                   ("pushwooshApiUrl", obj_get "pushwooshApiUrl" prm);
                   ("webSitePushID", obj_get "safariWebsitePushID" prm)] |} in
    modify (set_driver (Some d)) ;;
    log_action (ANewDriver d)
  else throw (Error "can't initialize safari").

(** Lines 324-337 of [init]: the default actions, whose failure is logged,
    and the [pushwoosh.initialized] DOM event. *)
Definition init_defaultActions : M unit :=
  try_catch
    (defaultProcess ;;
     when (serviceWorker_in_navigator P) (modify (set_sw_onmessage true)))
    (fun e => Logger_write "error" "defaultProcess fail") ;;
  log_action ADispatchInitialized.

(** Lines 225-337 of [init].  [Logger.setLevel] of lines 277-278 only
    configures the logger and is left out. *)
Definition init_body (initParams : value) : M unit :=
  scope <- get_prop initParams "scope" ;;
  applicationCode <- get_prop initParams "applicationCode" ;;
  pushwooshApiUrl <- get_prop initParams "pushwooshApiUrl" ;;
  if negb (truthy applicationCode) then throw (Error "no application code")
  else
    let pushwooshUrl := getPushwooshUrl P applicationCode pushwooshApiUrl in
    let prm := drop_default_userId (build_params initParams pushwooshUrl) in
    modify (set_params (VObj prm)) ;;
    modify (set_subscribeWidgetConfig (obj_get "subscribeWidget" prm)) ;;
    prev <- getParams ;;
    let prevParams := spread_of prev in
    modify (set_init_flags
              (needResubscribe prevParams prm)
              (needRegisterUser prevParams prm)
              (needSetTags (obj_get "tags" prevParams) (obj_get "tags" prm))) ;;
    init_driver prm scope applicationCode pushwooshUrl ;;
    init_defaultActions.

(** [init(initParams)] (lines 223-338): line 224 remembers the raw
    configuration, then the body runs. *)
Definition init (initParams : value) : M unit :=
  modify (set_initParams initParams) ;;
  init_body initParams.

End Orchestrator.

(** ** Accessors and the service-worker message handler *)

(** [const {k = dflt} = o]: the default replaces [undefined] only. *)
Definition with_default (v dflt : value) : value :=
  match v with
  | VUndef => dflt
  | _ => v
  end.

Section Accessors.

Variable W : World.

(** [getHWID] (lines 721-724) *)
Definition getHWID : M value :=
  apiParams <- driver_call W DriverGetAPIParams ;;
  get_prop apiParams "hwid".

(** [getPushToken] (lines 730-733) *)
Definition getPushToken : M value :=
  apiParams <- driver_call W DriverGetAPIParams ;;
  get_prop apiParams "pushToken".

(** [getUserId] (lines 739-742): [userId || this.params.userId || null]. *)
Definition getUserId : M value :=
  prm <- getParams ;;
  userId <- get_prop prm "userId" ;;
  if truthy userId then ret userId
  else
    own <- gets params ;;
    ownUserId <- get_prop own "userId" ;;
    ret (js_or ownUserId VNull).

(** [onServiceWorkerMessage(event)] (lines 344-348) *)
Definition onServiceWorkerMessage (event : value) : M unit :=
  data <- get_prop (js_or event (VObj [])) "data" ;;
  let message := js_or (with_default data (VObj [])) (VObj []) in
  type <- get_prop message "type" ;;
  payload <- get_prop message "payload" ;;
  emit (EVENT_DYNAMIC (with_default type (VStr ""))) (with_default payload (VObj [])).

End Accessors.

(** ** The command queue

    [push] is called by the page with functions and arrays that hold
    functions.  A function is a host callback, known here by a number; what
    the orchestrator does with it (calling it, registering it on the bus,
    chaining it on a permission promise) is recorded on the page.  The bus
    itself, [./EventEmitter], is not part of the sources: the delivery of an
    emitted event to the registered listeners is not modelled. *)

Inductive argument : Type :=
| Function (f : nat)
| Data (v : value).




(** The names of the events, constants of [./constants]. *)
Module Names.
Record t : Type := {
  EVENT_ON_READY : string;
  EVENT_ON_REGISTER : string;
  EVENT_ON_SUBSCRIBE : string;
  EVENT_ON_UNSUBSCRIBE : string;
  EVENT_ON_SW_INIT_ERROR : string;
  EVENT_ON_PUSH_DELIVERY : string;
  EVENT_ON_NOTIFICATION_CLICK : string;
  EVENT_ON_NOTIFICATION_CLOSE : string;
  EVENT_ON_CHANGE_COMMUNICATION_ENABLED : string;
  EVENT_ON_PERMISSION_DENIED : string;
  EVENT_ON_PERMISSION_PROMPT : string;
  EVENT_ON_PERMISSION_GRANTED : string
}.
End Names.

(** What [./functions] reports about the browser's abilities. *)
Record Abilities : Type := {
  isSupportSDK : bool;
  canUsePromise : bool
}.



(** The instance together with what it has done with the page's commands:
    [started] lists the configurations [init] was started with, [called] the
    calls [cmd(this.api)] made by [onReadyHandler], [listeners] the
    registrations [this._ee.on(name, ...)], [continuations] the chainings
    [this._onPromises[name].then(...)]. *)
Record Page : Type := {
  pw : State;
  onPromises : bool;
  started : list value;
  called : list (nat * option API);
  listeners : list (string * nat);
  continuations : list (string * nat)
}.

(** The constructor (lines 101-114): the three permission promises exist when
    promises are available. *)
Definition new_Page (B : Abilities) (P : Platform) (kv : list (kv_key * value))
    (status : option string) : Page :=
  {| pw := new_Pushwoosh P kv status;
     onPromises := canUsePromise B;
     started := []; called := []; listeners := []; continuations := [] |}.

Definition set_pw (s : State) (pg : Page) : Page :=
  {| pw := s; onPromises := onPromises pg; started := started pg;
     called := called pg;
     listeners := listeners pg; continuations := continuations pg |}.


Definition add_called (f : nat) (a : option API) (pg : Page) : Page :=
  {| pw := pw pg; onPromises := onPromises pg; started := started pg;
     called := (called pg ++ [(f, a)])%list;
     listeners := listeners pg; continuations := continuations pg |}.

Definition add_listener (name : string) (f : nat) (pg : Page) : Page :=
  {| pw := pw pg; onPromises := onPromises pg; started := started pg;
     called := called pg;
     listeners := (listeners pg ++ [(name, f)])%list;
     continuations := continuations pg |}.


Section Commands.

Variable K : Consts.
Variable P : Platform.
Variable W : World.
Variable N : Names.t.
Variable B : Abilities.

(** [onReadyHandler(cmd)] (lines 120-127).  The callback is taken to return
    normally. *)
Definition onReadyHandler (cmd : nat) (pg : Page) : Page :=
  if ready (pw pg) then add_called cmd (api (pw pg)) pg
  else add_listener (Names.EVENT_ON_READY N) cmd pg.



(** A started [init] followed to its settlement: the rest of its body, and
    the handler [.catch] of line 166. *)
Definition settle_init (v : value) : M unit :=
  try_catch (init_body K P W v)
    (fun e => Logger_write "info" "Pushwoosh init failed").



End Commands.

(** ** Specification-side notions *)

(** Deep structural equality of key-value mappings, as the specification words
    it: two objects are equal when they hold the same keys with deeply equal
    values, whatever the order of the keys. *)
Fixpoint deep_equal (a b : value) : bool :=
  match a, b with
  | VUndef, VUndef => true
  | VNull, VNull => true
  | VBool x, VBool y => Bool.eqb x y
  | VNum x, VNum y => (x =? y)%Z
  | VStr x, VStr y => (x =? y)
  | VArr la, VArr lb =>
      (fix elements (la lb : list value) : bool :=
         match la, lb with
         | [], [] => true
         | x :: ta, y :: tb => deep_equal x y && elements ta tb
         | _, _ => false
         end) la lb
  | VObj la, VObj lb =>
      (length la =? length lb)%nat
      && (fix pairs (la : list (string * value)) : bool :=
            match la with
            | [] => true
            | (k, x) :: ta =>
                existsb (fun kb => k =? fst kb) lb
                && deep_equal x (obj_get k lb)
                && pairs ta
            end) la
  | _, _ => false
  end.

(** A value that JSON can represent: no [undefined] anywhere inside. *)
Fixpoint json_clean (v : value) : bool :=
  match v with
  | VUndef => false
  | VArr l => forallb json_clean l
  | VObj l => forallb (fun kx => json_clean (snd kx)) l
  | _ => true
  end.

(** A primitive value, for which [===] is equality of values. *)
Definition is_primitive (v : value) : bool :=
  match v with
  | VArr _ | VObj _ => false
  | _ => true
  end.

(** ** Reading the trace *)

Definition is_emit (a : action) : bool :=
  match a with AEmit _ _ => true | _ => false end.

Definition is_settled (a : action) : bool :=
  match a with ASettled _ _ => true | _ => false end.

Definition is_call_of (p : call -> bool) (a : action) : bool :=
  match a with ACall c => p c | _ => false end.

(** The three backend calls the install sequence selects among. *)
Definition is_install_call (c : call) : bool :=
  match c with
  | ApiRegisterDevice | ApiSetTags _ | ApiRegisterUser => true
  | _ => false
  end.

Definition is_transport_unsubscribe (c : call) : bool :=
  match c with DriverUnsubscribe => true | _ => false end.

Definition count_actions (p : action -> bool) (l : list action) : nat :=
  length (filter p l).

(** [m] keeps the invariant [I] and appends to the trace only actions that
    satisfy [allowed], whether it returns or throws. *)
Definition keeps {A} (Inv : State -> Prop) (allowed : action -> Prop) (m : M A) : Prop :=
  forall s, Inv s ->
    Inv (snd (m s)) /\
    exists l, trace (snd (m s)) = (trace s ++ l)%list /\ Forall allowed l.

(** ** Predicates used by the proofs *)

(** The text of a value inside an array or an object. *)
Definition stringify_element (v : value) : string :=
  match JSON_stringify v with
  | Some s => s
  | None => "null"
  end.

(** A decimal digit. *)
Definition is_digit (c : ascii) : bool :=
  let n := nat_of_ascii c in (48 <=? n)%nat && (n <=? 57)%nat.

(** A text that does not continue a number. *)
Definition delimited (r : string) : Prop :=
  match r with
  | EmptyString => True
  | String c _ => is_digit c = false
  end.

(** A text made of decimal digits only. *)
Fixpoint all_digits (s : string) : bool :=
  match s with
  | EmptyString => true
  | String c t => is_digit c && all_digits t
  end.

(** A name JavaScript may treat as an array index: a non-empty text of
    decimal digits.  Keys that are array indices are enumerated first, in
    numeric order, whatever the order of insertion. *)
Definition array_index_like (k : string) : bool :=
  negb (k =? "") && all_digits k.

(** Pairwise distinct names. *)
Fixpoint distinct_keys (ks : list string) : bool :=
  match ks with
  | [] => true
  | k :: t => negb (existsb (String.eqb k) t) && distinct_keys t
  end.

(** Plain data on which the values of the model are the values of
    JavaScript: no [undefined] inside, integers that a double holds exactly,
    objects whose keys are distinct and none of them an array index, so that
    they are enumerated in the order of insertion. *)
Fixpoint portable (v : value) : bool :=
  match v with
  | VUndef => false
  | VNull | VBool _ | VStr _ => true
  | VNum n => (Z.abs n <? 2 ^ 53)%Z
  | VArr l => forallb portable l
  | VObj l =>
      distinct_keys (map fst l)
      && forallb (fun kx => negb (array_index_like (fst kx)) && portable (snd kx)) l
  end.

(** The value of a lower-case hexadecimal digit. *)
Definition hex_value (c : ascii) : nat :=
  let n := nat_of_ascii c in
  if (n <=? 57)%nat then n - 48 else n - 87.

(** Inverse of [escape_char] on the head of a text: the code unit the text
    starts with and what follows it; a closing quote yields nothing. *)
Definition unescape_head (s : string) : option (ascii * string) :=
  match s with
  | EmptyString => None
  | String c t =>
      if (nat_of_ascii c =? 34)%nat then None
      else if (nat_of_ascii c =? 92)%nat then
        match t with
        | String e t' =>
            if (nat_of_ascii e =? 117)%nat then
              match t' with
              | String _ (String _ (String h (String l t''))) =>
                  Some (ascii_of_nat (16 * hex_value h + hex_value l), t'')
              | _ => None
              end
            else if (nat_of_ascii e =? 98)%nat then Some (ascii_of_nat 8, t')
            else if (nat_of_ascii e =? 102)%nat then Some (ascii_of_nat 12, t')
            else if (nat_of_ascii e =? 110)%nat then Some (ascii_of_nat 10, t')
            else if (nat_of_ascii e =? 114)%nat then Some (ascii_of_nat 13, t')
            else if (nat_of_ascii e =? 116)%nat then Some (ascii_of_nat 9, t')
            else Some (e, t')
        | EmptyString => None
        end
      else Some (c, t)
  end.

(** The text of one property of an object. *)
Definition object_entry (kx : string * value) : string :=
  quote (fst kx) ++ ":" ++ stringify_element (snd kx).

(** The first character of the text of a value. *)
Definition opens_value (c : ascii) : Prop :=
  is_digit c = true \/
  In c ["-"; "n"; "t"; "f"; dquote; "["; "{"]%char.

(** An invariant that speaks neither of the trace nor of the registration
    status, the two fields every external call touches. *)
Record frame (Inv : State -> Prop) : Prop := {
  frame_trace : forall s t, Inv s -> Inv (set_trace t s);
  frame_status : forall s r, Inv s -> Inv (set_registration_status r s)
}.

(** The tombstone entry holds [v] and the ready flag is [r]. *)
Definition tombstone_kept (v : value) (r : bool) (s : State) : Prop :=
  kv_lookup KEY_DEVICE_DATA_REMOVED (keyValue s) = v /\ ready s = r.

Definition not_emit (a : action) : Prop := is_emit a = false.

Definition not_settled (a : action) : Prop := is_settled a = false.

Definition any_action (a : action) : Prop := True.

(** The invariant that holds of every state. *)
Definition anything (s : State) : Prop := True.

Definition is_rejection (e : error) : bool :=
  match e with Rejection _ => true | _ => false end.

(** [m] never throws a rejection of a call. *)
Definition observes_no_rejection {A} (m : M A) : Prop :=
  forall s e, fst (m s) = Throw e -> is_rejection e = false.

(** What one [unsubscribe(notify)] appends to the trace when it starts at
    time [t] (lines 448-459). *)
Definition unsubscribe_actions (W : World) (notify : bool) (t : nat) : list action :=
  match answer W t DriverUnsubscribe with
  | None =>
      [ACall DriverUnsubscribe; ASettled DriverUnsubscribe false;
       ALog "error" "Error occurred during the unsubscribe"]
  | Some _ =>
      ([ACall DriverUnsubscribe; ASettled DriverUnsubscribe true;
        ACall ApiUnregisterDevice] ++
       match answer W (t + 2) ApiUnregisterDevice with
       | None =>
           [ASettled ApiUnregisterDevice false;
            ALog "error" "Error occurred during the unsubscribe"]
       | Some _ =>
           ASettled ApiUnregisterDevice true ::
           (if notify then [AEmit EVENT_ON_UNSUBSCRIBE VUndef] else [])
       end)%list
  end.

(** A driver has been constructed and an API facade built. *)
Definition facade_built (s : State) : Prop := driver s <> None /\ api s <> None.

Definition driver_is (d : option Driver) (s : State) : Prop := driver s = d.

Definition permission_is (v : value) (s : State) : Prop := permissionOnInit s = v.

Definition is_backend_unregister (c : call) : bool :=
  match c with ApiUnregisterDevice => true | _ => false end.

(** [m] neither reads nor writes the remembered raw configuration
    [_initParams]. *)
Definition ignores_initParams {A} (m : M A) : Prop :=
  forall x s, m (set_initParams x s) = (fst (m s), set_initParams x (snd (m s))).

(** The state a second startup runs in: no diff flag raised, the persisted
    SDK version is the current one, and the persisted API parameters are the
    transport's current ones. *)
Definition settled (P : Platform) (d : obj) (s : State) : Prop :=
  _isNeedResubscribe s = false
  /\ _isNeedRegisterUser s = false
  /\ _isNeedSetTags s = false
  /\ _isNeedRegisterDevice s = false
  /\ strict_eq (getVersion P) (kv_lookup KEY_SDK_VERSION (keyValue s)) = true
  /\ kv_lookup KEY_API_PARAMS (keyValue s) = VObj d.

(** Actions other than an install call and a write of the SDK version. *)
Definition quiet_action (a : action) : bool :=
  match a with
  | ACall c => negb (is_install_call c)
  | AKvWrite KEY_SDK_VERSION _ => false
  | _ => true
  end.

Definition quiet (a : action) : Prop := quiet_action a = true.

(** ** Counting along the methods *)

Definition is_applicationOpen (c : call) : bool :=
  match c with ApiApplicationOpen => true | _ => false end.

Definition is_ask_subscribe (c : call) : bool :=
  match c with DriverAskSubscribe _ => true | _ => false end.

(** An emission of the given bus event under its constant; an emission
    under a name computed at run time is not counted. *)
Definition is_emit_of (e : event) (a : action) : bool :=
  match a, e with
  | AEmit EVENT_ON_READY _, EVENT_ON_READY
  | AEmit EVENT_ON_SUBSCRIBE _, EVENT_ON_SUBSCRIBE
  | AEmit EVENT_ON_UNSUBSCRIBE _, EVENT_ON_UNSUBSCRIBE
  | AEmit EVENT_ON_REGISTER _, EVENT_ON_REGISTER
  | AEmit EVENT_ON_PERMISSION_PROMPT _, EVENT_ON_PERMISSION_PROMPT
  | AEmit EVENT_ON_PERMISSION_DENIED _, EVENT_ON_PERMISSION_DENIED
  | AEmit EVENT_ON_PERMISSION_GRANTED _, EVENT_ON_PERMISSION_GRANTED
  | AEmit EVENT_ON_CHANGE_COMMUNICATION_ENABLED _, EVENT_ON_CHANGE_COMMUNICATION_ENABLED =>
      true
  | _, _ => false
  end.

(** [m] appends to the trace at most [n] actions that satisfy [p], whether it
    returns or throws. *)
Definition adds_at_most {A} (p : action -> bool) (n : nat) (m : M A) : Prop :=
  forall s, count_actions p (trace (snd (m s))) <= count_actions p (trace s) + n.

(** Actions that do not satisfy [p]. *)
Definition avoids (p : action -> bool) (a : action) : Prop := p a = false.

Definition is_registerDevice (c : call) : bool :=
  match c with ApiRegisterDevice => true | _ => false end.

(** The transport granting a subscription to a device that is not marked
    registered: [askSubscribe(false)] fulfilled. *)
Definition is_new_grant (a : action) : bool :=
  match a with
  | ASettled (DriverAskSubscribe false) true => true
  | _ => false
  end.

(** [m] extends the trace, and unless the extension holds an action that
    satisfies [bad], it keeps [Inv] and the extension is made of [allowed]
    actions. *)
Definition keeps_unless {A} (Inv : State -> Prop) (allowed : action -> Prop)
    (bad : action -> bool) (m : M A) : Prop :=
  forall s, exists l,
    trace (snd (m s)) = (trace s ++ l)%list
    /\ (existsb bad l = true \/ (Inv s -> Inv (snd (m s)) /\ Forall allowed l)).

(** Actions other than a subscription request to the transport and an
    install call to the backend. *)
Definition calm_action (a : action) : bool :=
  match a with
  | ACall c => negb (is_ask_subscribe c) && negb (is_install_call c)
  | _ => true
  end.

Definition calm (a : action) : Prop := calm_action a = true.

(** An API facade whose parameters have a [userId] field exactly when the
    transport's report has one: lines 369-371 added none. *)
Definition userId_as_reported (W : World) (a : API) : Prop :=
  exists t dp,
    answer W t DriverGetAPIParams = Some dp
    /\ existsb (String.eqb "userId") (obj_keys (api_params a))
       = existsb (String.eqb "userId") (obj_keys (spread_of dp)).

(** The merged parameters are [prm], the register-user flag is down, and the
    API facade is the one of the start, [a0], or one built since without a
    [userId] of the configuration. *)
Definition without_userId (W : World) (prm : obj) (a0 : option API) (s : State) : Prop :=
  params s = VObj prm
  /\ _isNeedRegisterUser s = false
  /\ (api s = a0 \/ exists a, api s = Some a /\ userId_as_reported W a).

(** The ready flag is set only on an instance that has its API facade. *)
Definition ready_has_api (s : State) : Prop := ready s = true -> api s <> None.

Definition api_built (s : State) : Prop := api s <> None.

(** The store holds [v] under [k]. *)
Definition entry_kept (k : kv_key) (v : value) (s : State) : Prop :=
  kv_lookup k (keyValue s) = v.

(** The store is [kv]. *)
Definition store_is (kv : list (kv_key * value)) (s : State) : Prop := keyValue s = kv.

(** The two ways [removeAllDeviceData] can end over the store [kv]: it
    returns and the tombstone is written, or it throws and the store is as
    it was. *)
Definition purge_outcome (kv : list (kv_key * value)) (x : res value * State) : Prop :=
  match fst x with
  | Ok _ => keyValue (snd x) = kv_put KEY_DEVICE_DATA_REMOVED (VNum 1) kv
  | Throw _ => keyValue (snd x) = kv
  end.

(** ** Sample constants, platforms and worlds *)

Definition K0 : Consts := {|
  DEFAULT_SERVICE_WORKER_URL := VStr "/pushwoosh-service-worker.js";
  PERIOD_SEND_APP_OPEN := 3600000%Z;
  PERMISSION_DENIED := "denied";
  PERMISSION_GRANTED := "granted";
  PERMISSION_PROMPT := "prompt";
  DEVICE_REGISTRATION_STATUS_REGISTERED := "registered";
  DEVICE_REGISTRATION_STATUS_UNREGISTERED := "unregistered";
  DEFAULT_USER_ID := "user_id";
  EVENT_GDPR_CONSENT := "GDPRConsent";
  EVENT_GDPR_DELETE := "GDPRDelete" |}.

(** A browser with service workers, and Safari with its own push service. *)
Definition P_worker : Platform := {|
  isSafariBrowser := false;
  canUseServiceWorkers := true;
  serviceWorker_in_navigator := true;
  getBrowserType := VNum 11;
  getBrowserVersion := VStr "Chrome 70";
  navigator_language := VStr "en";
  getVersion := VStr "3.0.0";
  getPushwooshUrl := fun _ _ => VStr "https://cp.pushwoosh.com/json/1.3/";
  driver_has_initWorker := fun _ => true;
  driver_has_isNeedUnsubscribe :=
    fun k => match k with WorkerDriver => true | SafariDriver => false end |}.

Definition P_safari : Platform := {|
  isSafariBrowser := true;
  canUseServiceWorkers := false;
  serviceWorker_in_navigator := false;
  getBrowserType := VNum 10;
  getBrowserVersion := VStr "Safari 12";
  navigator_language := VStr "en";
  getVersion := VStr "3.0.0";
  getPushwooshUrl := fun _ _ => VStr "https://cp.pushwoosh.com/json/1.3/";
  driver_has_initWorker := fun _ => false;
  driver_has_isNeedUnsubscribe := fun _ => false |}.

Definition sample_device : value := VObj [("hwid", VStr "h1"); ("pushToken", VStr "t1")].

Definition sample_tags : value := VObj [("result", VObj [("A", VStr "x"); ("B", VStr "y")])].

(** A world with the given live permission and subscription status, where the
    backend calls in [failing] reject and every other call fulfils; the
    backend facade marks the device registered or unregistered when the
    corresponding call is accepted. *)
Definition sample_world (perm : string) (subscribed : bool) (failing : call -> bool)
  : World := {|
  answer := fun _ c =>
    if failing c then None
    else match c with
         | DriverGetPermission => Some (VStr perm)
         | DriverGetAPIParams => Some sample_device
         | DriverIsSubscribed => Some (VBool subscribed)
         | DriverIsNeedUnsubscribe => Some (VBool false)
         | ApiGetTags => Some sample_tags
         | _ => Some VUndef
         end;
  status_effect := fun _ c st =>
    if failing c then st
    else match c with
         | ApiRegisterDevice => Some "registered"
         | ApiUnregisterDevice => Some "unregistered"
         | _ => st
         end;
  now := fun _ => 1500000000000%Z |}.

Definition nothing_fails (c : call) : bool := false.

Definition sample_config : obj :=
  [("applicationCode", VStr "XXXXX-XXXXX");
   ("userId", VStr "alice");
   ("tags", VObj [("A", VStr "x"); ("B", VStr "y")])].

(** The same configuration with the two tags given in the other order. *)
Definition sample_config_reordered : obj :=
  [("applicationCode", VStr "XXXXX-XXXXX");
   ("userId", VStr "alice");
   ("tags", VObj [("B", VStr "y"); ("A", VStr "x")])].

Definition sample_config_safari : obj :=
  [("applicationCode", VStr "XXXXX-XXXXX");
   ("safariWebsitePushID", VStr "web.com.example")].

(** Permission granted, transport subscribed, every call accepted. *)
Definition W_granted : World := sample_world "granted" true nothing_fails.

(** The same, with the backend rejecting the three install calls. *)
Definition W_install_rejected : World := sample_world "granted" true is_install_call.

(** The same, with the backend rejecting [setTags] only. *)
Definition rejects_setTags (c : call) : bool :=
  match c with ApiSetTags _ => true | _ => false end.

Definition W_setTags_rejected : World := sample_world "granted" true rejects_setTags.

Definition W_denied : World := sample_world "denied" true nothing_fails.

(** Permission denied, and the transport unable to report its parameters. *)
Definition fails_getAPIParams (c : call) : bool :=
  match c with DriverGetAPIParams => true | _ => false end.

Definition W_denied_no_parameters : World :=
  sample_world "denied" true fails_getAPIParams.

(** One tag mapping written in two key orders. *)
Definition tags_A_then_B : value := VObj [("A", VStr "x"); ("B", VStr "y")].

Definition tags_B_then_A : value := VObj [("B", VStr "y"); ("A", VStr "x")].

(** A page load: a new instance over what the previous one left in the
    stores. *)
Definition reload (P : Platform) (s : State) : State :=
  new_Pushwoosh P (keyValue s) (registration_status s).

(** A first startup on a fresh browser profile. *)
Definition after_first_run : State :=
  snd (init K0 P_worker W_granted (VObj sample_config) (new_Pushwoosh P_worker [] None)).

(** A first startup over a store that still holds an API parameter the
    transport no longer reports, followed by a second one. *)
Definition stale_store : list (kv_key * value) :=
  [(KEY_API_PARAMS, VObj [("legacyToken", VStr "t0")])].

Definition after_first_run_stale : State :=
  snd (init K0 P_worker W_granted (VObj sample_config)
         (new_Pushwoosh P_worker stale_store None)).

Definition after_second_run_stale : State :=
  snd (init K0 P_worker W_granted (VObj sample_config)
         (reload P_worker after_first_run_stale)).

(** Two startups while the backend rejects the install calls. *)
Definition after_first_run_rejected : State :=
  snd (init K0 P_worker W_install_rejected (VObj sample_config)
         (new_Pushwoosh P_worker [] None)).

Definition after_second_run_rejected : State :=
  snd (init K0 P_worker W_install_rejected (VObj sample_config)
         (reload P_worker after_first_run_rejected)).

(** The state of a new instance as [init] hands it to [defaultProcess]: the
    parameters merged, the driver constructed. *)
Definition before_defaultProcess (P : Platform) (W : World) (cfg : obj)
    (status : option string) : State :=
  let url := getPushwooshUrl P (obj_get "applicationCode" cfg)
               (obj_get "pushwooshApiUrl" cfg) in
  let prm := drop_default_userId K0 (build_params K0 P (VObj cfg) url) in
  snd (init_driver P W prm (obj_get "scope" cfg) (obj_get "applicationCode" cfg) url
         (set_subscribeWidgetConfig (obj_get "subscribeWidget" prm)
            (set_params (VObj prm)
               (set_initParams (VObj cfg) (new_Pushwoosh P [] status))))).

(** A Safari device, and a service-worker device, both marked registered,
    starting up after the permission has been revoked. *)
Definition safari_before_defaultProcess : State :=
  before_defaultProcess P_safari W_denied sample_config_safari (Some "registered").

Definition worker_before_defaultProcess : State :=
  before_defaultProcess P_worker W_denied sample_config (Some "registered").

Definition safari_at_branch : State :=
  snd (startup_prologue K0 P_safari W_denied safari_before_defaultProcess).

(** Communication disabled after a first run. *)
Definition communication_disabled : State :=
  set_keyValue (kv_put KEY_COMMUNICATION_ENABLED (VNum 0) (keyValue after_first_run))
    after_first_run.

(** A backend whose tag mapping has a tag named [__proto__]. *)
Definition sample_tags_proto : value :=
  VObj [("result", VObj [("__proto__", VStr "x"); ("A", VStr "y")])].

Definition W_proto_tags : World := {|
  answer := fun t c =>
    match c with
    | ApiGetTags => Some sample_tags_proto
    | _ => answer W_granted t c
    end;
  status_effect := status_effect W_granted;
  now := now W_granted |}.

(** A store carrying the device-data-removed tombstone. *)
Definition tombstoned : State :=
  new_Pushwoosh P_worker [(KEY_DEVICE_DATA_REMOVED, VNum 1)] (Some "registered").

(** ** Further samples *)

(** Safari before any device token exists: the transport reports no
    parameters. *)
Definition W_safari_no_hwid : World := {|
  answer := fun _ c =>
    match c with
    | DriverGetPermission => Some (VStr "granted")
    | DriverGetAPIParams => Some (VObj [])
    | _ => Some VUndef
    end;
  status_effect := fun _ _ st => st;
  now := fun _ => 1500000000000%Z |}.

(** A Safari instance as [init] hands it to [defaultProcess], permission
    granted. *)
Definition safari_granted_before_defaultProcess : State :=
  before_defaultProcess P_safari W_granted sample_config_safari None.

(** A service-worker instance as [init] hands it to [defaultProcess],
    permission granted. *)
Definition worker_granted_before_defaultProcess : State :=
  before_defaultProcess P_worker W_granted sample_config None.

(** The store a run leaves, with the push token of an earlier subscription:
    the transport now reports another one. *)
Definition store_with_old_token : list (kv_key * value) :=
  kv_put KEY_API_PARAMS (VObj [("hwid", VStr "h1"); ("pushToken", VStr "t0")])
    (keyValue after_first_run).

Definition after_token_change : State :=
  snd (init K0 P_worker W_granted (VObj sample_config)
         (new_Pushwoosh P_worker store_with_old_token (Some "registered"))).

(** The instance of the first run, with a delayed event left in the store by
    the service worker. *)
Definition with_delayed_event : State :=
  set_keyValue
    (kv_put KEY_DELAYED_EVENT
       (VObj [("type", VStr "onPushDelivery"); ("payload", VObj [("title", VStr "hello")])])
       (keyValue after_first_run))
    after_first_run.

(** A service-worker instance at the permission branch, the permission not
    yet asked for, with automatic subscription switched off. *)
Definition W_prompt : World := sample_world "prompt" false nothing_fails.

Definition at_prompt_branch : State :=
  snd (startup_prologue K0 P_worker W_prompt
         (before_defaultProcess P_worker W_prompt
            (("autoSubscribe", VBool false) :: sample_config) (Some "registered"))).

(** A configuration that tries to set the platform's fields, and one that
    switches automatic subscription off. *)
Definition sample_config_overriding : obj :=
  [("applicationCode", VStr "XXXXX-XXXXX");
   ("deviceType", VNum 99);
   ("autoSubscribe", VNull);
   ("tags", VObj [("Language", VStr "fr"); ("Device Model", VStr "mine")])].

(** A device the user has unsubscribed, at the permission branch of a later
    startup, the permission still granted. *)
Definition at_granted_branch_unregistered : State :=
  snd (startup_prologue K0 P_worker W_granted
         (before_defaultProcess P_worker W_granted sample_config (Some "unregistered"))).

(** Sample names and abilities. *)
Definition N0 : Names.t := {|
  Names.EVENT_ON_READY := "onReady";
  Names.EVENT_ON_REGISTER := "onRegister";
  Names.EVENT_ON_SUBSCRIBE := "onSubscribe";
  Names.EVENT_ON_UNSUBSCRIBE := "onUnsubscribe";
  Names.EVENT_ON_SW_INIT_ERROR := "onSWInitError";
  Names.EVENT_ON_PUSH_DELIVERY := "onPushDelivery";
  Names.EVENT_ON_NOTIFICATION_CLICK := "onNotificationClick";
  Names.EVENT_ON_NOTIFICATION_CLOSE := "onNotificationClose";
  Names.EVENT_ON_CHANGE_COMMUNICATION_ENABLED := "onChangeCommunicationEnabled";
  Names.EVENT_ON_PERMISSION_DENIED := "onPermissionDenied";
  Names.EVENT_ON_PERMISSION_PROMPT := "onPermissionPrompt";
  Names.EVENT_ON_PERMISSION_GRANTED := "onPermissionGranted" |}.

Definition B0 : Abilities := {| isSupportSDK := true; canUsePromise := true |}.

(** * Properties *)

Example stringify_tags :
  JSON_stringify (VObj [("Language", VStr "en"); ("n", VNum (-12)); ("u", VUndef);
                        ("l", VArr [VBool true; VUndef; VNull])])
  = Some ("{" ++ quote "Language" ++ ":" ++ quote "en" ++ "," ++ quote "n" ++ ":-12,"
          ++ quote "l" ++ ":[true,null,null]}").
Proof. reflexivity. Qed.

(** ** The text produced by [JSON.stringify] *)

Lemma append_assoc (a b c : string) : (a ++ b) ++ c = a ++ (b ++ c).
Proof. induction a as [|x a IH]; simpl; [reflexivity | now rewrite IH]. Qed.

Lemma unescape_escape_char (c : ascii) (x : string) :
  unescape_head (escape_char c ++ x) = Some (c, x).
Proof.
  destruct c as [[|] [|] [|] [|] [|] [|] [|] [|]]; reflexivity.
Qed.

Lemma escape_prefix (s1 s2 x1 x2 : string) :
  escape s1 ++ String dquote x1 = escape s2 ++ String dquote x2 ->
  s1 = s2 /\ x1 = x2.
Proof.
  revert s2. induction s1 as [|c1 t1 IH]; intros [|c2 t2] H; simpl in H.
  - injection H as H. now split.
  - apply (f_equal unescape_head) in H. rewrite append_assoc in H.
    rewrite unescape_escape_char in H. discriminate.
  - apply (f_equal unescape_head) in H. rewrite append_assoc in H.
    rewrite unescape_escape_char in H. discriminate.
  - rewrite !append_assoc in H. apply (f_equal unescape_head) in H.
    rewrite !unescape_escape_char in H. injection H as -> H.
    destruct (IH _ H) as [-> ->]. now split.
Qed.

Lemma quote_prefix (s1 s2 x1 x2 : string) :
  quote s1 ++ x1 = quote s2 ++ x2 -> s1 = s2 /\ x1 = x2.
Proof.
  unfold quote. simpl. intros H. injection H as H.
  rewrite !append_assoc in H. simpl in H. now apply escape_prefix.
Qed.

(** Numbers *)

Lemma all_digits_uint (d : uint) : all_digits (NilEmpty.string_of_uint d) = true.
Proof. induction d; simpl; try reflexivity; exact IHd. Qed.

Lemma all_digits_uint_zero (d : uint) : all_digits (NilZero.string_of_uint d) = true.
Proof. destruct d; try reflexivity; apply (all_digits_uint (_ _)). Qed.

Lemma uint_text_nonempty (d : uint) : NilZero.string_of_uint d <> "".
Proof. destruct d; discriminate. Qed.

Lemma digits_prefix (a b r1 r2 : string) :
  all_digits a = true -> all_digits b = true -> delimited r1 -> delimited r2 ->
  a ++ r1 = b ++ r2 -> a = b /\ r1 = r2.
Proof.
  revert b. induction a as [|c a IH]; intros [|c' b] Ha Hb H1 H2 H; simpl in *.
  - now split.
  - subst r1. simpl in H1. apply andb_true_iff in Hb. destruct Hb. congruence.
  - subst r2. simpl in H2. apply andb_true_iff in Ha. destruct Ha. congruence.
  - injection H as -> H. apply andb_true_iff in Ha. apply andb_true_iff in Hb.
    destruct (IH b) as [-> ->]; tauto.
Qed.

(** The text of a number: an optional minus sign and a non-empty run of
    digits. *)
Lemma num_to_string_shape (n : Z) :
  exists ds, ds <> "" /\ all_digits ds = true /\
             (num_to_string n = ds \/ num_to_string n = String "-" ds).
Proof.
  unfold num_to_string. destruct (Z.to_int n) as [d|d]; simpl.
  - exists (NilZero.string_of_uint d).
    split; [apply uint_text_nonempty|]. split; [apply all_digits_uint_zero | now left].
  - exists (NilZero.string_of_uint d).
    split; [apply uint_text_nonempty|]. split; [apply all_digits_uint_zero | now right].
Qed.

Lemma num_to_string_inj (n m : Z) : num_to_string n = num_to_string m -> n = m.
Proof.
  unfold num_to_string. intros H. apply DecimalZ.to_int_inj.
  assert (G : forall z, NilZero.int_of_string (NilZero.string_of_int (Z.to_int z))
                        = Some (Z.to_int z)).
  { intros z. apply NilZero.isi.
    - destruct z; simpl; try discriminate.
      intros E. injection E as E. revert E. apply DecimalPos.Unsigned.to_uint_nonnil.
    - destruct z; simpl; try discriminate.
      intros E. injection E as E. revert E. apply DecimalPos.Unsigned.to_uint_nonnil. }
  pose proof (G n) as Gn. rewrite H, G in Gn. now injection Gn.
Qed.

Lemma num_prefix (n m : Z) (r1 r2 : string) :
  delimited r1 -> delimited r2 ->
  num_to_string n ++ r1 = num_to_string m ++ r2 -> n = m /\ r1 = r2.
Proof.
  intros H1 H2 H.
  destruct (num_to_string_shape n) as (a & Ha0 & Ha & [Ea|Ea]);
  destruct (num_to_string_shape m) as (b & Hb0 & Hb & [Eb|Eb]);
  rewrite Ea, Eb in H.
  - destruct (digits_prefix a b r1 r2 Ha Hb H1 H2 H) as [-> ->].
    split; [apply num_to_string_inj; congruence | reflexivity].
  - destruct a as [|c a]; [congruence|]. simpl in H. injection H as -> _.
    simpl in Ha. discriminate.
  - destruct b as [|c b]; [congruence|]. simpl in H. injection H as <- _.
    simpl in Hb. discriminate.
  - simpl in H. injection H as H.
    destruct (digits_prefix a b r1 r2 Ha Hb H1 H2 H) as [-> ->].
    split; [apply num_to_string_inj; congruence | reflexivity].
Qed.

Lemma num_head (n : Z) :
  exists c s, num_to_string n = String c s /\ (is_digit c = true \/ c = "-"%char).
Proof.
  destruct (num_to_string_shape n) as (ds & H0 & Hd & [E|E]).
  - destruct ds as [|c s]; [congruence|]. exists c, s. split; [exact E|].
    left. simpl in Hd. now apply andb_true_iff in Hd.
  - exists "-"%char, ds. split; [exact E | now right].
Qed.

(** Induction over values that reaches inside arrays and objects. *)
Section ValueInduction.
Variable Q : value -> Prop.
Hypothesis Q_undef : Q VUndef.
Hypothesis Q_null : Q VNull.
Hypothesis Q_bool : forall b, Q (VBool b).
Hypothesis Q_num : forall n, Q (VNum n).
Hypothesis Q_str : forall s, Q (VStr s).
Hypothesis Q_arr : forall l, Forall Q l -> Q (VArr l).
Hypothesis Q_obj : forall l, Forall (fun kx => Q (snd kx)) l -> Q (VObj l).

Fixpoint value_nested_ind (v : value) : Q v :=
  match v with
  | VUndef => Q_undef
  | VNull => Q_null
  | VBool b => Q_bool b
  | VNum n => Q_num n
  | VStr s => Q_str s
  | VArr l =>
      Q_arr l ((fix elements (l : list value) : Forall Q l :=
                  match l with
                  | [] => Forall_nil Q
                  | x :: t => Forall_cons x (value_nested_ind x) (elements t)
                  end) l)
  | VObj l =>
      Q_obj l ((fix pairs (l : list (string * value))
                  : Forall (fun kx => Q (snd kx)) l :=
                  match l with
                  | [] => Forall_nil _
                  | kx :: t => Forall_cons kx (value_nested_ind (snd kx)) (pairs t)
                  end) l)
  end.
End ValueInduction.

Section Joined.
Variable A : Type.
Variable f : A -> string.
Variable good : A -> Prop.
Variable close : ascii.
Hypothesis close_not_digit : is_digit close = false.
Hypothesis close_not_comma : close <> ","%char.
Hypothesis f_head : forall a, good a -> exists c s, f a = String c s /\ c <> close.

Lemma join_comma_cons (x : string) (t : list string) (r : string) :
  join_comma (x :: t) ++ r
  = x ++ match t with [] => r | _ :: _ => String "," (join_comma t ++ r) end.
Proof.
  destruct t as [|y t]; simpl; [reflexivity|].
  rewrite append_assoc. reflexivity.
Qed.

Lemma joined_prefix (l1 : list A) :
  Forall (fun a => forall b x1 x2, good b -> delimited x1 -> delimited x2 ->
                   f a ++ x1 = f b ++ x2 -> a = b /\ x1 = x2) l1 ->
  forall l2 r1 r2,
  Forall good l1 -> Forall good l2 ->
  join_comma (map f l1) ++ String close r1 = join_comma (map f l2) ++ String close r2 ->
  l1 = l2 /\ r1 = r2.
Proof.
  induction 1 as [|a t1 Ha _ IH]; intros [|b t2] r1 r2 G1 G2 H.
  - simpl in H. injection H as H. now split.
  - exfalso. inversion G2 as [|? ? Gb _]; subst.
    destruct (f_head b Gb) as (c & s & E & Hc).
    simpl map in H. rewrite join_comma_cons, E in H. simpl in H.
    injection H as H _. congruence.
  - exfalso. inversion G1 as [|? ? Ga _]; subst.
    destruct (f_head a Ga) as (c & s & E & Hc).
    simpl map in H. rewrite join_comma_cons, E in H. simpl in H.
    injection H as H _. congruence.
  - inversion G1 as [|? ? Ga Gt1]; subst. inversion G2 as [|? ? Gb Gt2]; subst.
    simpl map in H. rewrite !join_comma_cons in H.
    apply Ha in H; [|exact Gb| |].
    + destruct H as [-> H].
      destruct t1 as [|a1 t1], t2 as [|b2 t2]; simpl map in H.
      * injection H as ->. now split.
      * injection H as H _. congruence.
      * injection H as H _. congruence.
      * injection H as H.
        destruct (IH (b2 :: t2) r1 r2 Gt1 Gt2 H) as [E ->]. rewrite E. now split.
    + destruct (map f t1); simpl; [exact close_not_digit | reflexivity].
    + destruct (map f t2); simpl; [exact close_not_digit | reflexivity].
Qed.
End Joined.

Lemma stringify_clean (v : value) :
  json_clean v = true -> JSON_stringify v = Some (stringify_element v).
Proof.
  unfold stringify_element. destruct v as [| |[|]| | | |]; simpl; intros H;
    first [discriminate | reflexivity].
Qed.

Lemma object_entries_clean (l : obj) :
  forallb (fun kx => json_clean (snd kx)) l = true ->
  flat_map (fun kx => match JSON_stringify (snd kx) with
                      | Some s => [quote (fst kx) ++ ":" ++ s]
                      | None => []
                      end) l
  = map object_entry l.
Proof.
  induction l as [|kx t IH]; intros H; [reflexivity|].
  simpl in H. apply andb_true_iff in H. destruct H as [H1 H2].
  cbn [flat_map map]. rewrite (IH H2), (stringify_clean _ H1). reflexivity.
Qed.

Lemma stringify_element_arr (l : list value) :
  stringify_element (VArr l) = String "[" (join_comma (map stringify_element l) ++ "]").
Proof. reflexivity. Qed.

Lemma stringify_element_obj (l : obj) :
  forallb (fun kx => json_clean (snd kx)) l = true ->
  stringify_element (VObj l) = String "{" (join_comma (map object_entry l) ++ "}").
Proof.
  intros H. unfold stringify_element. simpl. now rewrite object_entries_clean.
Qed.

Lemma stringify_element_head (v : value) :
  exists c s, stringify_element v = String c s /\ opens_value c.
Proof.
  unfold opens_value.
  destruct v as [| |[|]|n|s|l|l].
  1-4, 6-8: (eexists; eexists; split; [reflexivity | right; simpl; tauto]).
  destruct (num_head n) as (c & s & E & [H|H]); exists c, s;
    (split; [exact E|]); [now left | right; subst; simpl; tauto].
Qed.

Lemma opens_value_not (c : ascii) :
  opens_value c -> c <> "]"%char /\ c <> "}"%char /\ c <> ","%char /\ c <> ":"%char.
Proof.
  intros [H|H].
  - repeat split; intros ->; discriminate.
  - simpl in H. repeat split; intros ->;
      repeat (destruct H as [H|H]; [discriminate|]); exact H.
Qed.

Ltac clash :=
  match goal with
  | H : String ?a _ = String ?b _ |- _ =>
      injection H; intros; subst; try discriminate
  end.

Lemma num_text_clash (n : Z) (r x : string) (c : ascii) :
  is_digit c = false -> c <> "-"%char -> num_to_string n ++ r = String c x -> False.
Proof.
  intros Hd Hm H. destruct (num_head n) as (c' & s & E & Hc). rewrite E in H.
  simpl in H. injection H as -> _. destruct Hc; congruence.
Qed.

Ltac differ H C2 :=
  first
    [ discriminate C2
    | solve [simpl in H; clash]
    | solve [exfalso; simpl in H; symmetry in H; revert H;
             apply num_text_clash; [reflexivity | discriminate]]
    | solve [exfalso; simpl in H; revert H;
             apply num_text_clash; [reflexivity | discriminate]] ].

Lemma element_prefix (v1 : value) :
  json_clean v1 = true ->
  forall v2 r1 r2, json_clean v2 = true -> delimited r1 -> delimited r2 ->
  stringify_element v1 ++ r1 = stringify_element v2 ++ r2 -> v1 = v2 /\ r1 = r2.
Proof.
  induction v1 as [| |b1|n1|s1|l1 IH|l1 IH] using value_nested_ind;
    intros C1 v2 r1 r2 C2 D1 D2 H; [discriminate C1|..].
  - (* null *)
    destruct v2 as [| |[|]|n2|s2|l2|l2]; try differ H C2.
    simpl in H. clash. now split.
  - (* booleans *)
    destruct b1; destruct v2 as [| |[|]|n2|s2|l2|l2]; try differ H C2;
      simpl in H; clash; now split.
  - (* numbers *)
    destruct v2 as [| |[|]|n2|s2|l2|l2]; try differ H C2.
    destruct (num_prefix n1 n2 r1 r2 D1 D2 H) as [-> ->]. now split.
  - (* strings *)
    destruct v2 as [| |[|]|n2|s2|l2|l2]; try differ H C2.
    change (quote s1 ++ r1 = quote s2 ++ r2) in H.
    destruct (quote_prefix _ _ _ _ H) as [-> ->]. now split.
  - (* arrays *)
    destruct v2 as [| |[|]|n2|s2|l2|l2]; try differ H C2.
    rewrite !stringify_element_arr in H. simpl in H. injection H as H.
    rewrite !append_assoc in H. simpl in H.
    simpl in C1, C2.
    destruct (joined_prefix value stringify_element
                (fun v => json_clean v = true) "]"%char eq_refl) with
      (l1 := l1) (l2 := l2) (r1 := r1) (r2 := r2) as [-> ->].
    + discriminate.
    + intros a _. destruct (stringify_element_head a) as (c & s & E & Hc).
      exists c, s. split; [exact E | now apply opens_value_not].
    + rewrite Forall_forall in IH. rewrite forallb_forall in C1.
      apply Forall_forall. intros a Ha b x1 x2 Gb. apply IH; auto.
    + apply Forall_forall. now apply forallb_forall.
    + apply Forall_forall. now apply forallb_forall.
    + exact H.
    + now split.
  - (* objects *)
    destruct v2 as [| |[|]|n2|s2|l2|l2]; try differ H C2.
    simpl in C1, C2.
    rewrite (stringify_element_obj l1 C1), (stringify_element_obj l2 C2) in H.
    simpl in H. injection H as H. rewrite !append_assoc in H. simpl in H.
    destruct (joined_prefix (string * value) object_entry
                (fun kx => json_clean (snd kx) = true) "}"%char eq_refl) with
      (l1 := l1) (l2 := l2) (r1 := r1) (r2 := r2) as [-> ->].
    + discriminate.
    + intros a _. exists dquote. eexists. split; [reflexivity | discriminate].
    + rewrite Forall_forall in IH. rewrite forallb_forall in C1.
      apply Forall_forall. intros [k1 x1] Ha [k2 x2] y1 y2 Gb Dy1 Dy2 E.
      unfold object_entry in E. simpl fst in E. simpl snd in E.
      rewrite !append_assoc in E.
      destruct (quote_prefix _ _ _ _ E) as [-> E']. simpl in E'.
      injection E' as E'.
      destruct (IH _ Ha (C1 _ Ha) x2 y1 y2 Gb Dy1 Dy2 E') as [E1 ->].
      simpl in E1. subst. now split.
    + apply Forall_forall. now apply forallb_forall.
    + apply Forall_forall. now apply forallb_forall.
    + exact H.
    + now split.
Qed.

Theorem JSON_stringify_injective (a b : value) :
  json_clean a = true -> json_clean b = true ->
  JSON_stringify a = JSON_stringify b -> a = b.
Proof.
  intros Ca Cb H. rewrite (stringify_clean a Ca), (stringify_clean b Cb) in H.
  injection H as H.
  destruct (element_prefix a Ca b "" "" Cb Logic.I Logic.I) as [E _]; [|exact E].
  now rewrite H.
Qed.

Lemma opt_string_neq_true (a b : option string) :
  opt_string_neq a b = true <-> a <> b.
Proof.
  destruct a as [x|], b as [y|]; simpl.
  - rewrite negb_true_iff, String.eqb_neq. split; congruence.
  - split; [discriminate | reflexivity].
  - split; [discriminate | reflexivity].
  - split; [discriminate | congruence].
Qed.

Lemma portable_clean (v : value) : portable v = true -> json_clean v = true.
Proof.
  induction v as [| | | | |l IH|l IH] using value_nested_ind; simpl;
    try (intros; first [discriminate | reflexivity]).
  - intros Hp. rewrite forallb_forall in *. rewrite Forall_forall in IH.
    intros x Hx. apply IH; [exact Hx | now apply Hp].
  - intros Hp. apply andb_true_iff in Hp. destruct Hp as [_ Hp].
    rewrite forallb_forall in *. rewrite Forall_forall in IH.
    intros kx Hx. apply IH; [exact Hx|].
    specialize (Hp kx Hx). apply andb_true_iff in Hp. tauto.
Qed.

(** C4, as amended.  [needSetTags] is true exactly when a previous mapping
    is persisted (truthy) and its [JSON.stringify] text differs from the
    current one's; a mapping compared with itself gives false.  For plain
    data (no [undefined] inside, integers below 2^53 in magnitude, objects
    with distinct keys none of which is an array index), that is exactly
    when the two differ as ordered sequences of key-value pairs: the same
    pairs in another key order give true. *)
Theorem C4_needSetTags_compares_serialisations (prev cur : value) :
  (needSetTags prev cur = true
     <-> truthy prev = true /\ JSON_stringify prev <> JSON_stringify cur)
  /\ needSetTags prev prev = false
  /\ (portable prev = true -> portable cur = true ->
      (needSetTags prev cur = true <-> truthy prev = true /\ prev <> cur)).
Proof.
  assert (H1 : needSetTags prev cur = true
               <-> truthy prev = true /\ JSON_stringify prev <> JSON_stringify cur).
  { unfold needSetTags. now rewrite andb_true_iff, opt_string_neq_true. }
  split; [exact H1|]. split.
  - unfold needSetTags. destruct (JSON_stringify prev) as [x|]; simpl.
    + rewrite String.eqb_refl. apply andb_false_r.
    + apply andb_false_r.
  - intros Cp Cc. apply portable_clean in Cp. apply portable_clean in Cc.
    rewrite H1. split; intros [Ht Hn]; (split; [exact Ht|]).
    + intros E. apply Hn. now rewrite E.
    + intros E. apply Hn. now apply JSON_stringify_injective.
Qed.

Lemma C4_needSetTags_witness :
  portable tags_A_then_B = true
  /\ portable tags_B_then_A = true
  /\ (needSetTags tags_A_then_B tags_B_then_A = true
      <-> truthy tags_A_then_B = true /\ tags_A_then_B <> tags_B_then_A).
Proof.
  split; [reflexivity|]. split; [reflexivity|].
  apply (proj2 (proj2 (C4_needSetTags_compares_serialisations tags_A_then_B tags_B_then_A)));
    reflexivity.
Defined.

(** C4 as stated fails: the two mappings hold the same pairs and are deeply
    equal, yet [needSetTags] is true; a startup whose configuration lists the
    same tags in the other order raises the flag. *)
Lemma C4_counterexample :
  deep_equal tags_A_then_B tags_B_then_A = true
  /\ needSetTags tags_A_then_B tags_B_then_A = true
  /\ _isNeedSetTags
       (snd (init K0 P_worker W_granted (VObj sample_config_reordered)
               (reload P_worker after_first_run))) = true.
Proof.
  split; [vm_compute; reflexivity|]. split; vm_compute; reflexivity.
Qed.


Local Open Scope list_scope.

(** ** Invariants along the methods: rules *)

Section KeepsRules.

Variable Inv : State -> Prop.
Variable allowed : action -> Prop.
Hypothesis F : frame Inv.

Lemma keeps_ret {A} (a : A) : keeps Inv allowed (ret a).
Proof. intros s H; split; [exact H | exists []; split; [now rewrite app_nil_r | constructor]]. Qed.

Lemma keeps_throw {A} (e : error) : keeps Inv allowed (@throw A e).
Proof. intros s H; split; [exact H | exists []; split; [now rewrite app_nil_r | constructor]]. Qed.

Lemma keeps_gets {A} (f : State -> A) : keeps Inv allowed (gets f).
Proof. intros s H; split; [exact H | exists []; split; [now rewrite app_nil_r | constructor]]. Qed.

Lemma keeps_bind {A B} (m : M A) (k : A -> M B) :
  keeps Inv allowed m -> (forall a, keeps Inv allowed (k a)) -> keeps Inv allowed (bind m k).
Proof.
  intros Hm Hk s H. unfold bind.
  destruct (Hm s H) as [H1 [l1 [E1 A1]]].
  destruct (m s) as [[a|e] s1]; simpl in *.
  - destruct (Hk a s1 H1) as [H2 [l2 [E2 A2]]]. split; [exact H2|].
    exists (l1 ++ l2). rewrite E2, E1, app_assoc. split; [reflexivity | now apply Forall_app].
  - split; [exact H1 | now exists l1].
Qed.

Lemma keeps_try_catch {A} (m : M A) (h : error -> M A) :
  keeps Inv allowed m -> (forall e, keeps Inv allowed (h e)) -> keeps Inv allowed (try_catch m h).
Proof.
  intros Hm Hh s H. unfold try_catch.
  destruct (Hm s H) as [H1 [l1 [E1 A1]]].
  destruct (m s) as [[a|e] s1]; simpl in *.
  - split; [exact H1 | now exists l1].
  - destruct (Hh e s1 H1) as [H2 [l2 [E2 A2]]]. split; [exact H2|].
    exists (l1 ++ l2). rewrite E2, E1, app_assoc. split; [reflexivity | now apply Forall_app].
Qed.

Lemma keeps_modify (f : State -> State) :
  (forall s, Inv s -> Inv (f s)) -> (forall s, trace (f s) = trace s) ->
  keeps Inv allowed (modify f).
Proof.
  intros HI Ht s H. simpl. split; [now apply HI|].
  exists []. rewrite Ht, app_nil_r. split; [reflexivity | constructor].
Qed.

Lemma keeps_log (a : action) : allowed a -> keeps Inv allowed (log_action a).
Proof.
  intros Ha s H. simpl. split; [now apply (frame_trace Inv F)|].
  exists [a]. split; [reflexivity | now repeat constructor].
Qed.

Lemma keeps_when (b : bool) (m : M unit) :
  keeps Inv allowed m -> keeps Inv allowed (when b m).
Proof. intros Hm. destruct b; [exact Hm | apply keeps_ret]. Qed.

Lemma keeps_keyValue_get (k : kv_key) : keeps Inv allowed (keyValue_get k).
Proof. apply keeps_gets. Qed.

Lemma keeps_keyValue_set (k : kv_key) (v : value) :
  (forall s, Inv s -> Inv (set_keyValue (kv_put k v (keyValue s)) s)) ->
  allowed (AKvWrite k v) ->
  keeps Inv allowed (keyValue_set k v).
Proof.
  intros HI Ha. unfold keyValue_set.
  apply keeps_bind; [apply keeps_modify; [exact HI | reflexivity]|intros _].
  apply keeps_bind; [now apply keeps_log | intros _; apply keeps_ret].
Qed.

Lemma keeps_start (W : World) (c : call) :
  allowed (ACall c) -> keeps Inv allowed (start W c).
Proof.
  intros Ha. unfold start.
  apply keeps_bind; [apply keeps_gets|intros t].
  apply keeps_bind; [apply keeps_modify; [|reflexivity]|intros _].
  - intros s H. now apply (frame_status Inv F).
  - apply keeps_bind; [now apply keeps_log | intros _; apply keeps_ret].
Qed.

Lemma keeps_await (W : World) (p : promise) :
  (forall c b, allowed (ASettled c b)) -> keeps Inv allowed (await W p).
Proof.
  intros Ha. destruct p as [t c|k]; simpl; [|apply keeps_ret].
  destruct (answer W t c).
  - apply keeps_bind; [now apply keeps_log | intros _; apply keeps_ret].
  - apply keeps_bind; [now apply keeps_log | intros _; apply keeps_throw].
Qed.

Lemma keeps_driver_call (W : World) (c : call) :
  allowed (ACall c) -> (forall c b, allowed (ASettled c b)) ->
  keeps Inv allowed (driver_call W c).
Proof.
  intros Hc Hs. unfold driver_call.
  apply keeps_bind; [apply keeps_gets|intros [d|]]; [|apply keeps_throw].
  apply keeps_bind; [now apply keeps_start | intros p; now apply keeps_await].
Qed.

Lemma keeps_api_start (W : World) (c : call) :
  allowed (ACall c) -> keeps Inv allowed (api_start W c).
Proof.
  intros Hc. unfold api_start.
  apply keeps_bind; [apply keeps_gets|intros [d|]]; [now apply keeps_start|apply keeps_throw].
Qed.

Lemma keeps_api_call (W : World) (c : call) :
  allowed (ACall c) -> (forall c b, allowed (ASettled c b)) ->
  keeps Inv allowed (api_call W c).
Proof.
  intros Hc Hs. unfold api_call.
  apply keeps_bind; [now apply keeps_api_start | intros p; now apply keeps_await].
Qed.

Lemma keeps_Promise_all (W : World) (items : list all_item) :
  (forall c b, allowed (ASettled c b)) -> keeps Inv allowed (Promise_all W items).
Proof.
  intros Hs. induction items as [|[p|ps] rest IH]; simpl.
  - apply keeps_ret.
  - apply keeps_bind; [now apply keeps_await | intros _; exact IH].
  - exact IH.
Qed.

Lemma keeps_get_prop (v : value) (k : string) : keeps Inv allowed (get_prop v k).
Proof. destruct v; simpl; first [apply keeps_throw | apply keeps_ret]. Qed.

End KeepsRules.

Lemma keeps_bind_gets {A B} (Inv : State -> Prop) (allowed : action -> Prop)
    (f : State -> A) (k : A -> M B) :
  (forall s0, Inv s0 -> keeps Inv allowed (k (f s0))) ->
  keeps Inv allowed (bind (gets f) k).
Proof. intros H s Hs. unfold bind, gets. exact (H s Hs s Hs). Qed.

Lemma kv_lookup_put (k k' : kv_key) (v : value) (kv : list (kv_key * value)) :
  kv_lookup k' (kv_put k v kv) = if kv_key_eqb k' k then v else kv_lookup k' kv.
Proof.
  induction kv as [|[k0 v0] t IH]; simpl.
  - destruct (kv_key_eqb k' k); reflexivity.
  - destruct (kv_key_eqb k k0) eqn:E; simpl.
    + destruct k, k0; try discriminate E; destruct k'; reflexivity.
    + rewrite IH. destruct (kv_key_eqb k' k0) eqn:E0; [|reflexivity].
      destruct (kv_key_eqb k' k) eqn:E1; [|reflexivity].
      destruct k, k0, k'; discriminate.
Qed.

(** Structural steps shared by every invariant proof; [side] closes the
    conditions on the invariant and on the allowed actions. *)
Ltac keeps_rule F side :=
  lazymatch goal with
  | |- keeps _ _ (ret _) => apply keeps_ret
  | |- keeps _ _ (throw _) => apply keeps_throw
  | |- keeps _ _ (gets _) => apply keeps_gets
  | |- keeps _ _ (keyValue_get _) => apply keeps_keyValue_get
  | |- keeps _ _ (get_prop _ _) => apply keeps_get_prop
  | |- keeps _ _ (when false _) => apply keeps_ret
  | |- keeps _ _ (when _ _) => apply keeps_when
  | |- keeps _ _ (try_catch _ _) => apply keeps_try_catch; [|intro; cbv beta]
  | |- keeps _ _ (log_action _) => apply (keeps_log _ _ F); solve [side]
  | |- keeps _ _ (Logger_write _ _) => apply (keeps_log _ _ F); solve [side]
  | |- keeps _ _ (emit _ _) => apply (keeps_log _ _ F); solve [side]
  | |- keeps _ _ (modify _) => apply keeps_modify; [solve [side] | reflexivity]
  | |- keeps _ _ (keyValue_set _ _) =>
      apply (keeps_keyValue_set _ _ F); [solve [side] | solve [side]]
  | |- keeps _ _ (keyValue_extend _ _) =>
      unfold keyValue_extend
  | |- keeps _ _ (driver_call _ _) =>
      apply (keeps_driver_call _ _ F); [solve [side] | solve [side]]
  | |- keeps _ _ (api_call _ _) =>
      apply (keeps_api_call _ _ F); [solve [side] | solve [side]]
  | |- keeps _ _ (api_start _ _) => apply (keeps_api_start _ _ F); solve [side]
  | |- keeps _ _ (await _ _) => apply (keeps_await _ _ F); solve [side]
  | |- keeps _ _ (Promise_all _ _) =>
      first [ apply (keeps_Promise_all _ _ F); solve [side] | apply keeps_ret ]
  | |- keeps _ _ (bind _ _) => apply keeps_bind; [|intro; cbv beta]
  | |- keeps _ _ (match ?x with _ => _ end) => destruct x
  | |- keeps _ _ (let _ := _ in _) => cbv zeta
  end.

Ltac keeps_structure F side :=
  repeat first
    [ assumption
    | match goal with
      | H : forall _, keeps _ _ _ |- keeps _ _ _ => simple apply H
      end
    | keeps_rule F side ].

(** ** The tombstone (C6) *)

Lemma frame_tombstone v r : frame (tombstone_kept v r).
Proof. split; intros s x H; exact H. Qed.

Ltac tombstone_side :=
  first [ reflexivity
        | intros; reflexivity
        | intros ? [? ?]; split; simpl; [rewrite ?kv_lookup_put; simpl|]; assumption ].

Section Tombstone.
Variables (K : Consts) (P : Platform) (W : World) (v : value) (r : bool).
Let Inv := tombstone_kept v r.
Let F := frame_tombstone v r.

Lemma tombstone_initApi : keeps Inv not_emit (initApi W).
Proof.
  unfold initApi. keeps_structure F tombstone_side.
Qed.

Lemma tombstone_callApplicationOpen force : keeps Inv not_emit (callApplicationOpen K W force).
Proof. unfold callApplicationOpen. keeps_structure F tombstone_side. Qed.

Lemma tombstone_unsubscribe_silent : keeps Inv not_emit (unsubscribe W false).
Proof. unfold unsubscribe. keeps_structure F tombstone_side. Qed.

Lemma tombstone_startup_prologue : keeps Inv not_emit (startup_prologue K P W).
Proof.
  pose proof tombstone_initApi. pose proof (tombstone_callApplicationOpen VUndef).
  pose proof tombstone_unsubscribe_silent.
  unfold startup_prologue. keeps_structure F tombstone_side.
Qed.

Lemma tombstone_defaultProcess :
  truthy v = true -> keeps Inv not_emit (defaultProcess K P W).
Proof.
  intros Hv. pose proof tombstone_startup_prologue.
  unfold defaultProcess.
  apply keeps_bind; [apply keeps_gets|intros auto].
  apply keeps_bind; [assumption|intros _].
  apply keeps_bind_gets. intros s0 [H0 _]. rewrite H0, Hv.
  keeps_structure F tombstone_side.
Qed.

Lemma tombstone_init cfg :
  truthy v = true -> keeps Inv not_emit (init K P W cfg).
Proof.
  intros Hv. pose proof (tombstone_defaultProcess Hv).
  unfold init, init_body, init_defaultActions, init_driver, getParams. keeps_structure F tombstone_side.
Qed.

End Tombstone.

Lemma filter_emit_app (l l' : list action) :
  Forall not_emit l' -> filter is_emit (l ++ l') = filter is_emit l.
Proof.
  intros H. rewrite filter_app.
  replace (filter is_emit l') with (@nil action); [now rewrite app_nil_r|].
  induction H as [|a t Ha _ IH]; simpl; [reflexivity|]. now rewrite Ha.
Qed.

(** C6.  With the device-data-removed tombstone set, [defaultProcess] is its
    prologue (lines 643-655) followed by one log line: the permission branch
    and the epilogue do not run, so nothing is called after the check.  Over
    the whole of [defaultProcess], and over the whole of [init], no event is
    emitted on the bus and the ready flag keeps its value. *)
Theorem C6_tombstone_stops_startup (K : Consts) (P : Platform) (W : World) (s : State) :
  truthy (kv_lookup KEY_DEVICE_DATA_REMOVED (keyValue s)) = true ->
  defaultProcess K P W s
    = (let (r, s1) := startup_prologue K P W s in
       match r with
       | Ok _ => (Ok tt, set_trace (trace s1 ++ [ALog "error" "Device data has been removed"]) s1)
       | Throw e => (Throw e, s1)
       end)
  /\ ready (snd (defaultProcess K P W s)) = ready s
  /\ filter is_emit (trace (snd (defaultProcess K P W s))) = filter is_emit (trace s)
  /\ forall cfg,
       ready (snd (init K P W cfg s)) = ready s
       /\ filter is_emit (trace (snd (init K P W cfg s))) = filter is_emit (trace s).
Proof.
  intros Hv.
  set (v := kv_lookup KEY_DEVICE_DATA_REMOVED (keyValue s)) in *.
  assert (Hs : tombstone_kept v (ready s) s) by (split; reflexivity).
  split; [|split; [|split]].
  - destruct (tombstone_startup_prologue K P W v (ready s) s Hs) as [[H1 _] _].
    unfold defaultProcess, bind, gets, keyValue_get. simpl.
    destruct (startup_prologue K P W s) as [[[]|e] s1]; simpl in *; [|reflexivity].
    rewrite H1, Hv. reflexivity.
  - destruct (tombstone_defaultProcess K P W v (ready s) Hv s Hs) as [[_ H] _]. exact H.
  - destruct (tombstone_defaultProcess K P W v (ready s) Hv s Hs) as [_ [l [E A]]].
    rewrite E. now apply filter_emit_app.
  - intros cfg.
    destruct (tombstone_init K P W v (ready s) cfg Hv s Hs) as [[_ H] [l [E A]]].
    split; [exact H|]. rewrite E. now apply filter_emit_app.
Qed.

Lemma C6_tombstone_witness :
  truthy (kv_lookup KEY_DEVICE_DATA_REMOVED (keyValue tombstoned)) = true
  /\ ready (snd (init K0 P_worker W_granted (VObj sample_config) tombstoned)) = false
  /\ filter is_emit (trace (snd (init K0 P_worker W_granted (VObj sample_config) tombstoned)))
     = [].
Proof.
  assert (H : truthy (kv_lookup KEY_DEVICE_DATA_REMOVED (keyValue tombstoned)) = true)
    by reflexivity.
  destruct (C6_tombstone_stops_startup K0 P_worker W_granted tombstoned H)
    as (_ & _ & _ & Hinit).
  destruct (Hinit (VObj sample_config)) as [H1 H2].
  split; [exact H|]. split; [exact H1 | exact H2].
Defined.


(** ** The aggregation of the install sequence (C1) *)

Lemma frame_anything : frame anything.
Proof. split; intros; exact Logic.I. Qed.

Ltac anything_side := first [ reflexivity | intros; reflexivity | intros; exact Logic.I ].

Lemma installDevice_settles_nothing (P : Platform) (W : World) (force : value) :
  keeps anything not_settled (installDevice P W force).
Proof.
  unfold installDevice, isCommunicationEnabled.
  keeps_structure frame_anything anything_side.
Qed.

Lemma no_rejection_bind {A B} (m : M A) (k : A -> M B) :
  observes_no_rejection m -> (forall a, observes_no_rejection (k a)) ->
  observes_no_rejection (bind m k).
Proof.
  intros Hm Hk s e. unfold bind. specialize (Hm s).
  destruct (m s) as [[a|e'] s1]; simpl in *.
  - apply Hk.
  - intros H; injection H as <-. now apply Hm.
Qed.

Lemma no_rejection_total {A} (m : M A) :
  (forall s, exists a, fst (m s) = Ok a) -> observes_no_rejection m.
Proof. intros H s e E. destruct (H s) as [a Ha]. congruence. Qed.

Lemma no_rejection_api_start (W : World) (c : call) :
  observes_no_rejection (api_start W c).
Proof.
  intros s e. unfold api_start, bind, gets, start, modify, log_action, ret, throw. simpl.
  destruct (api s); simpl; intros H; [discriminate | now injection H as <-].
Qed.

Lemma no_rejection_get_prop (v : value) (k : string) :
  observes_no_rejection (get_prop v k).
Proof.
  intros s e. destruct v; simpl; intros H; try discriminate; now injection H as <-.
Qed.

Ltac no_rejection :=
  repeat lazymatch goal with
  | |- observes_no_rejection (bind _ _) => apply no_rejection_bind; [|intro; cbv beta]
  | |- observes_no_rejection (api_start _ _) => apply no_rejection_api_start
  | |- observes_no_rejection (get_prop _ _) => apply no_rejection_get_prop
  | |- observes_no_rejection (match ?x with _ => _ end) => destruct x
  | |- observes_no_rejection (when ?b _) => unfold when
  | |- observes_no_rejection (let _ := _ in _) => cbv zeta
  | |- observes_no_rejection (throw (Error _)) =>
      intros ? ? H; injection H as <-; reflexivity
  | |- observes_no_rejection _ =>
      apply no_rejection_total; intros ?; eexists; reflexivity
  end.

Lemma installDevice_no_rejection (P : Platform) (W : World) (force : value) :
  observes_no_rejection (installDevice P W force).
Proof. unfold installDevice. no_rejection. Qed.

(** The sibling aggregation of [removeAllDeviceData] (lines 590-593) is handed
    the promises themselves: a rejected [setTags] is observed, and the
    tombstone is not written. *)
Lemma removeAllDeviceData_observes_rejection :
  fst (removeAllDeviceData K0 W_setTags_rejected after_first_run)
    = Throw (Rejection (ApiSetTags (VObj [("A", VNull); ("B", VNull)])))
  /\ kv_lookup KEY_DEVICE_DATA_REMOVED
       (keyValue (snd (removeAllDeviceData K0 W_setTags_rejected after_first_run)))
     = VUndef.
Proof. split; vm_compute; reflexivity. Qed.

(** C1 (the code departs from the claim).  The claim wants every selected
    install call awaited to settlement before the register event, and no
    rejection lost.  [installDevice] never waits for a call it started and
    never observes a rejection; at the sample state, with the backend
    rejecting [registerDevice], [setTags] and [registerUser], it starts the
    three calls, emits the register event and returns normally, without one
    of them having settled. *)
Theorem C1_installDevice_awaits_no_call :
  (forall P W force s,
      (exists l, trace (snd (installDevice P W force s)) = trace s ++ l
                 /\ Forall not_settled l)
      /\ (forall e, fst (installDevice P W force s) = Throw e -> is_rejection e = false))
  /\ answer W_install_rejected (length (trace after_first_run)) ApiRegisterDevice = None
  /\ fst (installDevice P_worker W_install_rejected (VBool true) after_first_run) = Ok tt
  /\ trace (snd (installDevice P_worker W_install_rejected (VBool true) after_first_run))
     = trace after_first_run ++
       [ACall ApiRegisterDevice;
        ACall (ApiSetTags (VObj [("Language", VStr "en"); ("A", VStr "x");
                                 ("B", VStr "y"); ("Device Model", VStr "Chrome 70")]));
        ACall ApiRegisterUser;
        AEmit EVENT_ON_REGISTER VUndef].
Proof.
  split; [|split; [|split]].
  - intros P W force s. split.
    + apply (installDevice_settles_nothing P W force s). exact Logic.I.
    + apply installDevice_no_rejection.
  - reflexivity.
  - vm_compute. reflexivity.
  - vm_compute. reflexivity.
Qed.

(** ** Objects, and the data purge (C9) *)

Lemma obj_get_set (k k' : string) (v : value) (o : obj) :
  obj_get k (obj_set k' v o) = if (k =? k')%string then v else obj_get k o.
Proof.
  induction o as [|[k0 v0] t IH]; simpl.
  - destruct (k =? k')%string; reflexivity.
  - destruct (k' =? k0)%string eqn:E; simpl.
    + apply String.eqb_eq in E. subst k0. destruct (k =? k')%string; reflexivity.
    + rewrite IH. destruct (k =? k0)%string eqn:E0; [|reflexivity].
      apply String.eqb_eq in E0. subst k0.
      rewrite String.eqb_sym in E. now rewrite E.
Qed.

Lemma obj_keys_set (k : string) (v : value) (o : obj) :
  obj_keys (obj_set k v o) = if existsb (String.eqb k) (obj_keys o) then obj_keys o else obj_keys o ++ [k].
Proof.
  induction o as [|[k0 v0] t IH]; simpl; [reflexivity|].
  destruct (k =? k0)%string; simpl; [reflexivity|].
  unfold obj_keys in *. rewrite IH. now destruct (existsb _ _).
Qed.

Lemma existsb_eqb_In (k : string) (l : list string) :
  existsb (String.eqb k) l = true <-> In k l.
Proof.
  rewrite existsb_exists. split.
  - intros [x [Hx E]]. apply String.eqb_eq in E. now subst.
  - intros H. exists k. split; [exact H | apply String.eqb_refl].
Qed.

Lemma obj_set_fresh (k : string) (v : value) (o : obj) :
  ~ In k (obj_keys o) -> obj_set k v o = o ++ [(k, v)].
Proof.
  induction o as [|[k0 v0] t IH]; simpl; intros H; [reflexivity|].
  destruct (k =? k0)%string eqn:E.
  - apply String.eqb_eq in E. subst. tauto.
  - rewrite IH; [reflexivity | tauto].
Qed.

Lemma clear_fold_snoc (ks : list string) (k : string) (acc : obj * bool) :
  fold_left clear_step (ks ++ [k]) acc = clear_step (fold_left clear_step ks acc) k.
Proof. now rewrite fold_left_app. Qed.

(** The accumulator keeps [Object.prototype] until [__proto__] is assigned. *)
Lemma clear_fold_flag (ks : list string) :
  snd (fold_left clear_step ks ([], true))
  = negb (existsb (String.eqb "__proto__") ks).
Proof.
  induction ks as [|k t IH] using rev_ind; [reflexivity|].
  rewrite clear_fold_snoc, existsb_app. cbn [existsb]. rewrite orb_false_r.
  set (acc := fold_left clear_step t ([], true)) in *.
  unfold clear_step. rewrite IH. rewrite (String.eqb_sym "__proto__" k).
  destruct (existsb _ t), (k =? "__proto__")%string; simpl; try reflexivity;
    now rewrite IH.
Qed.

Lemma clearTags_of_snoc (ks : list string) (k : string) :
  clearTags_of (ks ++ [k])
  = if negb (existsb (String.eqb "__proto__") ks) && (k =? "__proto__")%string
    then clearTags_of ks
    else obj_set k VNull (clearTags_of ks).
Proof.
  unfold clearTags_of. rewrite clear_fold_snoc.
  pose proof (clear_fold_flag ks) as Hf.
  set (acc := fold_left clear_step ks ([], true)) in *.
  unfold clear_step. rewrite Hf. now destruct (_ && _).
Qed.

Lemma clearTags_of_keys (ks : list string) (k : string) :
  k <> "__proto__" -> (In k (obj_keys (clearTags_of ks)) <-> In k ks).
Proof.
  intros Hk. induction ks as [|k0 t IH] using rev_ind; [cbv; tauto|].
  rewrite clearTags_of_snoc, in_app_iff. cbn [In].
  destruct (_ && _) eqn:Ec.
  - apply andb_true_iff in Ec. destruct Ec as [_ Ec]. apply String.eqb_eq in Ec.
    subst k0. rewrite IH. split; [tauto|]. intros [H|[H|[]]]; [exact H | congruence].
  - clear Ec. rewrite obj_keys_set. destruct (existsb (String.eqb k0) _) eqn:E.
    + apply existsb_eqb_In in E. split; [intros H; apply IH in H; tauto|].
      intros [H|[H|[]]]; [now apply IH | now subst].
    + rewrite in_app_iff, IH. cbn [In]. tauto.
Qed.

Lemma obj_set_null_values (k0 : string) (o : obj) :
  (forall k v, In (k, v) o -> v = VNull) ->
  forall k v, In (k, v) (obj_set k0 VNull o) -> v = VNull.
Proof.
  induction o as [|[k1 v1] o IHo]; simpl; intros IH k v.
  - intros [H|[]]. now injection H.
  - destruct (k0 =? k1)%string; simpl.
    + intros [H|H]; [now injection H | apply (IH k v); now right].
    + intros [H|H]; [apply (IH k v); now left |].
      exact (IHo (fun k' v' H' => IH k' v' (or_intror H')) k v H).
Qed.

Lemma clearTags_of_values (ks : list string) (k : string) (v : value) :
  In (k, v) (clearTags_of ks) -> v = VNull.
Proof.
  revert k v. induction ks as [|k0 t IH] using rev_ind; intros k v; [cbv; tauto|].
  rewrite clearTags_of_snoc. destruct (_ && _); [apply IH|].
  now apply obj_set_null_values.
Qed.

Lemma clearTags_of_nodup (ks : list string) :
  NoDup ks ->
  clearTags_of ks
  = map (fun k => (k, VNull)) (filter (fun k => negb (k =? "__proto__")%string) ks).
Proof.
  induction ks as [|k0 t IH] using rev_ind; intros H; [reflexivity|].
  rewrite clearTags_of_snoc, filter_app, map_app. cbn [filter].
  apply NoDup_remove in H. rewrite app_nil_r in H. destruct H as [H1 H2].
  destruct (k0 =? "__proto__")%string eqn:E; cbn [negb map].
  - apply String.eqb_eq in E. subst k0.
    destruct (existsb _ t) eqn:Ex; [apply existsb_eqb_In in Ex; contradiction|].
    cbn [negb andb]. now rewrite app_nil_r, IH.
  - rewrite andb_false_r. rewrite IH by exact H1.
    apply obj_set_fresh. unfold obj_keys. rewrite map_map. cbn [fst]. rewrite map_id.
    intros Hc. apply filter_In in Hc. tauto.
Qed.

(** C9, as amended.  On an instance with its API facade, [getTags] having
    answered with the tag mapping [tags], [removeAllDeviceData] posts the
    GDPR-delete event.  When the backend accepts it, [setTags] with the
    clearing payload and [unregisterDevice] are both started and then waited
    for in that order; when it accepts both, 1 is written under the
    device-data-removed key and the method returns.  When the backend
    rejects the event, the two calls are not made; when it rejects any of
    the three, the method throws that rejection and the store is as it was.
    The payload maps tag names to [null]: every name of [tags] other than
    [__proto__], whose assignment on the empty accumulator changes its
    prototype and creates no key. *)
Theorem C9_removeAllDeviceData_clears_and_marks
    (K : Consts) (W : World) (s : State) (reply tags : obj) :
  let t := length (trace s) in
  let device_type :=
    obj_get "deviceType"
      (obj_spread (obj_spread [] (spread_of (kv_lookup KEY_API_PARAMS (keyValue s))))
                  (spread_of (kv_lookup KEY_INIT_PARAMS (keyValue s)))) in
  let clearTags := clearTags_of (obj_keys tags) in
  let post := ApiPostEvent (EVENT_GDPR_DELETE K)
                (VObj [("status", VBool true); ("device_type", device_type)]) in
  let clear := ApiSetTags (VObj clearTags) in
  let r := fst (removeAllDeviceData K W s) in
  let s' := snd (removeAllDeviceData K W s) in
  api s <> None ->
  answer W t ApiGetTags = Some (VObj reply) ->
  obj_get "result" reply = VObj tags ->
  (forall k v, In (k, v) clearTags -> v = VNull)
  /\ (forall k, k <> "__proto__" -> (In k (obj_keys clearTags) <-> In k (obj_keys tags)))
  /\ (NoDup (obj_keys tags) ->
      clearTags = map (fun k => (k, VNull))
                    (filter (fun k => negb (k =? "__proto__")) (obj_keys tags)))
  /\ match answer W (t + 2) post with
     | None =>
         r = Throw (Rejection post)
         /\ trace s' = trace s ++
              [ACall ApiGetTags; ASettled ApiGetTags true; ACall post; ASettled post false]
         /\ keyValue s' = keyValue s
     | Some _ =>
         match answer W (t + 4) clear, answer W (t + 5) ApiUnregisterDevice with
         | Some _, Some _ =>
             r = Ok VUndef
             /\ trace s' = trace s ++
                  [ACall ApiGetTags; ASettled ApiGetTags true; ACall post; ASettled post true;
                   ACall clear; ACall ApiUnregisterDevice;
                   ASettled clear true; ASettled ApiUnregisterDevice true;
                   AKvWrite KEY_DEVICE_DATA_REMOVED (VNum 1)]
             /\ keyValue s' = kv_put KEY_DEVICE_DATA_REMOVED (VNum 1) (keyValue s)
             /\ truthy (kv_lookup KEY_DEVICE_DATA_REMOVED (keyValue s')) = true
         | None, _ =>
             r = Throw (Rejection clear)
             /\ trace s' = trace s ++
                  [ACall ApiGetTags; ASettled ApiGetTags true; ACall post; ASettled post true;
                   ACall clear; ACall ApiUnregisterDevice; ASettled clear false]
             /\ keyValue s' = keyValue s
         | Some _, None =>
             r = Throw (Rejection ApiUnregisterDevice)
             /\ trace s' = trace s ++
                  [ACall ApiGetTags; ASettled ApiGetTags true; ACall post; ASettled post true;
                   ACall clear; ACall ApiUnregisterDevice;
                   ASettled clear true; ASettled ApiUnregisterDevice false]
             /\ keyValue s' = keyValue s
         end
     end.
Proof.
  intros t device_type clearTags post clear r s' Ha Hget Hres.
  split; [apply clearTags_of_values|].
  split; [intros k Hk; now apply clearTags_of_keys|].
  split; [apply clearTags_of_nodup|].
  subst r s'.
  remember (removeAllDeviceData K W s) as R eqn:HR.
  unfold removeAllDeviceData, getParams, api_call, api_start, start, await,
    Promise_all, await, keyValue_set, keyValue_get, Object_keys, get_prop,
    bind, gets, modify, log_action, ret, throw in HR.
  destruct (api s) as [a|] eqn:Ea; [|congruence]. simpl in HR. rewrite Ea in HR.
  simpl in HR. fold t in HR. rewrite Hget in HR. simpl in HR. rewrite Hres in HR.
  simpl in HR. rewrite Ea in HR. simpl in HR.
  fold device_type in HR. fold clearTags in HR. fold post in HR.
  rewrite !length_app in HR. cbn [Datatypes.length] in HR. fold t in HR.
  rewrite <- !Nat.add_assoc in HR. cbn [Nat.add] in HR.
  destruct (answer W (t + 2) post) as [v1|]; simpl in HR.
  - rewrite Ea in HR. simpl in HR. rewrite Ea in HR. simpl in HR.
    fold clearTags in HR. fold clear in HR.
    rewrite !length_app in HR. cbn [Datatypes.length] in HR. fold t in HR.
    rewrite <- !Nat.add_assoc in HR. cbn [Nat.add] in HR.
    destruct (answer W (t + 4) clear) as [v2|]; simpl in HR.
    + destruct (answer W (t + 5) ApiUnregisterDevice) as [v3|]; simpl in HR;
        subst R; simpl; repeat rewrite <- app_assoc; simpl;
        repeat split; rewrite ?kv_lookup_put; reflexivity.
    + subst R. simpl. repeat rewrite <- app_assoc. simpl.
      destruct (answer W (t + 5) ApiUnregisterDevice); repeat split; reflexivity.
  - subst R. simpl. repeat rewrite <- app_assoc. simpl. repeat split; reflexivity.
Qed.

Lemma C9_removeAllDeviceData_witness :
  api after_first_run <> None
  /\ fst (removeAllDeviceData K0 W_granted after_first_run) = Ok VUndef
  /\ clearTags_of (obj_keys [("A", VStr "x"); ("B", VStr "y")])
     = [("A", VNull); ("B", VNull)]
  /\ kv_lookup KEY_DEVICE_DATA_REMOVED
       (keyValue (snd (removeAllDeviceData K0 W_granted after_first_run)))
     = VNum 1.
Proof.
  assert (Ha : api after_first_run <> None) by (vm_compute; discriminate).
  destruct (C9_removeAllDeviceData_clears_and_marks K0 W_granted after_first_run
              [("result", VObj [("A", VStr "x"); ("B", VStr "y")])]
              [("A", VStr "x"); ("B", VStr "y")]
              Ha eq_refl eq_refl)
    as (_ & _ & _ & H).
  simpl (answer W_granted _ _) in H. destruct H as (H1 & _ & H3 & _).
  split; [exact Ha|]. split; [exact H1|]. split; [reflexivity|].
  rewrite H3. now rewrite kv_lookup_put.
Defined.

(** C9 as stated fails in two ways.  With the backend returning the tags
    [{A, B}] and then rejecting [setTags], the method throws and the
    tombstone is not written; and for a mapping with a tag named
    [__proto__], the keys of the clearing payload are not the keys of the
    mapping. *)
Lemma C9_counterexample :
  (api after_first_run <> None
   /\ answer W_setTags_rejected (length (trace after_first_run)) ApiGetTags = Some sample_tags
   /\ fst (removeAllDeviceData K0 W_setTags_rejected after_first_run)
      = Throw (Rejection (ApiSetTags (VObj [("A", VNull); ("B", VNull)])))
   /\ truthy (kv_lookup KEY_DEVICE_DATA_REMOVED
                (keyValue (snd (removeAllDeviceData K0 W_setTags_rejected after_first_run))))
      = false)
  /\ (answer W_proto_tags (length (trace after_first_run)) ApiGetTags = Some sample_tags_proto
      /\ fst (removeAllDeviceData K0 W_proto_tags after_first_run) = Ok VUndef
      /\ nth 4 (skipn (length (trace after_first_run))
                  (trace (snd (removeAllDeviceData K0 W_proto_tags after_first_run))))
               ADispatchInitialized
         = ACall (ApiSetTags (VObj [("A", VNull)]))).
Proof.
  split.
  - split; [vm_compute; discriminate|]. split; [reflexivity|].
    split; vm_compute; reflexivity.
  - split; [reflexivity|]. split; vm_compute; reflexivity.
Qed.


(** ** The denied branch (C5) *)

Lemma unsubscribe_trace (W : World) (notify : bool) (s : State) :
  facade_built s ->
  fst (unsubscribe W notify s) = Ok tt /\
  trace (snd (unsubscribe W notify s))
    = trace s ++ unsubscribe_actions W notify (length (trace s)).
Proof.
  intros [Hd Ha].
  unfold unsubscribe, unsubscribe_actions, try_catch, driver_call, api_call, api_start,
    start, await, bind, gets, modify, log_action, Logger_write, emit, when, ret, throw.
  destruct (driver s) eqn:Ed; [|congruence]. destruct (api s) eqn:Ea; [|congruence].
  simpl. destruct (answer W (length (trace s)) DriverUnsubscribe); simpl.
  - rewrite Ea. simpl. rewrite !length_app. simpl.
    replace (length (trace s) + 1 + 1) with (length (trace s) + 2) by lia.
    destruct (answer W _ ApiUnregisterDevice); simpl.
    + destruct notify; simpl; repeat rewrite <- app_assoc; split; reflexivity.
    + repeat rewrite <- app_assoc; split; reflexivity.
  - repeat rewrite <- app_assoc; split; reflexivity.
Qed.

Lemma frame_facade_built : frame facade_built.
Proof. split; intros s x H; exact H. Qed.

Ltac facade_side :=
  first [ exact Logic.I | intros; exact Logic.I
        | intros ? [? ?]; split; simpl; assumption ].

Lemma facade_callApplicationOpen K W force :
  keeps facade_built any_action (callApplicationOpen K W force).
Proof. unfold callApplicationOpen. keeps_structure frame_facade_built facade_side. Qed.

Lemma facade_unsubscribe W notify : keeps facade_built any_action (unsubscribe W notify).
Proof. unfold unsubscribe. keeps_structure frame_facade_built facade_side. Qed.

Lemma driver_call_ok W c s v s' :
  driver_call W c s = (Ok v, s') -> driver s <> None /\ driver s' = driver s /\ api s' = api s.
Proof.
  unfold driver_call, start, await, bind, gets, modify, log_action, ret, throw.
  destruct (driver s) eqn:Ed; simpl; [|discriminate].
  destruct (answer W _ c); simpl; intros H; inversion H; subst; simpl.
  repeat split; congruence.
Qed.

Lemma bind_ok_inv {A B} (m : M A) (k : A -> M B) s b s' :
  bind m k s = (Ok b, s') -> exists a s1, m s = (Ok a, s1) /\ k a s1 = (Ok b, s').
Proof.
  unfold bind. destruct (m s) as [[a|e] s1]; [eauto | discriminate].
Qed.

Lemma frame_driver_is d : frame (driver_is d).
Proof. split; intros s x H; exact H. Qed.

Ltac driver_side :=
  first [ exact Logic.I | intros; exact Logic.I | intros ? ?; simpl; assumption ].

Lemma driver_kept_initApi W d : keeps (driver_is d) any_action (initApi W).
Proof. unfold initApi. keeps_structure (frame_driver_is d) driver_side. Qed.

Lemma initApi_ok W s s' :
  initApi W s = (Ok tt, s') -> driver s' = driver s /\ api s' <> None.
Proof.
  intros H. split.
  - destruct (driver_kept_initApi W (driver s) s eq_refl) as [Hd _].
    rewrite H in Hd. exact Hd.
  - unfold initApi in H.
    repeat (apply bind_ok_inv in H; destruct H as (? & ? & _ & H); cbv beta zeta in H).
    inversion H. simpl. discriminate.
Qed.

Lemma startup_prologue_ok K P W s s1 :
  startup_prologue K P W s = (Ok tt, s1) -> facade_built s1.
Proof.
  unfold startup_prologue. unfold bind at 1.
  destruct (driver_call W DriverGetPermission s) as [[perm|e] sa] eqn:E1; [|discriminate].
  apply driver_call_ok in E1. destruct E1 as [Hd [E1 _]].
  unfold bind at 1. unfold modify at 1. unfold bind at 1.
  destruct (initApi W _) as [[[]|e] sb] eqn:E2; [|discriminate].
  apply initApi_ok in E2. simpl in E2. destruct E2 as [E2 Ha].
  assert (Hb : facade_built sb) by (split; [congruence | exact Ha]).
  intros H.
  assert (Kp : keeps facade_built any_action
            (callApplicationOpen K W VUndef ;;
             d <- gets driver ;;
             match d with
             | None => throw (TypeError "driver")
             | Some dr =>
                 (if driver_has_isNeedUnsubscribe P (drv_kind dr)
                  then need <- driver_call W DriverIsNeedUnsubscribe ;;
                       registered <- gets (isDeviceRegistered K) ;;
                       when (truthy need && registered) (unsubscribe W false)
                  else ret tt) ;;
                 resub <- gets _isNeedResubscribe ;;
                 when resub (unsubscribe W false)
             end)).
  { pose proof (facade_callApplicationOpen K W VUndef).
    pose proof (facade_unsubscribe W false).
    keeps_structure frame_facade_built facade_side. }
  destruct (Kp sb Hb) as [Hs1 _]. rewrite H in Hs1. exact Hs1.
Qed.

Lemma frame_permission_is v : frame (permission_is v).
Proof. split; intros s x H; exact H. Qed.

Lemma driver_call_answer W c s v s' :
  driver_call W c s = (Ok v, s') -> answer W (length (trace s)) c = Some v.
Proof.
  unfold driver_call, start, await, bind, gets, modify, log_action, ret, throw.
  destruct (driver s); simpl; [|discriminate].
  destruct (answer W _ c); simpl; intros H; inversion H; reflexivity.
Qed.

(** The prologue records the transport's live answer as [permissionOnInit] and
    leaves the tombstone entry alone. *)
Lemma startup_prologue_permission K P W s s1 :
  startup_prologue K P W s = (Ok tt, s1) ->
  answer W (length (trace s)) DriverGetPermission = Some (permissionOnInit s1).
Proof.
  unfold startup_prologue. unfold bind at 1.
  destruct (driver_call W DriverGetPermission s) as [[perm|e] sa] eqn:E1; [|discriminate].
  apply driver_call_answer in E1. rewrite E1.
  unfold bind at 1. unfold modify at 1. cbv iota beta.
  match goal with
  | |- ?m ?st = _ -> _ =>
      assert (Kp : keeps (permission_is perm) any_action m);
        [|intros H; destruct (Kp st eq_refl) as [Hp _]; rewrite H in Hp;
          unfold permission_is in Hp; simpl in Hp; now rewrite Hp]
  end.
  unfold initApi, callApplicationOpen, unsubscribe.
  keeps_structure (frame_permission_is perm) driver_side.
Qed.

Lemma startup_prologue_tombstone K P W s s1 :
  startup_prologue K P W s = (Ok tt, s1) ->
  kv_lookup KEY_DEVICE_DATA_REMOVED (keyValue s1)
  = kv_lookup KEY_DEVICE_DATA_REMOVED (keyValue s).
Proof.
  intros H.
  destruct (tombstone_startup_prologue K P W
              (kv_lookup KEY_DEVICE_DATA_REMOVED (keyValue s)) (ready s) s)
    as [[Hk _] _]; [split; reflexivity|].
  rewrite H in Hk. exact Hk.
Qed.

(** C5, as amended.  In a startup whose prologue completes, with no
    tombstone persisted and with the transport reporting the permission
    denied, the permission branch
    emits [permissionDenied] and ends by removing the registration-status
    flag.  In between, when the transport is not Safari's and the device was
    marked registered at that point, exactly one unsubscribe is attempted:
    one transport unsubscribe, followed by one backend de-registration when
    the transport unsubscribe succeeded.  On Safari, or when the device was
    not marked registered, nothing happens in between.  [defaultProcess] then
    goes on with its epilogue. *)
Theorem C5_denied_permission_startup
    (K : Consts) (P : Platform) (W : World) (s s1 : State) :
  startup_prologue K P W s = (Ok tt, s1) ->
  truthy (kv_lookup KEY_DEVICE_DATA_REMOVED (keyValue s)) = false ->
  answer W (length (trace s)) DriverGetPermission = Some (VStr (PERMISSION_DENIED K)) ->
  let due := negb (isSafari s1) && isDeviceRegistered K s1 in
  let t := S (length (trace s1)) in
  let mid := if due then unsubscribe_actions W true t else [] in
  exists s2,
    permission_branch K P W (autoSubscribe_of (params s)) s1 = (Ok tt, s2)
    /\ defaultProcess K P W s = startup_epilogue K P W s2
    /\ trace s2
       = trace s1 ++ [AEmit EVENT_ON_PERMISSION_DENIED VUndef] ++ mid ++ [ALocalStorageRemove]
    /\ registration_status s2 = None
    /\ count_actions (is_call_of is_transport_unsubscribe) mid = (if due then 1 else 0)
    /\ count_actions (is_call_of is_backend_unregister) mid
       = (if due then match answer W t DriverUnsubscribe with Some _ => 1 | None => 0 end
          else 0).
Proof.
  intros Hpro Htomb0 Hperm0 due t mid.
  assert (Htomb : truthy (kv_lookup KEY_DEVICE_DATA_REMOVED (keyValue s1)) = false)
    by now rewrite (startup_prologue_tombstone K P W s s1 Hpro).
  assert (Hperm : permissionOnInit s1 = VStr (PERMISSION_DENIED K)).
  { pose proof (startup_prologue_permission K P W s s1 Hpro) as Hq.
    rewrite Hperm0 in Hq. now injection Hq as <-. }
  pose proof (startup_prologue_ok K P W s s1 Hpro) as Hf.
  set (se := set_trace (trace s1 ++ [AEmit EVENT_ON_PERMISSION_DENIED VUndef]) s1).
  assert (Hfe : facade_built se) by exact Hf.
  destruct (unsubscribe_trace W true se Hfe) as [Hu1 Hu2].
  assert (Hlen : length (trace se) = t).
  { unfold se, t. simpl. rewrite length_app. simpl. lia. }
  rewrite Hlen in Hu2.
  assert (Hb : exists s2,
             permission_branch K P W (autoSubscribe_of (params s)) s1 = (Ok tt, s2)
             /\ trace s2 = trace s1 ++ [AEmit EVENT_ON_PERMISSION_DENIED VUndef]
                             ++ mid ++ [ALocalStorageRemove]
             /\ registration_status s2 = None).
  { unfold permission_branch, bind, gets, emit, log_action, modify,
      removeRegistrationStatus. simpl.
    rewrite Hperm. simpl. rewrite String.eqb_refl. simpl.
    fold se. change (isDeviceRegistered K se) with (isDeviceRegistered K s1).
    change (negb (isSafari s1) && isDeviceRegistered K s1) with due.
    unfold mid. destruct due; simpl.
    - destruct (unsubscribe W true se) as [r su] eqn:Eu. simpl in Hu1, Hu2. subst r.
      eexists. split; [reflexivity|]. simpl. rewrite Hu2.
      repeat rewrite <- app_assoc. split; reflexivity.
    - eexists. split; [reflexivity|]. simpl.
      repeat rewrite <- app_assoc. split; reflexivity. }
  destruct Hb as [s2 [Hb1 [Hb2 Hb3]]].
  exists s2. split; [exact Hb1|]. split.
  { unfold defaultProcess, bind, gets, keyValue_get. rewrite Hpro. simpl.
    rewrite Htomb. rewrite Hb1. reflexivity. }
  split; [exact Hb2|]. split; [exact Hb3|].
  unfold mid, unsubscribe_actions. destruct due; [|split; reflexivity].
  destruct (answer W t DriverUnsubscribe); [|split; reflexivity].
  destruct (answer W (t + 2) ApiUnregisterDevice); split; reflexivity.
Qed.

Lemma C5_denied_permission_witness :
  startup_prologue K0 P_worker W_denied worker_before_defaultProcess
    = (Ok tt, snd (startup_prologue K0 P_worker W_denied worker_before_defaultProcess))
  /\ exists s2,
       permission_branch K0 P_worker W_denied
         (autoSubscribe_of (params worker_before_defaultProcess))
         (snd (startup_prologue K0 P_worker W_denied worker_before_defaultProcess))
       = (Ok tt, s2)
       /\ registration_status s2 = None
       /\ count_actions (is_call_of is_transport_unsubscribe)
            (unsubscribe_actions W_denied true
               (S (length (trace (snd (startup_prologue K0 P_worker W_denied
                                         worker_before_defaultProcess))))))
          = 1.
Proof.
  assert (Hp : startup_prologue K0 P_worker W_denied worker_before_defaultProcess
               = (Ok tt, snd (startup_prologue K0 P_worker W_denied
                                worker_before_defaultProcess)))
    by (vm_compute; reflexivity).
  assert (Hd : negb (isSafari (snd (startup_prologue K0 P_worker W_denied
                                       worker_before_defaultProcess)))
               && isDeviceRegistered K0
                    (snd (startup_prologue K0 P_worker W_denied
                            worker_before_defaultProcess)) = true)
    by (vm_compute; reflexivity).
  split; [exact Hp|].
  destruct (C5_denied_permission_startup K0 P_worker W_denied
              worker_before_defaultProcess _ Hp)
    as (s2 & H1 & _ & _ & H4 & H5 & _);
    [vm_compute; reflexivity | vm_compute; reflexivity |].
  rewrite Hd in H5.
  exists s2. split; [exact H1|]. split; [exact H4 | exact H5].
Defined.

(** C5 as stated fails on Safari: the device is marked registered when the
    denied branch is reached, and the branch emits [permissionDenied] and
    removes the flag without any unsubscribe; the whole startup issues no
    transport unsubscribe and no backend de-registration.  It also fails
    when the branch is not reached: with the tombstone set, or with the
    transport failing to report its parameters, a startup under a denied
    permission emits nothing. *)
Lemma C5_counterexample :
  (fst (startup_prologue K0 P_safari W_denied safari_before_defaultProcess) = Ok tt
   /\ permissionOnInit safari_at_branch = VStr (PERMISSION_DENIED K0)
   /\ isDeviceRegistered K0 safari_at_branch = true
   /\ trace (snd (permission_branch K0 P_safari W_denied (VBool true) safari_at_branch))
      = trace safari_at_branch
        ++ [AEmit EVENT_ON_PERMISSION_DENIED VUndef; ALocalStorageRemove]
   /\ count_actions (is_call_of is_transport_unsubscribe)
        (trace (snd (init K0 P_safari W_denied (VObj sample_config_safari)
                       (new_Pushwoosh P_safari [] (Some "registered"))))) = 0
   /\ count_actions (is_call_of is_backend_unregister)
        (trace (snd (init K0 P_safari W_denied (VObj sample_config_safari)
                       (new_Pushwoosh P_safari [] (Some "registered"))))) = 0)
  /\ filter is_emit
       (trace (snd (init K0 P_worker W_denied (VObj sample_config) tombstoned))) = []
  /\ filter is_emit
       (trace (snd (init K0 P_worker W_denied_no_parameters (VObj sample_config)
                      (new_Pushwoosh P_worker [] (Some "registered"))))) = [].
Proof.
  split.
  - split; [vm_compute; reflexivity|]. split; [vm_compute; reflexivity|].
    split; [vm_compute; reflexivity|]. split; [vm_compute; reflexivity|].
    split; vm_compute; reflexivity.
  - split; vm_compute; reflexivity.
Qed.





(** ** The placeholder user id: a run with and without it *)

Lemma ignores_ret {A} (a : A) : ignores_initParams (ret a).
Proof. intros x s; reflexivity. Qed.

Lemma ignores_throw {A} (e : error) : ignores_initParams (@throw A e).
Proof. intros x s; reflexivity. Qed.

Lemma ignores_gets {A} (f : State -> A) :
  (forall x s, f (set_initParams x s) = f s) -> ignores_initParams (gets f).
Proof. intros H x s. unfold gets. now rewrite H. Qed.

Lemma ignores_modify (g : State -> State) :
  (forall x s, g (set_initParams x s) = set_initParams x (g s)) ->
  ignores_initParams (modify g).
Proof. intros H x s. unfold modify. now rewrite H. Qed.

Lemma ignores_bind {A B} (m : M A) (k : A -> M B) :
  ignores_initParams m -> (forall a, ignores_initParams (k a)) ->
  ignores_initParams (bind m k).
Proof.
  intros Hm Hk x s. unfold bind. rewrite Hm.
  destruct (m s) as [[a|e] s1]; simpl; [apply Hk | reflexivity].
Qed.

Lemma ignores_try_catch {A} (m : M A) (h : error -> M A) :
  ignores_initParams m -> (forall e, ignores_initParams (h e)) ->
  ignores_initParams (try_catch m h).
Proof.
  intros Hm Hh x s. unfold try_catch. rewrite Hm.
  destruct (m s) as [[a|e] s1]; simpl; [reflexivity | apply Hh].
Qed.

Ltac ignores_rule :=
  lazymatch goal with
  | |- ignores_initParams (ret _) => apply ignores_ret
  | |- ignores_initParams (throw _) => apply ignores_throw
  | |- ignores_initParams (gets _) => apply ignores_gets; intros; reflexivity
  | |- ignores_initParams (modify _) => apply ignores_modify; intros; reflexivity
  | |- ignores_initParams (bind _ _) => apply ignores_bind; [|intro; cbv beta]
  | |- ignores_initParams (try_catch _ _) => apply ignores_try_catch; [|intro; cbv beta]
  | |- ignores_initParams (match ?x with _ => _ end) => destruct x
  | |- ignores_initParams (let _ := _ in _) => cbv zeta
  | |- ignores_initParams (when _ _) => unfold when
  | |- ignores_initParams (log_action _) => unfold log_action
  | |- ignores_initParams (Logger_write _ _) => unfold Logger_write
  | |- ignores_initParams (emit _ _) => unfold emit
  | |- ignores_initParams (keyValue_get _) => unfold keyValue_get
  | |- ignores_initParams (keyValue_set _ _) => unfold keyValue_set
  | |- ignores_initParams (keyValue_extend _ _) => unfold keyValue_extend
  | |- ignores_initParams (get_prop _ _) => unfold get_prop
  | |- ignores_initParams (Object_keys _) => unfold Object_keys
  | |- ignores_initParams (start _ _) => unfold start
  | |- ignores_initParams (await _ _) => unfold await
  | |- ignores_initParams (driver_call _ _) => unfold driver_call
  | |- ignores_initParams (api_start _ _) => unfold api_start
  | |- ignores_initParams (api_call _ _) => unfold api_call
  | |- ignores_initParams (removeRegistrationStatus) => unfold removeRegistrationStatus
  | |- ignores_initParams (getParams) => unfold getParams
  | |- ignores_initParams (isCommunicationEnabled) => unfold isCommunicationEnabled
  end.

Ltac ignores :=
  repeat first
    [ assumption
    | match goal with
      | H : forall _, ignores_initParams _ |- ignores_initParams _ => simple apply H
      end
    | ignores_rule ].

Lemma ignores_Promise_all W items : ignores_initParams (Promise_all W items).
Proof.
  induction items as [|[p|ps] rest IH]; simpl; [apply ignores_ret| |exact IH].
  apply ignores_bind; [ignores | intros _; exact IH].
Qed.

Section Ignores.
Variables (K : Consts) (P : Platform) (W : World).

Lemma ignores_callApplicationOpen force : ignores_initParams (callApplicationOpen K W force).
Proof.
  pose proof (ignores_Promise_all W) as HP.
  unfold callApplicationOpen. ignores.
Qed.

Lemma ignores_needForcedOpen : ignores_initParams (needForcedOpen K W).
Proof. unfold needForcedOpen. ignores. Qed.

Lemma ignores_installDevice force : ignores_initParams (installDevice P W force).
Proof.
  pose proof (ignores_Promise_all W) as HP.
  unfold installDevice. ignores.
Qed.

Lemma ignores_unsubscribe notify : ignores_initParams (unsubscribe W notify).
Proof. unfold unsubscribe. ignores. Qed.

Lemma ignores_subscribe : ignores_initParams (subscribe K P W).
Proof.
  pose proof ignores_needForcedOpen. pose proof ignores_callApplicationOpen.
  pose proof ignores_installDevice.
  unfold subscribe, registerDuringSubscribe, onSubscribeEmitter. ignores.
Qed.

Lemma ignores_initApi : ignores_initParams (initApi W).
Proof. unfold initApi. ignores. Qed.

Lemma ignores_defaultProcess : ignores_initParams (defaultProcess K P W).
Proof.
  pose proof ignores_needForcedOpen. pose proof ignores_callApplicationOpen.
  pose proof ignores_installDevice. pose proof ignores_unsubscribe.
  pose proof ignores_subscribe. pose proof ignores_initApi.
  unfold defaultProcess, startup_prologue, permission_branch, startup_epilogue. ignores.
Qed.

End Ignores.

Lemma obj_get_delete (k k' : string) (o : obj) :
  obj_get k (obj_delete k' o) = if (k =? k')%string then VUndef else obj_get k o.
Proof.
  induction o as [|[k0 v0] t IH]; simpl.
  - now destruct (k =? k')%string.
  - destruct (k' =? k0)%string eqn:E; simpl.
    + rewrite IH. apply String.eqb_eq in E. subst k0. now destruct (k =? k')%string.
    + rewrite IH. destruct (k =? k0)%string eqn:E0; [|reflexivity].
      apply String.eqb_eq in E0. subst k0. rewrite String.eqb_sym in E. now rewrite E.
Qed.



Lemma obj_get_spread (k : string) (ext base : obj) :
  NoDup (obj_keys ext) ->
  obj_get k (obj_spread base ext)
  = if existsb (String.eqb k) (obj_keys ext) then obj_get k ext else obj_get k base.
Proof.
  unfold obj_spread. revert base.
  induction ext as [|[k0 v0] t IH]; intros base Hnd; simpl; [reflexivity|].
  inversion Hnd as [|x l Hx Hl]; subst.
  rewrite (IH _ Hl), obj_get_set.
  destruct (k =? k0)%string eqn:E; simpl; [|reflexivity].
  apply String.eqb_eq in E. subst k0.
  destruct (existsb _ _) eqn:Ex; [|reflexivity].
  apply existsb_eqb_In in Ex. contradiction.
Qed.

Lemma obj_get_absent (k : string) (o : obj) :
  existsb (String.eqb k) (obj_keys o) = false -> obj_get k o = VUndef.
Proof.
  induction o as [|[k0 v0] t IH]; simpl; [reflexivity|].
  destruct (k =? k0)%string; simpl; [discriminate | exact IH].
Qed.

Section DropUserId.
Variables (K : Consts) (P : Platform).

Lemma build_params_userId (cfg : obj) (url : value) :
  NoDup (obj_keys cfg) ->
  obj_get "userId" (build_params K P (VObj cfg) url) = obj_get "userId" cfg.
Proof.
  intros Hnd. unfold build_params. simpl spread_of.
  rewrite !obj_get_set. simpl. rewrite (obj_get_spread _ _ _ Hnd). simpl.
  destruct (existsb _ _) eqn:E; [reflexivity|]. now rewrite obj_get_absent.
Qed.




End DropUserId.

Lemma ignores_init_body K P W ip : ignores_initParams (init_body K P W ip).
Proof.
  pose proof (ignores_defaultProcess K P W).
  unfold init_body, init_defaultActions, init_driver. ignores.
Qed.

Lemma init_through_body K P W ip s :
  init K P W ip s
  = (fst (init_body K P W ip s), set_initParams ip (snd (init_body K P W ip s))).
Proof.
  unfold init, bind, modify. apply ignores_init_body.
Qed.

(** ** A second startup (C2) *)

Lemma obj_set_same (k : string) (v : value) (o : obj) :
  NoDup (obj_keys o) -> In (k, v) o -> obj_set k v o = o.
Proof.
  induction o as [|[k0 v0] t IH]; simpl; intros Hnd Hin; [contradiction|].
  inversion Hnd as [|x l Hx Hl]; subst.
  destruct (k =? k0)%string eqn:E.
  - apply String.eqb_eq in E. subst k0. destruct Hin as [H|H].
    + now injection H as ->.
    + exfalso. apply Hx. unfold obj_keys. apply (in_map fst) in H. exact H.
  - destruct Hin as [H|H].
    + injection H as -> ->. now rewrite String.eqb_refl in E.
    + now rewrite IH.
Qed.

Lemma obj_spread_within (ext base : obj) :
  NoDup (obj_keys base) -> incl ext base -> obj_spread base ext = base.
Proof.
  unfold obj_spread. induction ext as [|[k v] t IH]; intros Hnd Hin; simpl; [reflexivity|].
  rewrite obj_set_same; [|exact Hnd|apply Hin; now left].
  apply IH; [exact Hnd|]. intros x Hx. apply Hin. now right.
Qed.

Lemma obj_spread_self (d : obj) : NoDup (obj_keys d) -> obj_spread d d = d.
Proof. intros H. apply obj_spread_within; [exact H | apply incl_refl]. Qed.

Lemma existsb_keys_set (k k' : string) (v : value) (o : obj) :
  existsb (String.eqb k) (obj_keys (obj_set k' v o))
  = (k =? k')%string || existsb (String.eqb k) (obj_keys o).
Proof.
  unfold obj_keys. induction o as [|[k0 v0] t IH]; simpl; [reflexivity|].
  destruct (k' =? k0)%string eqn:E; simpl.
  - apply String.eqb_eq in E. subst k0. now destruct (k =? k')%string.
  - rewrite IH.
    destruct (k =? k0)%string, (k =? k')%string; reflexivity.
Qed.

Lemma existsb_keys_spread (k : string) (ext base : obj) :
  existsb (String.eqb k) (obj_keys (obj_spread base ext))
  = existsb (String.eqb k) (obj_keys base) || existsb (String.eqb k) (obj_keys ext).
Proof.
  unfold obj_spread. revert base.
  induction ext as [|[k0 v0] t IH]; intros base; simpl; [now rewrite orb_false_r|].
  rewrite IH, existsb_keys_set. unfold obj_keys.
  destruct (k =? k0)%string, (existsb _ (map fst base)); reflexivity.
Qed.

Lemma existsb_keys_delete (k k' : string) (o : obj) :
  existsb (String.eqb k) (obj_keys (obj_delete k' o))
  = negb (k =? k')%string && existsb (String.eqb k) (obj_keys o).
Proof.
  unfold obj_keys. induction o as [|[k0 v0] t IH]; simpl; [now rewrite andb_false_r|].
  destruct (k' =? k0)%string eqn:E; simpl.
  - rewrite IH. apply String.eqb_eq in E. subst k0.
    now destruct (k =? k')%string.
  - rewrite IH.
    destruct (k =? k0)%string eqn:E0; [|reflexivity]. simpl.
    apply String.eqb_eq in E0. subst k0. rewrite String.eqb_sym in E. now rewrite E.
Qed.

Lemma NoDup_keys_set (k : string) (v : value) (o : obj) :
  NoDup (obj_keys o) -> NoDup (obj_keys (obj_set k v o)).
Proof.
  intros H. rewrite obj_keys_set. destruct (existsb _ _) eqn:E; [exact H|].
  apply NoDup_app; [exact H | repeat constructor; simpl; tauto |].
  intros x Hx [<-|[]]. apply existsb_eqb_In in Hx. congruence.
Qed.

Lemma NoDup_keys_spread (ext base : obj) :
  NoDup (obj_keys base) -> NoDup (obj_keys (obj_spread base ext)).
Proof.
  unfold obj_spread. revert base.
  induction ext as [|[k0 v0] t IH]; intros base H; simpl; [exact H|].
  apply IH. now apply NoDup_keys_set.
Qed.

Lemma NoDup_keys_delete (k : string) (o : obj) :
  NoDup (obj_keys o) -> NoDup (obj_keys (obj_delete k o)).
Proof.
  induction o as [|[k0 v0] t IH]; simpl; intros H; [constructor|].
  inversion H as [|x l Hx Hl]; subst.
  destruct (k =? k0)%string; [now apply IH|].
  simpl. constructor; [|now apply IH].
  intros Hc. apply Hx. apply existsb_eqb_In. apply existsb_eqb_In in Hc.
  unfold obj_keys in *. rewrite existsb_keys_delete in Hc.
  now apply andb_true_iff in Hc.
Qed.

Lemma opt_string_neq_refl (a : option string) : opt_string_neq a a = false.
Proof. destruct a; simpl; [now rewrite String.eqb_refl | reflexivity]. Qed.

Lemma strict_eq_refl (v : value) : is_primitive v = true -> strict_eq v v = true.
Proof.
  destruct v; simpl; try discriminate; intros _;
    [reflexivity | reflexivity | apply Bool.eqb_reflx | apply Z.eqb_refl | apply String.eqb_refl].
Qed.

Lemma obj_get_present (k : string) (o : obj) :
  truthy (obj_get k o) = true -> existsb (String.eqb k) (obj_keys o) = true.
Proof.
  intros H. destruct (existsb _ _) eqn:E; [reflexivity|].
  rewrite (obj_get_absent _ _ E) in H. discriminate.
Qed.

Lemma frame_settled P d : frame (settled P d).
Proof. split; intros s x H; exact H. Qed.

Section KeepsMore.
Variable Inv : State -> Prop.
Variable allowed : action -> Prop.
Hypothesis F : frame Inv.

Lemma keeps_bind_driver_call {B} (W : World) (c : call) (k : value -> M B) :
  allowed (ACall c) -> (forall c b, allowed (ASettled c b)) ->
  (forall v t, answer W t c = Some v -> keeps Inv allowed (k v)) ->
  keeps Inv allowed (bind (driver_call W c) k).
Proof.
  intros Hc Hs Hk s Hi.
  pose proof (keeps_driver_call Inv allowed F W c Hc Hs s Hi) as [H1 [l1 [E1 A1]]].
  unfold bind.
  assert (Hv : forall x s1, driver_call W c s = (Ok x, s1) -> exists t, answer W t c = Some x).
  { unfold driver_call, start, await, bind, gets, modify, log_action, ret, throw.
    destruct (driver s); simpl; [|discriminate].
    destruct (answer W (length (trace s)) c) as [y|] eqn:Ea; simpl;
      intros x s1 H; inversion H; subst.
    now exists (length (trace s)). }
  destruct (driver_call W c s) as [[v|e] s1]; simpl in *.
  - destruct (Hv v s1 eq_refl) as [t Ht].
    destruct (Hk v t Ht s1 H1) as [H2 [l2 [E2 A2]]]. split; [exact H2|].
    exists (l1 ++ l2). rewrite E2, E1, app_assoc. split; [reflexivity | now apply Forall_app].
  - split; [exact H1 | now exists l1].
Qed.

Lemma keeps_bind_throws {A B} (m : M A) (k : A -> M B) :
  keeps Inv allowed m -> (forall s, exists e, fst (m s) = Throw e) ->
  keeps Inv allowed (bind m k).
Proof.
  intros Hm Ht s Hi. unfold bind. destruct (Hm s Hi) as [H1 H2].
  destruct (Ht s) as [e He]. destruct (m s) as [[a|e'] s1]; simpl in *; [discriminate|].
  split; assumption.
Qed.

Lemma keeps_unchanged {A} (m : M A) :
  (forall s, Inv s -> snd (m s) = s) -> keeps Inv allowed m.
Proof.
  intros H s Hi. rewrite (H s Hi). split; [exact Hi|].
  exists []. split; [now rewrite app_nil_r | constructor].
Qed.

End KeepsMore.

Ltac settled_side :=
  first [ reflexivity
        | intros; reflexivity
        | intros ? (? & ? & ? & ? & ? & ?); repeat split; simpl;
          rewrite ?kv_lookup_put; simpl; assumption ].

(** *** Rules for [keeps_unless] *)

Lemma count_actions_app (p : action -> bool) (l l' : list action) :
  count_actions p (l ++ l') = count_actions p l + count_actions p l'.
Proof. unfold count_actions. now rewrite filter_app, length_app. Qed.

Lemma existsb_count (p : action -> bool) (l : list action) :
  existsb p l = true -> 0 < count_actions p l.
Proof.
  unfold count_actions. induction l as [|a t IH]; simpl; [discriminate|].
  destruct (p a); simpl; [lia | exact IH].
Qed.

Lemma unless_of_keeps {A} (Inv : State -> Prop) (allowed : action -> Prop)
    (bad : action -> bool) (m : M A) :
  keeps Inv allowed m -> keeps anything any_action m ->
  keeps_unless Inv allowed bad m.
Proof.
  intros Hk He s. destruct (He s Logic.I) as [_ [l [E _]]].
  exists l. split; [exact E|]. right. intros Hi.
  destruct (Hk s Hi) as [H1 [l' [E' A']]]. split; [exact H1|].
  rewrite E in E'. apply app_inv_head in E'. now subst.
Qed.

Lemma unless_bind {A B} (Inv : State -> Prop) (allowed : action -> Prop)
    (bad : action -> bool) (m : M A) (k : A -> M B) :
  keeps_unless Inv allowed bad m -> (forall a, keeps_unless Inv allowed bad (k a)) ->
  keeps_unless Inv allowed bad (bind m k).
Proof.
  intros Hm Hk s. unfold bind. destruct (Hm s) as [l1 [E1 D1]].
  destruct (m s) as [[a|e] s1]; simpl in *.
  - destruct (Hk a s1) as [l2 [E2 D2]]. exists (l1 ++ l2).
    rewrite E2, E1, app_assoc. split; [reflexivity|]. rewrite existsb_app.
    destruct D1 as [D1|D1]; [left; now rewrite D1|].
    destruct D2 as [D2|D2]; [left; rewrite D2; apply orb_true_r|].
    right. intros Hi. destruct (D1 Hi) as [H1 A1]. destruct (D2 H1) as [H2 A2].
    split; [exact H2 | now apply Forall_app].
  - exists l1. split; [exact E1 | exact D1].
Qed.

Lemma unless_try_catch {A} (Inv : State -> Prop) (allowed : action -> Prop)
    (bad : action -> bool) (m : M A) (h : error -> M A) :
  keeps_unless Inv allowed bad m -> (forall e, keeps_unless Inv allowed bad (h e)) ->
  keeps_unless Inv allowed bad (try_catch m h).
Proof.
  intros Hm Hh s. unfold try_catch. destruct (Hm s) as [l1 [E1 D1]].
  destruct (m s) as [[a|e] s1]; simpl in *.
  - exists l1. split; [exact E1 | exact D1].
  - destruct (Hh e s1) as [l2 [E2 D2]]. exists (l1 ++ l2).
    rewrite E2, E1, app_assoc. split; [reflexivity|]. rewrite existsb_app.
    destruct D1 as [D1|D1]; [left; now rewrite D1|].
    destruct D2 as [D2|D2]; [left; rewrite D2; apply orb_true_r|].
    right. intros Hi. destruct (D1 Hi) as [H1 A1]. destruct (D2 H1) as [H2 A2].
    split; [exact H2 | now apply Forall_app].
Qed.

(** What a call to the transport does, by cases. *)
Lemma driver_call_cases (W : World) (c : call) (s : State) :
  let after := fun b =>
    set_trace (trace s ++ [ACall c; ASettled c b])
      (set_registration_status
         (status_effect W (length (trace s)) c (registration_status s)) s) in
  driver_call W c s
  = match driver s with
    | None => (Throw (TypeError "driver"), s)
    | Some _ =>
        match answer W (length (trace s)) c with
        | Some v => (Ok v, after true)
        | None => (Throw (Rejection c), after false)
        end
    end.
Proof.
  unfold driver_call, start, await, log_action.
  unfold bind, gets, modify, ret, throw.
  destruct (driver s); [|reflexivity]. simpl.
  destruct (answer W _ c); simpl; rewrite <- app_assoc; reflexivity.
Qed.

(** A request for a new subscription: fulfilled, it is the exception;
    rejected, it throws. *)
Lemma unless_bind_ask {B} (Inv : State -> Prop) (allowed : action -> Prop)
    (F : frame Inv) (W : World) (k : value -> M B) :
  allowed (ACall (DriverAskSubscribe false)) ->
  allowed (ASettled (DriverAskSubscribe false) false) ->
  (forall v, keeps anything any_action (k v)) ->
  keeps_unless Inv allowed is_new_grant
    (bind (driver_call W (DriverAskSubscribe false)) k).
Proof.
  intros Hc Hs Hk s. unfold bind. rewrite driver_call_cases.
  destruct (driver s).
  - destruct (answer W (length (trace s)) (DriverAskSubscribe false)) as [v|].
    + match goal with
      | |- context [k v ?s1] => destruct (Hk v s1 Logic.I) as [_ [l2 [E2 _]]]
      end.
      exists ([ACall (DriverAskSubscribe false); ASettled (DriverAskSubscribe false) true]
              ++ l2).
      split; [rewrite E2; simpl; now rewrite <- !app_assoc | left; reflexivity].
    + exists [ACall (DriverAskSubscribe false); ASettled (DriverAskSubscribe false) false].
      split; [reflexivity|]. right. intros Hi. split.
      * apply (frame_trace _ F), (frame_status _ F), Hi.
      * repeat constructor; assumption.
  - exists []. split; [simpl; now rewrite app_nil_r|]. right. intros Hi.
    split; [exact Hi | constructor].
Qed.

Lemma keeps_weaken {A} (Inv : State -> Prop) (allowed allowed' : action -> Prop)
    (m : M A) :
  (forall a, allowed a -> allowed' a) -> keeps Inv allowed m -> keeps Inv allowed' m.
Proof.
  intros Hw Hm s Hs. destruct (Hm s Hs) as [H1 [l [E A']]]. split; [exact H1|].
  exists l. split; [exact E|]. eapply Forall_impl; [|exact A']. exact Hw.
Qed.

Ltac unless_structure F side :=
  repeat first
    [ assumption
    | solve [ apply unless_of_keeps;
              [ solve [keeps_structure F side]
              | solve [keeps_structure frame_anything anything_side] ] ]
    | lazymatch goal with
      | |- keeps_unless _ _ _ (bind _ _) => apply unless_bind; [|intro; cbv beta]
      | |- keeps_unless _ _ _ (try_catch _ _) => apply unless_try_catch; [|intro; cbv beta]
      | |- keeps_unless _ _ _ (when ?b _) => destruct b; unfold when
      | |- keeps_unless _ _ _ (match ?x with _ => _ end) => destruct x
      | |- keeps_unless _ _ _ (let _ := _ in _) => cbv zeta
      end ].

Ltac settled_any_side :=
  first [ exact Logic.I | intros; exact Logic.I | settled_side ].

Section SecondRun.
Variables (K : Consts) (P : Platform) (W : World) (d : obj).
Hypothesis d_nodup : NoDup (obj_keys d).
Hypothesis same_device :
  forall t v, answer W t DriverGetAPIParams = Some v -> v = VObj d.

Let Inv := settled P d.
Let F := frame_settled P d.

Lemma settled_initApi : keeps Inv quiet (initApi W).
Proof.
  unfold initApi.
  apply keeps_bind; [apply keeps_gets|intros prm].
  apply (keeps_bind_driver_call _ _ F); [reflexivity | reflexivity |].
  intros v t Hv. apply same_device in Hv. subst v.
  apply keeps_bind; [apply keeps_keyValue_get|intros lastOpen]. cbv zeta.
  apply keeps_bind_gets. intros s0 Hs0.
  assert (Hsaved : kv_lookup KEY_API_PARAMS (keyValue s0) = VObj d) by apply Hs0.
  rewrite Hsaved. simpl js_or.
  unfold needRegisterDevice. rewrite opt_string_neq_refl.
  unfold keyValue_extend.
  repeat (apply keeps_bind; [apply keeps_get_prop|intro]).
  apply keeps_bind; [apply keeps_modify; [solve [settled_side] | reflexivity]|intros _].
  apply keeps_bind.
  { apply keeps_bind_gets. intros s1 Hs1.
    assert (Hold : kv_lookup KEY_API_PARAMS (keyValue s1) = VObj d) by apply Hs1.
    rewrite Hold. simpl spread_of. rewrite (obj_spread_self d d_nodup).
    apply (keeps_keyValue_set _ _ F); [|reflexivity].
    intros s2 (H1 & H2 & H3 & H4 & H5 & H6). repeat split; simpl;
      rewrite ?kv_lookup_put; simpl; first [assumption | reflexivity]. }
  intros p1. keeps_structure F settled_side.
Qed.

Lemma installDevice_idle (force : value) (s : State) :
  Inv s -> truthy force = false -> snd (installDevice P W force s) = s.
Proof.
  intros (H1 & H2 & H3 & H4 & H5 & H6) Hf.
  unfold installDevice, isCommunicationEnabled, keyValue_get, bind, gets, ret, throw, when.
  simpl. destruct (api s); [|reflexivity].
  destruct (negb (negb _)); [reflexivity|].
  rewrite H5. simpl. rewrite Hf, H4. simpl. rewrite H3. simpl. rewrite H2. simpl.
  rewrite H4. reflexivity.
Qed.

Lemma settled_installDevice (force : value) :
  truthy force = false -> keeps Inv quiet (installDevice P W force).
Proof.
  intros Hf. apply keeps_unchanged. intros s Hs. now apply installDevice_idle.
Qed.

Lemma settled_callApplicationOpen force : keeps Inv quiet (callApplicationOpen K W force).
Proof. unfold callApplicationOpen. keeps_structure F settled_side. Qed.

Lemma settled_needForcedOpen : keeps Inv quiet (needForcedOpen K W).
Proof. unfold needForcedOpen. keeps_structure F settled_side. Qed.

Lemma settled_unsubscribe notify : keeps Inv quiet (unsubscribe W notify).
Proof. unfold unsubscribe. keeps_structure F settled_side. Qed.

(** The diff flags, the stored version and the stored API parameters are
    also kept by a forced install: it writes no version when the stored one
    is current. *)
Lemma settled_installDevice_any (force : value) :
  keeps Inv any_action (installDevice P W force).
Proof.
  unfold installDevice.
  apply keeps_bind; [apply keeps_gets|intros [a|]]; [|apply keeps_throw].
  apply keeps_bind;
    [unfold isCommunicationEnabled; keeps_structure F settled_any_side|intros en].
  destruct (negb en); [apply keeps_ret|].
  unfold keyValue_get at 1. apply keeps_bind_gets. intros s0 Hs0.
  assert (H5 : strict_eq (getVersion P) (kv_lookup KEY_SDK_VERSION (keyValue s0)) = true)
    by apply Hs0.
  apply keeps_bind; [apply keeps_keyValue_get|intros savedInitParams].
  cbv zeta. rewrite H5. simpl negb. cbv iota.
  keeps_structure F settled_any_side.
Qed.

Lemma settled_subscribe_any : keeps Inv any_action (subscribe K P W).
Proof.
  pose proof settled_installDevice_any.
  pose proof (fun force => keeps_weaken Inv quiet any_action _ (fun _ _ => Logic.I)
                             (settled_callApplicationOpen force)).
  pose proof (keeps_weaken Inv quiet any_action _ (fun _ _ => Logic.I)
                settled_needForcedOpen).
  unfold subscribe, registerDuringSubscribe, onSubscribeEmitter, isCommunicationEnabled.
  keeps_structure F settled_any_side.
Qed.

Lemma settled_defaultProcess_any : keeps Inv any_action (defaultProcess K P W).
Proof.
  pose proof settled_installDevice_any. pose proof settled_subscribe_any.
  pose proof (fun force => keeps_weaken Inv quiet any_action _ (fun _ _ => Logic.I)
                             (settled_callApplicationOpen force)).
  pose proof (keeps_weaken Inv quiet any_action _ (fun _ _ => Logic.I)
                settled_needForcedOpen).
  pose proof (keeps_weaken Inv quiet any_action _ (fun _ _ => Logic.I) settled_initApi).
  pose proof (fun notify => keeps_weaken Inv quiet any_action _ (fun _ _ => Logic.I)
                              (settled_unsubscribe notify)).
  unfold defaultProcess, startup_prologue, permission_branch, startup_epilogue,
    removeRegistrationStatus.
  keeps_structure F settled_any_side.
Qed.

Lemma unless_settled {A} (m : M A) :
  keeps Inv quiet m -> keeps anything any_action m ->
  keeps_unless Inv quiet is_new_grant m.
Proof. apply unless_of_keeps. Qed.

(** [subscribe] starts no install call unless the transport grants a new
    subscription: on a registered device it only asks to resubscribe, and a
    refused request is caught. *)
Lemma unless_subscribe : keeps_unless Inv quiet is_new_grant (subscribe K P W).
Proof.
  pose proof (installDevice_settles_nothing P W) as HI.
  assert (HI' : forall force, keeps anything any_action (installDevice P W force)).
  { intros force. unfold installDevice, isCommunicationEnabled.
    keeps_structure frame_anything anything_side. }
  unfold subscribe.
  apply unless_bind; [|intros en].
  { apply unless_settled; unfold isCommunicationEnabled;
      [keeps_structure F settled_side | keeps_structure frame_anything anything_side]. }
  destruct (negb en).
  { apply unless_settled;
      [keeps_structure F settled_side | keeps_structure frame_anything anything_side]. }
  apply unless_try_catch; [|intros e; apply unless_settled;
      [keeps_structure F settled_side | keeps_structure frame_anything anything_side]].
  apply unless_bind; [|intros subscribed].
  { apply unless_settled;
      [keeps_structure F settled_side | keeps_structure frame_anything anything_side]. }
  apply unless_bind; [|intros [|]].
  { apply unless_settled;
      [keeps_structure F settled_side | keeps_structure frame_anything anything_side]. }
  - simpl negb. unfold onSubscribeEmitter.
    apply unless_settled;
      [keeps_structure F settled_side | keeps_structure frame_anything anything_side].
  - apply (unless_bind_ask _ _ F); [reflexivity | reflexivity |].
    intros v. unfold registerDuringSubscribe, onSubscribeEmitter, needForcedOpen,
      callApplicationOpen.
    keeps_structure frame_anything anything_side.
Qed.

Lemma unless_defaultProcess : keeps_unless Inv quiet is_new_grant (defaultProcess K P W).
Proof.
  pose proof settled_initApi as H1. pose proof settled_callApplicationOpen as H2.
  pose proof settled_needForcedOpen as H3. pose proof settled_unsubscribe as H4.
  pose proof (settled_installDevice VUndef eq_refl) as H5.
  pose proof unless_subscribe as H6.
  assert (E1 : keeps anything any_action (initApi W))
    by (unfold initApi; keeps_structure frame_anything anything_side).
  assert (E2 : forall force, keeps anything any_action (callApplicationOpen K W force))
    by (intros force; unfold callApplicationOpen;
        keeps_structure frame_anything anything_side).
  assert (E3 : keeps anything any_action (needForcedOpen K W))
    by (unfold needForcedOpen; keeps_structure frame_anything anything_side).
  assert (E4 : forall notify, keeps anything any_action (unsubscribe W notify))
    by (intros notify; unfold unsubscribe; keeps_structure frame_anything anything_side).
  assert (E5 : forall force, keeps anything any_action (installDevice P W force))
    by (intros force; unfold installDevice, isCommunicationEnabled;
        keeps_structure frame_anything anything_side).
  unfold defaultProcess, startup_prologue, permission_branch, startup_epilogue,
    removeRegistrationStatus.
  unless_structure F settled_side.
Qed.

End SecondRun.

Section SecondRunInit.
Variables (K : Consts) (P : Platform) (W : World) (d : obj).
Hypothesis d_nodup : NoDup (obj_keys d).
Hypothesis same_device :
  forall t v, answer W t DriverGetAPIParams = Some v -> v = VObj d.

Lemma settled_init_tail prm scope applicationCode url :
  keeps (settled P d) any_action
    (init_driver P W prm scope applicationCode url ;; init_defaultActions K P W).
Proof.
  pose proof (settled_defaultProcess_any K P W d d_nodup same_device).
  unfold init_driver, init_defaultActions.
  keeps_structure (frame_settled P d) settled_any_side.
Qed.

Lemma unless_init_tail prm scope applicationCode url :
  keeps_unless (settled P d) quiet is_new_grant
    (init_driver P W prm scope applicationCode url ;; init_defaultActions K P W).
Proof.
  pose proof (unless_defaultProcess K P W d d_nodup same_device) as HD.
  unfold init_driver, init_defaultActions.
  unless_structure (frame_settled P d) settled_side.
Qed.

(** The parameters read back by [getParams] agree with the current ones on
    every key the current ones define. *)
Lemma getParams_reads_persisted (api_saved old prm : obj) (k : string) :
  NoDup (obj_keys old) -> NoDup (obj_keys prm) ->
  existsb (String.eqb k) (obj_keys prm) = true ->
  obj_get k (obj_spread (obj_spread [] api_saved) (obj_spread old prm)) = obj_get k prm.
Proof.
  intros Ho Hp Hk.
  rewrite obj_get_spread; [|now apply NoDup_keys_spread].
  rewrite existsb_keys_spread, Hk, orb_true_r.
  rewrite obj_get_spread; [|exact Hp]. now rewrite Hk.
Qed.

Lemma build_params_nodup (ip url : value) :
  NoDup (obj_keys (drop_default_userId K (build_params K P ip url))).
Proof.
  unfold drop_default_userId.
  assert (H : NoDup (obj_keys (build_params K P ip url))).
  { unfold build_params. repeat apply NoDup_keys_set. apply NoDup_keys_spread.
    simpl. repeat constructor; simpl; intuition discriminate. }
  destruct (strict_eq _ _); [now apply NoDup_keys_delete | exact H].
Qed.

Lemma build_params_has_tags (ip url : value) :
  existsb (String.eqb "tags")
    (obj_keys (drop_default_userId K (build_params K P ip url))) = true.
Proof.
  unfold drop_default_userId.
  assert (H : existsb (String.eqb "tags") (obj_keys (build_params K P ip url)) = true).
  { unfold build_params. rewrite !existsb_keys_set. reflexivity. }
  destruct (strict_eq _ _); [|exact H].
  rewrite existsb_keys_delete, H. reflexivity.
Qed.

Lemma flags_clear_on_persisted (api_saved old prm : obj) :
  NoDup (obj_keys old) -> NoDup (obj_keys prm) ->
  existsb (String.eqb "tags") (obj_keys prm) = true ->
  truthy (obj_get "applicationCode" prm) = true ->
  is_primitive (obj_get "applicationCode" prm) = true ->
  is_primitive (obj_get "userId" prm) = true ->
  let prev := obj_spread (obj_spread [] api_saved) (obj_spread old prm) in
  needResubscribe prev prm = false
  /\ needRegisterUser prev prm = false
  /\ needSetTags (obj_get "tags" prev) (obj_get "tags" prm) = false.
Proof.
  intros Ho Hp Ht Hac Hpa Hpu prev. subst prev. split; [|split].
  - unfold needResubscribe.
    rewrite (getParams_reads_persisted _ _ _ _ Ho Hp (obj_get_present _ _ Hac)).
    rewrite (strict_eq_refl _ Hpa). simpl. apply andb_false_r.
  - unfold needRegisterUser.
    destruct (truthy (obj_get "userId" prm)) eqn:Hu.
    + rewrite (getParams_reads_persisted _ _ _ _ Ho Hp (obj_get_present _ _ Hu)).
      rewrite (strict_eq_refl _ Hpu). simpl. apply andb_false_r.
    + now rewrite andb_false_r.
  - unfold needSetTags.
    rewrite (getParams_reads_persisted _ _ _ _ Ho Hp Ht).
    rewrite opt_string_neq_refl. apply andb_false_r.
Qed.

Lemma params_applicationCode (cfg : obj) (url : value) :
  NoDup (obj_keys cfg) ->
  obj_get "applicationCode" (drop_default_userId K (build_params K P (VObj cfg) url))
  = obj_get "applicationCode" cfg.
Proof.
  intros Hnd.
  assert (H : obj_get "applicationCode" (build_params K P (VObj cfg) url)
              = obj_get "applicationCode" cfg).
  { unfold build_params. simpl spread_of.
    rewrite !obj_get_set. simpl. rewrite (obj_get_spread _ _ _ Hnd). simpl.
    destruct (existsb _ _) eqn:E; [reflexivity|]. now rewrite obj_get_absent. }
  unfold drop_default_userId. destruct (strict_eq _ _); [|exact H].
  rewrite obj_get_delete. simpl. exact H.
Qed.

Lemma params_userId_primitive (cfg : obj) (url : value) :
  NoDup (obj_keys cfg) ->
  is_primitive (obj_get "userId" cfg) = true ->
  is_primitive (obj_get "userId" (drop_default_userId K (build_params K P (VObj cfg) url)))
  = true.
Proof.
  intros Hnd Hp. unfold drop_default_userId. destruct (strict_eq _ _).
  - rewrite obj_get_delete. reflexivity.
  - now rewrite build_params_userId.
Qed.

(** [init_body] up to the construction of the driver, as one step. *)
Lemma init_body_unfold (cfg : obj) (s : State) :
  let url := getPushwooshUrl P (obj_get "applicationCode" cfg)
               (obj_get "pushwooshApiUrl" cfg) in
  let prm := drop_default_userId K (build_params K P (VObj cfg) url) in
  let prev :=
    obj_spread (obj_spread [] (spread_of (kv_lookup KEY_API_PARAMS (keyValue s))))
               (spread_of (kv_lookup KEY_INIT_PARAMS (keyValue s))) in
  init_body K P W (VObj cfg) s
  = if negb (truthy (obj_get "applicationCode" cfg))
    then (Throw (Error "no application code"), s)
    else (init_driver P W prm (obj_get "scope" cfg) (obj_get "applicationCode" cfg) url ;;
          init_defaultActions K P W)
           (set_init_flags
              (needResubscribe prev prm)
              (needRegisterUser prev prm)
              (needSetTags (obj_get "tags" prev) (obj_get "tags" prm))
              (set_subscribeWidgetConfig (obj_get "subscribeWidget" prm)
                 (set_params (VObj prm) s))).
Proof.
  intros url prm prev. unfold init_body, get_prop, spread_of, bind at 1 2 3, ret at 1 2 3.
  destruct (negb (truthy (obj_get "applicationCode" cfg))); reflexivity.
Qed.

Lemma quiet_no_install_call (l : list action) :
  Forall quiet l -> count_actions (is_call_of is_install_call) l = 0.
Proof.
  unfold count_actions.
  induction 1 as [|a t Ha _ IH]; simpl; [reflexivity|].
  destruct a as [c| | | | | | |]; simpl; try exact IH.
  unfold quiet in Ha. simpl in Ha. apply negb_true_iff in Ha. now rewrite Ha.
Qed.

(** C2, as amended.  Take a startup on an instance whose diff flags are
    down (a new instance), over a store in which a previous run wrote the
    current parameters over the init parameters and the current SDK version,
    and in which the API parameters are exactly the transport's current
    device parameters [d]; let the transport report [d] whenever asked.
    Then the four diff flags and the version flag are false when the startup
    ends.  If moreover the transport grants no new subscription to an
    unregistered device during this startup (no [askSubscribe(false)] is
    fulfilled in it), the SDK version is not rewritten and the startup
    starts no [registerDevice], [setTags] or [registerUser] call. *)
Theorem C2_second_startup_selects_nothing (cfg old : obj) (s : State) :
  let url := getPushwooshUrl P (obj_get "applicationCode" cfg)
               (obj_get "pushwooshApiUrl" cfg) in
  let prm := drop_default_userId K (build_params K P (VObj cfg) url) in
  let s2 := snd (init K P W (VObj cfg) s) in
  settled P d s ->
  kv_lookup KEY_INIT_PARAMS (keyValue s) = VObj (obj_spread old prm) ->
  NoDup (obj_keys old) ->
  NoDup (obj_keys cfg) ->
  is_primitive (obj_get "applicationCode" cfg) = true ->
  is_primitive (obj_get "userId" cfg) = true ->
  settled P d s2
  /\ (count_actions is_new_grant (trace s2) = count_actions is_new_grant (trace s) ->
      exists l, trace s2 = trace s ++ l
                /\ Forall quiet l
                /\ count_actions (is_call_of is_install_call) l = 0).
Proof.
  intros url prm s2 Hs Hinit Ho Hnd Hpa Hpu. subst s2.
  rewrite init_through_body in *. simpl snd in *.
  assert (G : settled P d (snd (init_body K P W (VObj cfg) s))
              /\ exists l, trace (snd (init_body K P W (VObj cfg) s)) = trace s ++ l
                 /\ (existsb is_new_grant l = true \/ Forall quiet l)).
  { rewrite init_body_unfold. fold url. fold prm.
    destruct (negb (truthy (obj_get "applicationCode" cfg))) eqn:Hac.
    - simpl. split; [exact Hs|].
      exists []. split; [now rewrite app_nil_r|]. right. constructor.
    - apply negb_false_iff in Hac.
      rewrite Hinit. destruct Hs as (H1 & H2 & H3 & H4 & H5 & H6). rewrite H6.
      simpl spread_of.
      assert (Hacp : obj_get "applicationCode" prm = obj_get "applicationCode" cfg)
        by now apply params_applicationCode.
      destruct (flags_clear_on_persisted d old prm Ho (build_params_nodup _ _)
                  (build_params_has_tags _ _)) as (F1 & F2 & F3);
        [ now rewrite Hacp | now rewrite Hacp
        | now apply params_userId_primitive | ].
      rewrite F1, F2, F3.
      match goal with
      | |- settled _ _ (snd (_ ?st)) /\ _ =>
          assert (Hst : settled P d st) by (repeat split; assumption);
          destruct (settled_init_tail prm (obj_get "scope" cfg)
                      (obj_get "applicationCode" cfg) url st Hst) as [G1 _];
          destruct (unless_init_tail prm (obj_get "scope" cfg)
                      (obj_get "applicationCode" cfg) url st) as [l [E D]]
      end.
      split; [exact G1|]. exists l. split; [exact E|].
      destruct D as [D|D]; [now left | right; now apply D]. }
  destruct G as [(H1 & H2 & H3 & H4 & H5 & H6) [l [E D]]].
  split; [repeat split; assumption|].
  simpl trace. intros Hgrant.
  rewrite E, count_actions_app in Hgrant.
  destruct D as [D|D].
  - apply existsb_count in D. lia.
  - exists l. split; [exact E|]. split; [exact D | now apply quiet_no_install_call].
Qed.
End SecondRunInit.

Lemma C2_second_startup_witness :
  settled P_worker [("hwid", VStr "h1"); ("pushToken", VStr "t1")]
    (reload P_worker after_first_run)
  /\ count_actions (is_call_of is_install_call)
       (trace (snd (init K0 P_worker W_granted (VObj sample_config)
                      (reload P_worker after_first_run)))) = 0.
Proof.
  assert (Hs : settled P_worker [("hwid", VStr "h1"); ("pushToken", VStr "t1")]
                 (reload P_worker after_first_run)).
  { unfold settled. split; [reflexivity|]. split; [reflexivity|].
    split; [reflexivity|]. split; [reflexivity|].
    split; vm_compute; reflexivity. }
  split; [exact Hs|].
  destruct (C2_second_startup_selects_nothing K0 P_worker W_granted
              [("hwid", VStr "h1"); ("pushToken", VStr "t1")]) with
    (old := @nil (string * value)) (cfg := sample_config)
    (s := reload P_worker after_first_run) as [_ H].
  - repeat constructor; simpl; intuition discriminate.
  - intros t v H. simpl in H. now injection H as <-.
  - exact Hs.
  - vm_compute. reflexivity.
  - constructor.
  - repeat constructor; simpl; intuition discriminate.
  - reflexivity.
  - reflexivity.
  - destruct H as (l & E & _ & C); [vm_compute; reflexivity|].
    rewrite E. exact C.
Defined.

(** C2 as stated fails in two ways.  A first run over a store that held an
    API parameter the transport no longer reports completes, with the three
    entries written; the merged entry never serialises like the transport's
    parameters again, so the second run raises [needRegisterDevice] and
    registers the device.  And while the backend rejects the install calls,
    the device is never marked registered: the second run, all four flags
    false, subscribes again and its forced install starts the three calls. *)
Lemma C2_counterexample :
  (ready after_first_run_stale = true
   /\ kv_lookup KEY_SDK_VERSION (keyValue after_first_run_stale) = getVersion P_worker
   /\ kv_lookup KEY_API_PARAMS (keyValue after_first_run_stale)
      = VObj [("legacyToken", VStr "t0"); ("hwid", VStr "h1"); ("pushToken", VStr "t1")]
   /\ _isNeedRegisterDevice after_second_run_stale = true
   /\ count_actions (is_call_of is_install_call) (trace after_second_run_stale) = 1)
  /\ (ready after_first_run_rejected = true
      /\ kv_lookup KEY_SDK_VERSION (keyValue after_first_run_rejected) = getVersion P_worker
      /\ (_isNeedResubscribe after_second_run_rejected,
          _isNeedRegisterUser after_second_run_rejected,
          _isNeedSetTags after_second_run_rejected,
          _isNeedRegisterDevice after_second_run_rejected) = (false, false, false, false)
      /\ count_actions (is_call_of is_install_call) (trace after_second_run_rejected) = 3).
Proof.
  split.
  - split; [vm_compute; reflexivity|]. split; [vm_compute; reflexivity|].
    split; [vm_compute; reflexivity|]. split; vm_compute; reflexivity.
  - split; [vm_compute; reflexivity|]. split; [vm_compute; reflexivity|].
    split; vm_compute; reflexivity.
Qed.

(** ** What a run persists *)

Lemma driver_call_reads_only W c s v s' :
  driver_call W c s = (Ok v, s') ->
  keyValue s' = keyValue s /\ params s' = params s
  /\ exists t, answer W t c = Some v.
Proof.
  unfold driver_call, start, await, bind, gets, modify, log_action, ret, throw.
  destruct (driver s) eqn:Ed; simpl; [|discriminate].
  destruct (answer W _ c) eqn:Ea; simpl; intros H; inversion H; subst; simpl.
  repeat split. eauto.
Qed.

Lemma get_prop_ok v k s x s' : get_prop v k s = (Ok x, s') -> s' = s.
Proof. destruct v; simpl; intros H; inversion H; reflexivity. Qed.

(** A successful [initApi] leaves in the store the transport's parameters
    merged over the previous API parameters, and the current [params] merged
    over the previous init parameters. *)
Lemma initApi_persists (W : World) (s s' : State) :
  initApi W s = (Ok tt, s') ->
  exists dv,
    (exists t, answer W t DriverGetAPIParams = Some dv)
    /\ kv_lookup KEY_API_PARAMS (keyValue s')
       = VObj (obj_spread (spread_of (kv_lookup KEY_API_PARAMS (keyValue s))) (spread_of dv))
    /\ kv_lookup KEY_INIT_PARAMS (keyValue s')
       = VObj (obj_spread (spread_of (kv_lookup KEY_INIT_PARAMS (keyValue s)))
                          (spread_of (params s)))
    /\ _isNeedRegisterDevice s'
       = needRegisterDevice dv (js_or (kv_lookup KEY_API_PARAMS (keyValue s)) (VObj [])).
Proof.
  intros H. unfold initApi in H.
  apply bind_ok_inv in H. destruct H as (prm & s0 & E0 & H). cbv beta in H.
  inversion E0; subst; clear E0.
  apply bind_ok_inv in H. destruct H as (dv & s1 & E1 & H). cbv beta in H.
  apply driver_call_reads_only in E1. destruct E1 as (Ekv & Eprm & Ht).
  exists dv. split; [exact Ht|].
  apply bind_ok_inv in H. destruct H as (lo & s2 & E2 & H). cbv beta zeta in H.
  inversion E2; subst; clear E2.
  apply bind_ok_inv in H. destruct H as (sv & s3 & E3 & H). cbv beta zeta in H.
  inversion E3; subst; clear E3.
  repeat (apply bind_ok_inv in H; destruct H as (? & ? & E & H); cbv beta zeta in H;
          apply get_prop_ok in E; subst).
  unfold keyValue_extend, keyValue_set, keyValue_get, await, bind, gets, modify,
    log_action, ret in H. simpl in H. inversion H; subst; clear H. simpl.
  rewrite !kv_lookup_put. simpl. rewrite ?Ekv, ?Eprm. repeat split; reflexivity.
Qed.

(** ** Subscribe, unsubscribe, the communication flag, the configuration check (C7, C3, C8) *)

Lemma try_catch_logged (m : M unit) (level msg : string) s :
  fst (try_catch m (fun _ => Logger_write level msg) s) = Ok tt.
Proof.
  unfold try_catch. destruct (m s) as [[[]|e] s']; reflexivity.
Qed.

(** C7.  Whatever the transport and the backend answer, and whether or not
    a driver or an API facade exists, [subscribe()] and [unsubscribe(notify)]
    return normally: neither throws to the caller. *)
Theorem C7_subscribe_unsubscribe_never_throw
    (K : Consts) (P : Platform) (W : World) (s : State) :
  fst (subscribe K P W s) = Ok tt /\
  forall notify, fst (unsubscribe W notify s) = Ok tt.
Proof.
  split.
  - unfold subscribe, bind, isCommunicationEnabled, keyValue_get, gets, ret. simpl.
    destruct (negb _); [reflexivity|]. apply try_catch_logged.
  - intros notify. unfold unsubscribe. apply try_catch_logged.
Qed.

Lemma frame_entry_kept k v : frame (entry_kept k v).
Proof. split; intros s x H; exact H. Qed.

Ltac entry_side :=
  let Hi := fresh "Hi" in
  first [ exact Logic.I | intros; exact Logic.I
        | intros ? Hi; unfold entry_kept in *; simpl; rewrite ?kv_lookup_put; simpl;
          exact Hi ].

Ltac disabled_side :=
  let Hi := fresh "Hi" in
  first [ reflexivity | intros; reflexivity
        | intros ? Hi; unfold entry_kept in *; simpl; rewrite ?kv_lookup_put; simpl;
          exact Hi ].

Lemma calm_counts (l : list action) :
  Forall calm l ->
  count_actions (is_call_of is_ask_subscribe) l = 0
  /\ count_actions (is_call_of is_install_call) l = 0.
Proof.
  unfold count_actions.
  induction 1 as [|a t Ha _ [IH1 IH2]]; simpl; [split; reflexivity|].
  destruct a as [c| | | | | | |]; simpl; try (split; assumption).
  unfold calm in Ha. simpl in Ha. apply andb_true_iff in Ha. destruct Ha as [H1 H2].
  apply negb_true_iff in H1, H2. rewrite H1, H2. split; assumption.
Qed.

Section CommunicationDisabled.
Variables (K : Consts) (P : Platform) (W : World).
Let Inv := entry_kept KEY_COMMUNICATION_ENABLED (VNum 0).
Let F := frame_entry_kept KEY_COMMUNICATION_ENABLED (VNum 0).

Lemma disabled_subscribe_logs (s : State) :
  Inv s ->
  subscribe K P W s
  = (Ok tt, set_trace (trace s ++ [ALog "error" "Communication is disabled"]) s).
Proof.
  intros H. unfold subscribe, bind, isCommunicationEnabled, keyValue_get, gets, ret. simpl.
  unfold Inv, entry_kept in H. rewrite H. reflexivity.
Qed.

Lemma disabled_installDevice_idle (force : value) (s : State) :
  Inv s -> snd (installDevice P W force s) = s.
Proof.
  intros H. unfold installDevice, bind, isCommunicationEnabled, keyValue_get, gets, ret.
  simpl. destruct (api s); [|reflexivity].
  unfold Inv, entry_kept in H. rewrite H. reflexivity.
Qed.

Lemma disabled_subscribe : keeps Inv calm (subscribe K P W).
Proof.
  intros s Hs. rewrite (disabled_subscribe_logs s Hs). simpl. split; [exact Hs|].
  eexists. split; [reflexivity|]. repeat constructor.
Qed.

Lemma disabled_installDevice (force : value) : keeps Inv calm (installDevice P W force).
Proof. apply keeps_unchanged. intros s Hs. now apply disabled_installDevice_idle. Qed.

Lemma disabled_initApi : keeps Inv calm (initApi W).
Proof. unfold initApi. keeps_structure F disabled_side. Qed.

Lemma disabled_defaultProcess : keeps Inv calm (defaultProcess K P W).
Proof.
  pose proof disabled_subscribe. pose proof disabled_installDevice.
  pose proof disabled_initApi.
  unfold defaultProcess, startup_prologue, permission_branch, startup_epilogue,
    removeRegistrationStatus, unsubscribe, needForcedOpen, callApplicationOpen.
  keeps_structure F disabled_side.
Qed.

Lemma disabled_init (ip : value) : keeps Inv calm (init K P W ip).
Proof.
  pose proof disabled_defaultProcess.
  unfold init, init_body, init_defaultActions, init_driver, getParams.
  keeps_structure F disabled_side.
Qed.

End CommunicationDisabled.

(** C3.  When the stored communication flag is 0, [subscribe] only logs and
    returns: no subscription request, no backend call, no error.  The
    install sequence is private and runs on an instance that has its API
    facade: its call sites are [registerDuringSubscribe], reached from
    [subscribe] behind the check of the flag, and the startup, right after
    [initApi] has built the facade.  There it returns with the state
    untouched, whatever the diff flags and the force parameter.  Over a
    whole startup, the flag stays 0, no subscription request is made to the
    transport and no [registerDevice], [setTags] or [registerUser] call is
    started. *)
Theorem C3_communication_disabled_suppresses
    (K : Consts) (P : Platform) (W : World) (s : State) :
  kv_lookup KEY_COMMUNICATION_ENABLED (keyValue s) = VNum 0 ->
  subscribe K P W s
    = (Ok tt, set_trace (trace s ++ [ALog "error" "Communication is disabled"]) s)
  /\ (forall force, api s <> None -> installDevice P W force s = (Ok tt, s))
  /\ (forall force s1, initApi W s = (Ok tt, s1) ->
        installDevice P W force s1 = (Ok tt, s1))
  /\ (forall ip,
        let s' := snd (init K P W ip s) in
        kv_lookup KEY_COMMUNICATION_ENABLED (keyValue s') = VNum 0
        /\ exists l, trace s' = trace s ++ l
             /\ count_actions (is_call_of is_ask_subscribe) l = 0
             /\ count_actions (is_call_of is_install_call) l = 0).
Proof.
  intros H.
  assert (G : forall force s0,
            kv_lookup KEY_COMMUNICATION_ENABLED (keyValue s0) = VNum 0 ->
            api s0 <> None -> installDevice P W force s0 = (Ok tt, s0)).
  { intros force s0 H0 Ha.
    unfold installDevice, bind, isCommunicationEnabled, keyValue_get, gets, ret.
    simpl. destruct (api s0); [|congruence]. rewrite H0. reflexivity. }
  split; [now apply disabled_subscribe_logs|]. split; [|split].
  - intros force Ha. now apply G.
  - intros force s1 E. apply G.
    + destruct (disabled_initApi W s H) as [H1 _]. rewrite E in H1. exact H1.
    + now apply (initApi_ok W s s1).
  - intros ip s'. subst s'.
    destruct (disabled_init K P W ip s H) as [H1 [l [E A]]].
    split; [exact H1|]. exists l. split; [exact E|]. now apply calm_counts.
Qed.

Lemma C3_communication_disabled_witness :
  kv_lookup KEY_COMMUNICATION_ENABLED (keyValue communication_disabled) = VNum 0
  /\ subscribe K0 P_worker W_granted communication_disabled
     = (Ok tt, set_trace (trace communication_disabled
                          ++ [ALog "error" "Communication is disabled"])
                communication_disabled)
  /\ installDevice P_worker W_granted (VBool true) communication_disabled
     = (Ok tt, communication_disabled).
Proof.
  assert (H : kv_lookup KEY_COMMUNICATION_ENABLED (keyValue communication_disabled) = VNum 0)
    by (vm_compute; reflexivity).
  destruct (C3_communication_disabled_suppresses K0 P_worker W_granted
              communication_disabled H) as (H1 & H2 & _).
  split; [exact H|]. split; [exact H1|]. apply H2. vm_compute. discriminate.
Defined.

(** C8.  A configuration whose [applicationCode] is missing or empty makes
    [init] throw ['no application code'] at once: the store, [localStorage],
    the driver, the API facade, the diff flags and the trace are as before;
    the one assignment made is the private copy [_initParams] of line 224. *)
Theorem C8_init_rejects_missing_application_code
    (K : Consts) (P : Platform) (W : World) (cfg : obj) (s : State) :
  truthy (obj_get "applicationCode" cfg) = false ->
  init K P W (VObj cfg) s
    = (Throw (Error "no application code"), set_initParams (VObj cfg) s)
  /\ keyValue (snd (init K P W (VObj cfg) s)) = keyValue s
  /\ registration_status (snd (init K P W (VObj cfg) s)) = registration_status s
  /\ driver (snd (init K P W (VObj cfg) s)) = driver s
  /\ api (snd (init K P W (VObj cfg) s)) = api s
  /\ params (snd (init K P W (VObj cfg) s)) = params s
  /\ ready (snd (init K P W (VObj cfg) s)) = ready s
  /\ trace (snd (init K P W (VObj cfg) s)) = trace s.
Proof.
  intros H.
  assert (E : init K P W (VObj cfg) s
              = (Throw (Error "no application code"), set_initParams (VObj cfg) s)).
  { unfold init, init_body, bind, modify, get_prop, ret. simpl. rewrite H. reflexivity. }
  rewrite E. repeat split.
Qed.

Lemma C8_init_rejects_witness :
  truthy (obj_get "applicationCode" [("applicationCode", VStr ""); ("userId", VStr "alice")])
    = false
  /\ init K0 P_worker W_granted
       (VObj [("applicationCode", VStr ""); ("userId", VStr "alice")]) after_first_run
     = (Throw (Error "no application code"),
        set_initParams (VObj [("applicationCode", VStr ""); ("userId", VStr "alice")])
          after_first_run).
Proof.
  split; [reflexivity|].
  apply (C8_init_rejects_missing_application_code K0 P_worker W_granted
           [("applicationCode", VStr ""); ("userId", VStr "alice")] after_first_run).
  reflexivity.
Defined.

(** * Further properties *)

(** ** Accessors *)

(** X1.  [onServiceWorkerMessage] accepts any message: whatever [event] is
    ([undefined], [null], a primitive, an object with or without [data]), it
    returns normally and emits exactly one event on the bus.  The type and
    the payload it emits are never [undefined]; when the message carries no
    usable [data], they are the empty string and the empty object. *)
Theorem onServiceWorkerMessage_emits_once (event : value) (s : State) :
  exists type payload,
    onServiceWorkerMessage event s
      = (Ok tt, set_trace (trace s ++ [AEmit (EVENT_DYNAMIC type) payload]) s)
    /\ type <> VUndef
    /\ payload <> VUndef
    /\ (truthy (obj_get "data" (spread_of event)) = false ->
        type = VStr "" /\ payload = VObj []).
Proof.
  unfold onServiceWorkerMessage.
  assert (E : get_prop (js_or event (VObj [])) "data" s
              = (Ok (obj_get "data" (spread_of event)), s)).
  { destruct event as [| |[]|n|x|l|l]; try reflexivity.
    - unfold js_or. simpl. destruct (n =? 0)%Z; reflexivity.
    - unfold js_or. simpl. destruct (x =? "")%string; reflexivity. }
  unfold bind at 1. rewrite E. cbv zeta.
  set (data := obj_get "data" (spread_of event)).
  set (message := js_or (with_default data (VObj [])) (VObj [])).
  assert (Hm : get_prop message "type" s = (Ok (obj_get "type" (spread_of message)), s)
               /\ get_prop message "payload" s
                  = (Ok (obj_get "payload" (spread_of message)), s)
               /\ (truthy data = false -> message = VObj [])).
  { unfold message. destruct data as [| |[]|n|x|l|l]; simpl; try (repeat split; reflexivity).
    - split; [reflexivity|]. split; [reflexivity|]. discriminate.
    - unfold js_or. simpl. destruct (n =? 0)%Z; repeat split; try reflexivity; discriminate.
    - unfold js_or. simpl. destruct (x =? "")%string; repeat split; try reflexivity; discriminate.
    - repeat split; discriminate.
    - repeat split; discriminate. }
  destruct Hm as (Ht & Hp & He).
  unfold bind. rewrite Ht, Hp.
  exists (with_default (obj_get "type" (spread_of message)) (VStr "")),
         (with_default (obj_get "payload" (spread_of message)) (VObj [])).
  split; [reflexivity|].
  split; [destruct (obj_get "type" _); discriminate|].
  split; [destruct (obj_get "payload" _); discriminate|].
  intros Hd. rewrite (He Hd). split; reflexivity.
Qed.

(** X2.  [getUserId] only reads.  It answers the persisted user id when that
    is truthy, otherwise the in-memory one when that is truthy, otherwise
    [null]: the answer is [null] or a truthy value, never [undefined] or an
    empty string.  It throws, a [TypeError], exactly when no truthy user id
    is persisted and [params] has not been set. *)
Theorem getUserId_null_or_truthy (s : State) :
  let stored :=
    obj_get "userId"
      (obj_spread (obj_spread [] (spread_of (kv_lookup KEY_API_PARAMS (keyValue s))))
                  (spread_of (kv_lookup KEY_INIT_PARAMS (keyValue s)))) in
  let own := obj_get "userId" (spread_of (params s)) in
  snd (getUserId s) = s
  /\ fst (getUserId s)
     = (if truthy stored then Ok stored
        else match params s with
             | VUndef | VNull => Throw (TypeError "userId")
             | _ => Ok (if truthy own then own else VNull)
             end)
  /\ (forall v, fst (getUserId s) = Ok v -> v = VNull \/ truthy v = true).
Proof.
  intros stored own.
  assert (E : getUserId s
              = (if truthy stored then Ok stored
                 else match params s with
                      | VUndef | VNull => Throw (TypeError "userId")
                      | _ => Ok (if truthy own then own else VNull)
                      end, s)).
  { unfold getUserId, getParams, keyValue_get, get_prop, bind, gets, ret, throw. simpl.
    fold stored. destruct (truthy stored); [reflexivity|].
    unfold js_or, own. destruct (params s); reflexivity. }
  rewrite E. simpl. split; [reflexivity|]. split; [reflexivity|].
  intros v. destruct (truthy stored) eqn:Hs.
  - intros H. injection H as <-. now right.
  - destruct (params s); try discriminate;
      intros H; injection H as <-;
      (destruct (truthy own) eqn:Ho; [now right | now left]).
Qed.

(** X3.  [getHWID] and [getPushToken] ask the transport each time and answer
    the field of what it reports.  They throw when there is no driver, when
    the transport rejects, and when it reports [undefined] or [null]; in
    every case the store is left as it was and the only call made is the
    one to the transport. *)
Theorem getHWID_getPushToken_ask_transport (W : World) (s : State) :
  let field := fun (k : string) =>
    match driver s with
    | None => Throw (TypeError "driver")
    | Some _ =>
        match answer W (length (trace s)) DriverGetAPIParams with
        | None => Throw (Rejection DriverGetAPIParams)
        | Some VUndef | Some VNull => Throw (TypeError k)
        | Some v => Ok (obj_get k (spread_of v))
        end
    end in
  fst (getHWID W s) = field "hwid"
  /\ fst (getPushToken W s) = field "pushToken"
  /\ snd (getPushToken W s) = snd (getHWID W s)
  /\ keyValue (snd (getHWID W s)) = keyValue s
  /\ exists l, trace (snd (getHWID W s)) = trace s ++ l
               /\ Forall (fun a => a = ACall DriverGetAPIParams
                                   \/ exists b, a = ASettled DriverGetAPIParams b) l.
Proof.
  intros field. subst field.
  unfold getHWID, getPushToken, driver_call, start, await, get_prop, bind, gets,
    modify, log_action, ret, throw.
  destruct (driver s); simpl.
  - destruct (answer W (length (trace s)) DriverGetAPIParams) as [[| |b|n|x|l|l]|]; simpl;
      rewrite <- app_assoc; repeat split; try reflexivity;
      eexists; (split; [reflexivity|]);
      (constructor; [now left | constructor; [right; eauto | constructor]]).
  - repeat split; try reflexivity. exists []. rewrite app_nil_r. split; [reflexivity|constructor].
Qed.

Lemma getHWID_getPushToken_witness :
  fst (getHWID W_granted after_first_run) = Ok (VStr "h1")
  /\ fst (getPushToken W_granted after_first_run) = Ok (VStr "t1")
  /\ fst (getHWID W_granted (new_Pushwoosh P_worker [] None)) = Throw (TypeError "driver").
Proof.
  destruct (getHWID_getPushToken_ask_transport W_granted after_first_run)
    as (H1 & H2 & _).
  destruct (getHWID_getPushToken_ask_transport W_granted (new_Pushwoosh P_worker [] None))
    as (H3 & _).
  split; [rewrite H1; vm_compute; reflexivity|].
  split; [rewrite H2; vm_compute; reflexivity|].
  rewrite H3. reflexivity.
Defined.

(** X4.  Over two persisted entries, [getParams] answers their merge, in
    which a key of the init parameters wins over the same key of the API
    parameters; it reads only. *)
Theorem getParams_init_over_api (s : State) (a i : obj) :
  kv_lookup KEY_API_PARAMS (keyValue s) = VObj a ->
  kv_lookup KEY_INIT_PARAMS (keyValue s) = VObj i ->
  NoDup (obj_keys a) ->
  NoDup (obj_keys i) ->
  exists prm,
    getParams s = (Ok (VObj prm), s)
    /\ forall k, obj_get k prm
                 = if existsb (String.eqb k) (obj_keys i) then obj_get k i
                   else obj_get k a.
Proof.
  intros Ha Hi Hna Hni. unfold getParams, keyValue_get, bind, gets, ret.
  rewrite Ha, Hi. simpl. eexists. split; [reflexivity|].
  intros k. rewrite (obj_get_spread _ _ _ Hni), (obj_get_spread _ _ _ Hna).
  destruct (existsb (String.eqb k) (obj_keys i)); [reflexivity|].
  destruct (existsb (String.eqb k) (obj_keys a)) eqn:E; [reflexivity|].
  simpl. symmetry. now apply obj_get_absent.
Qed.

Lemma getParams_init_over_api_witness :
  exists prm,
    getParams after_first_run = (Ok (VObj prm), after_first_run)
    /\ obj_get "hwid" prm = VStr "h1"
    /\ obj_get "userId" prm = VStr "alice".
Proof.
  destruct (getParams_init_over_api after_first_run
              [("hwid", VStr "h1"); ("pushToken", VStr "t1")]
              (spread_of (kv_lookup KEY_INIT_PARAMS (keyValue after_first_run))))
    as (prm & H1 & H2).
  - vm_compute. reflexivity.
  - vm_compute. reflexivity.
  - repeat constructor; simpl; intuition discriminate.
  - vm_compute. repeat constructor; simpl; intuition discriminate.
  - exists prm. split; [exact H1|]. split; rewrite H2; vm_compute; reflexivity.
Defined.

(** ** Counting: rules *)

Lemma count_actions_avoids (p : action -> bool) (l : list action) :
  Forall (avoids p) l -> count_actions p l = 0.
Proof.
  unfold count_actions. induction 1 as [|a t Ha _ IH]; simpl; [reflexivity|].
  unfold avoids in Ha. now rewrite Ha.
Qed.

Lemma adds_none_of_keeps {A} (p : action -> bool) (m : M A) :
  keeps anything (avoids p) m -> adds_at_most p 0 m.
Proof.
  intros H s. destruct (H s Logic.I) as [_ [l [E Hl]]].
  rewrite E, count_actions_app, (count_actions_avoids p l Hl). lia.
Qed.

Lemma adds_bind {A B} (p : action -> bool) (n1 n2 : nat) (m : M A) (k : A -> M B) :
  adds_at_most p n1 m -> (forall a, adds_at_most p n2 (k a)) ->
  adds_at_most p (n1 + n2) (bind m k).
Proof.
  intros Hm Hk s. unfold bind. specialize (Hm s).
  destruct (m s) as [[a|e] s1]; simpl in *.
  - specialize (Hk a s1). lia.
  - lia.
Qed.

Lemma adds_try_catch {A} (p : action -> bool) (n1 n2 : nat) (m : M A) (h : error -> M A) :
  adds_at_most p n1 m -> (forall e, adds_at_most p n2 (h e)) ->
  adds_at_most p (n1 + n2) (try_catch m h).
Proof.
  intros Hm Hh s. unfold try_catch. specialize (Hm s).
  destruct (m s) as [[a|e] s1]; simpl in *.
  - lia.
  - specialize (Hh e s1). lia.
Qed.

Lemma adds_weaken {A} (p : action -> bool) (n n' : nat) (m : M A) :
  n <= n' -> adds_at_most p n m -> adds_at_most p n' m.
Proof. intros Hn Hm s. specialize (Hm s). lia. Qed.

Lemma adds_log (p : action -> bool) (a : action) :
  adds_at_most p 1 (log_action a).
Proof.
  intros s. simpl. rewrite count_actions_app. unfold count_actions at 2. simpl.
  destruct (p a); simpl; lia.
Qed.

Ltac avoids_side := first [ reflexivity | intros; reflexivity | intros; exact Logic.I ].

(** ** The session-open call *)

Ltac count_solve := rewrite ?count_actions_app; unfold count_actions; simpl; lia.

Lemma callApplicationOpen_cases (K : Consts) (W : World) (force : value) (s : State) :
  let s1 := snd (callApplicationOpen K W force s) in
  let n := count_actions (is_call_of is_applicationOpen) in
  (n (trace s1) = n (trace s)
   /\ (kv_lookup KEY_LAST_SENT_APP_OPEN (keyValue s1)
       = kv_lookup KEY_LAST_SENT_APP_OPEN (keyValue s)
       \/ kv_lookup KEY_LAST_SENT_APP_OPEN (keyValue s1)
          = VNum (now W (length (trace s) + 2))))
  \/ (n (trace s1) = n (trace s) + 1
      /\ kv_lookup KEY_LAST_SENT_APP_OPEN (keyValue s1)
         = VNum (now W (length (trace s) + 2))).
Proof.
  intros s1 n. subst s1 n.
  assert (J : forall z, js_or (VNum z) (VNum z) = VNum z).
  { intros z. unfold js_or. now destruct (truthy _). }
  unfold callApplicationOpen, driver_call, api_start, start, await, Promise_all, await,
    keyValue_set, keyValue_get, get_prop, bind, gets, modify, log_action, ret, throw.
  destruct (driver s); [|left; split; [reflexivity | left; reflexivity]].
  simpl. destruct (answer W (length (trace s)) DriverGetAPIParams) as [dv|]; simpl;
    [|left; split; [count_solve | left; reflexivity]].
  rewrite !length_app. simpl.
  replace (length (trace s) + 1 + 1) with (length (trace s) + 2) by lia.
  rewrite J.
  destruct (isSafari s); simpl.
  - destruct dv as [| |b|z|x|l|l]; simpl;
      try (left; split; [count_solve | left; reflexivity]);
      match goal with
      | |- context [truthy (obj_get "hwid" ?o)] => destruct (truthy (obj_get "hwid" o))
      | _ => idtac
      end; simpl;
      try (left; split; [count_solve | left; reflexivity]);
      (destruct (truthy force || _)%bool; simpl;
       [|left; split; [count_solve | left; reflexivity]]);
      (destruct (api s); simpl;
       [|left; split; [count_solve | right; rewrite kv_lookup_put; reflexivity]]);
      rewrite ?length_app; simpl;
      (destruct (answer W _ ApiApplicationOpen); simpl;
       right; (split; [count_solve | rewrite kv_lookup_put; reflexivity])).
  - destruct (truthy force || _)%bool; simpl;
      [|left; split; [count_solve | left; reflexivity]].
    destruct (api s); simpl;
      [|left; split; [count_solve | right; rewrite kv_lookup_put; reflexivity]].
    rewrite ?length_app; simpl.
    destruct (answer W _ ApiApplicationOpen); simpl;
      right; split; first [count_solve | rewrite kv_lookup_put; reflexivity].
Qed.

Lemma callApplicationOpen_within_period (K : Consts) (W : World) (force : value)
    (s : State) (last : Z) :
  truthy force = false ->
  kv_lookup KEY_LAST_SENT_APP_OPEN (keyValue s) = VNum last ->
  (now W (length (trace s) + 2) - last <= PERIOD_SEND_APP_OPEN K)%Z ->
  count_actions (is_call_of is_applicationOpen)
    (trace (snd (callApplicationOpen K W force s)))
  = count_actions (is_call_of is_applicationOpen) (trace s)
  /\ keyValue (snd (callApplicationOpen K W force s)) = keyValue s.
Proof.
  intros Hf Hl Hp.
  unfold callApplicationOpen, driver_call, api_start, start, await, Promise_all, await,
    keyValue_set, keyValue_get, get_prop, bind, gets, modify, log_action, ret, throw.
  destruct (driver s); [|split; reflexivity].
  simpl. destruct (answer W (length (trace s)) DriverGetAPIParams) as [dv|]; simpl;
    [|split; [count_solve | reflexivity]].
  rewrite !length_app. simpl.
  replace (length (trace s) + 1 + 1) with (length (trace s) + 2) by lia.
  rewrite Hl, Hf. simpl.
  assert (E : (PERIOD_SEND_APP_OPEN K <? now W (length (trace s) + 2) - last)%Z = false)
    by (apply Z.ltb_ge; exact Hp).
  rewrite E.
  destruct (isSafari s); simpl; [|split; [count_solve | reflexivity]].
  destruct dv as [| |b|z|x|l|l]; simpl; try (split; [count_solve | reflexivity]);
    match goal with
    | |- context [truthy (obj_get "hwid" ?o)] => destruct (truthy (obj_get "hwid" o))
    | _ => idtac
    end; simpl; split; first [count_solve | reflexivity].
Qed.

(** X5.  The session-open call is throttled: of two consecutive calls of
    [callApplicationOpen], the second not forced and reading the clock no
    more than [PERIOD_SEND_APP_OPEN] after the first did, at most one starts
    the backend [applicationOpen]; a call that starts it has stamped the
    store with the time it read. *)
Theorem callApplicationOpen_once_per_period (K : Consts) (W : World)
    (force1 force2 : value) (s : State) :
  let s1 := snd (callApplicationOpen K W force1 s) in
  let s2 := snd (callApplicationOpen K W force2 s1) in
  let opened := count_actions (is_call_of is_applicationOpen) in
  truthy force2 = false ->
  (now W (length (trace s1) + 2) - now W (length (trace s) + 2)
   <= PERIOD_SEND_APP_OPEN K)%Z ->
  opened (trace s2) <= opened (trace s) + 1
  /\ (opened (trace s1) = opened (trace s) + 1 ->
      kv_lookup KEY_LAST_SENT_APP_OPEN (keyValue s1) = VNum (now W (length (trace s) + 2))
      /\ opened (trace s2) = opened (trace s1)
      /\ keyValue s2 = keyValue s1).
Proof.
  intros s1 s2 opened Hf Hp.
  destruct (callApplicationOpen_cases K W force1 s) as [[H1 H2]|[H1 H2]];
    fold s1 in H1, H2; fold opened in H1.
  - split.
    + destruct (callApplicationOpen_cases K W force2 s1) as [[G1 _]|[G1 _]];
        fold s2 in G1; fold opened in G1; lia.
    + intros H. lia.
  - destruct (callApplicationOpen_within_period K W force2 s1 _ Hf H2 Hp) as [G1 G2].
    fold s2 in G1, G2. fold opened in G1.
    split; [lia|]. intros _. split; [exact H2|]. split; [exact G1 | exact G2].
Qed.

Lemma callApplicationOpen_once_per_period_witness :
  count_actions (is_call_of is_applicationOpen)
    (trace (snd (callApplicationOpen K0 W_granted VUndef
                   (snd (callApplicationOpen K0 W_granted (VBool true) after_first_run)))))
  = count_actions (is_call_of is_applicationOpen) (trace after_first_run) + 1.
Proof.
  destruct (callApplicationOpen_once_per_period K0 W_granted (VBool true) VUndef
              after_first_run) as [_ H]; [reflexivity | vm_compute; discriminate |].
  destruct H as (_ & H2 & _); [vm_compute; reflexivity|].
  rewrite H2. vm_compute. reflexivity.
Defined.

(** X6.  On Safari, while the transport reports no hardware id, nothing is
    sent: [callApplicationOpen] returns normally without a store write and
    without a backend call, even when forced. *)
Theorem callApplicationOpen_safari_without_hwid (K : Consts) (W : World)
    (force : value) (s : State) (d : obj) :
  isSafari s = true ->
  driver s <> None ->
  answer W (length (trace s)) DriverGetAPIParams = Some (VObj d) ->
  truthy (obj_get "hwid" d) = false ->
  fst (callApplicationOpen K W force s) = Ok tt
  /\ keyValue (snd (callApplicationOpen K W force s)) = keyValue s
  /\ trace (snd (callApplicationOpen K W force s))
     = trace s ++ [ACall DriverGetAPIParams; ASettled DriverGetAPIParams true].
Proof.
  intros Hs Hd Ha Hh.
  unfold callApplicationOpen, driver_call, api_start, start, await, Promise_all, await,
    keyValue_set, keyValue_get, get_prop, bind, gets, modify, log_action, ret, throw.
  destruct (driver s); [|congruence]. simpl. rewrite Ha. simpl. rewrite Hs. simpl.
  rewrite Hh. simpl. rewrite <- app_assoc. repeat split; reflexivity.
Qed.

Lemma callApplicationOpen_safari_without_hwid_witness :
  fst (callApplicationOpen K0 W_safari_no_hwid (VBool true)
         safari_granted_before_defaultProcess) = Ok tt
  /\ keyValue (snd (callApplicationOpen K0 W_safari_no_hwid (VBool true)
                      safari_granted_before_defaultProcess))
     = keyValue safari_granted_before_defaultProcess.
Proof.
  destruct (callApplicationOpen_safari_without_hwid K0 W_safari_no_hwid (VBool true)
              safari_granted_before_defaultProcess [])
    as (H1 & H2 & _);
    [reflexivity | vm_compute; discriminate | reflexivity | reflexivity |].
  split; [exact H1 | exact H2].
Defined.

(** ** The forced session open of Safari *)



(** ** The communication switch *)

(** X8.  Once the backend has accepted the consent event,
    [setCommunicationEnabled] has stored the flag (1 for a truthy argument
    or none, 0 otherwise) and emitted the change event with the boolean,
    before it registers or de-registers the device: the flag and the event
    stay even when that last call is rejected, and [isCommunicationEnabled]
    then answers the boolean. *)
Theorem setCommunicationEnabled_stores_before_registering
    (K : Consts) (W : World) (argument : value) (s : State) :
  let enabled := truthy (match argument with VUndef => VBool true | v => v end) in
  let device_type :=
    obj_get "deviceType"
      (obj_spread (obj_spread [] (spread_of (kv_lookup KEY_API_PARAMS (keyValue s))))
                  (spread_of (kv_lookup KEY_INIT_PARAMS (keyValue s)))) in
  let consent :=
    ApiPostEvent (EVENT_GDPR_CONSENT K)
      (VObj [("channel", VBool enabled); ("device_type", device_type)]) in
  let final := if enabled then ApiRegisterDevice else ApiUnregisterDevice in
  let s' := snd (setCommunicationEnabled K W argument s) in
  api s <> None ->
  answer W (length (trace s)) consent <> None ->
  kv_lookup KEY_COMMUNICATION_ENABLED (keyValue s') = VNum (if enabled then 1 else 0)
  /\ fst (isCommunicationEnabled s') = Ok enabled
  /\ (exists b,
        trace s' = trace s ++ [ACall consent; ASettled consent true;
                               AKvWrite KEY_COMMUNICATION_ENABLED
                                 (VNum (if enabled then 1 else 0));
                               AEmit EVENT_ON_CHANGE_COMMUNICATION_ENABLED (VBool enabled);
                               ACall final; ASettled final b]
        /\ match fst (setCommunicationEnabled K W argument s) with
           | Ok _ => b = true
           | Throw e => b = false /\ e = Rejection final
           end).
Proof.
  intros enabled device_type consent final s' Ha Hc. subst s'.
  unfold setCommunicationEnabled, getParams, api_call, api_start, start, await,
    keyValue_set, keyValue_get, get_prop, emit, bind, gets, modify, log_action, ret, throw.
  destruct (api s) eqn:Ea; [|congruence]. simpl. rewrite Ea. simpl.
  fold device_type. fold enabled. fold consent.
  destruct (answer W (length (trace s)) consent) eqn:Ec; [|congruence]. simpl.
  clearbody consent. subst final. clearbody enabled.
  destruct enabled; simpl; rewrite ?Ea; simpl;
    unfold isCommunicationEnabled, keyValue_get, bind, gets, ret; simpl;
    match goal with
    | |- context [answer W ?t ?c] => destruct (answer W t c) eqn:Ef
    end; simpl; rewrite ?kv_lookup_put; simpl;
    (split; [reflexivity|]; split; [reflexivity|]);
    eexists; (split; [repeat rewrite <- app_assoc; reflexivity|]); auto.
Qed.

Lemma setCommunicationEnabled_stores_witness :
  kv_lookup KEY_COMMUNICATION_ENABLED
    (keyValue (snd (setCommunicationEnabled K0 W_granted (VBool false) after_first_run)))
    = VNum 0
  /\ fst (isCommunicationEnabled
            (snd (setCommunicationEnabled K0 W_granted (VBool false) after_first_run)))
     = Ok false.
Proof.
  destruct (setCommunicationEnabled_stores_before_registering K0 W_granted (VBool false)
              after_first_run) as (H1 & H2 & _);
    [vm_compute; discriminate | vm_compute; discriminate |].
  split; [exact H1 | exact H2].
Defined.

(** X9.  Without an API facade, or when the backend rejects the consent
    event, [setCommunicationEnabled] throws and changes nothing: the store
    is as before, no event is emitted, and the device is neither registered
    nor de-registered. *)
Theorem setCommunicationEnabled_needs_consent
    (K : Consts) (W : World) (argument : value) (s : State) :
  let enabled := truthy (match argument with VUndef => VBool true | v => v end) in
  let device_type :=
    obj_get "deviceType"
      (obj_spread (obj_spread [] (spread_of (kv_lookup KEY_API_PARAMS (keyValue s))))
                  (spread_of (kv_lookup KEY_INIT_PARAMS (keyValue s)))) in
  let consent :=
    ApiPostEvent (EVENT_GDPR_CONSENT K)
      (VObj [("channel", VBool enabled); ("device_type", device_type)]) in
  let s' := snd (setCommunicationEnabled K W argument s) in
  api s = None \/ answer W (length (trace s)) consent = None ->
  fst (setCommunicationEnabled K W argument s)
    = Throw (match api s with
             | None => Error "API is not inited"
             | Some _ => Rejection consent
             end)
  /\ keyValue s' = keyValue s
  /\ trace s' = trace s ++ match api s with
                           | None => []
                           | Some _ => [ACall consent; ASettled consent false]
                           end.
Proof.
  intros enabled device_type consent s' H. subst s'.
  unfold setCommunicationEnabled, getParams, api_call, api_start, start, await,
    keyValue_set, keyValue_get, get_prop, emit, bind, gets, modify, log_action, ret, throw.
  destruct (api s) eqn:Ea; simpl.
  - destruct H as [H|H]; [discriminate|]. rewrite Ea. simpl.
    fold device_type. fold enabled. fold consent. rewrite H. simpl.
    rewrite <- app_assoc. repeat split; reflexivity.
  - rewrite app_nil_r. repeat split; reflexivity.
Qed.

Lemma setCommunicationEnabled_needs_consent_witness :
  fst (setCommunicationEnabled K0 W_granted (VBool false) (new_Pushwoosh P_worker [] None))
    = Throw (Error "API is not inited")
  /\ keyValue (snd (setCommunicationEnabled K0 W_granted (VBool false)
                      (new_Pushwoosh P_worker [] None))) = [].
Proof.
  destruct (setCommunicationEnabled_needs_consent K0 W_granted (VBool false)
              (new_Pushwoosh P_worker [] None)) as (H1 & H2 & _);
    [left; reflexivity|].
  split; [exact H1 | exact H2].
Defined.

Lemma setCommunicationEnabled_flag (K : Consts) (W : World) (argument : value) (s : State) :
  let enabled := truthy (match argument with VUndef => VBool true | v => v end) in
  let device_type :=
    obj_get "deviceType"
      (obj_spread (obj_spread [] (spread_of (kv_lookup KEY_API_PARAMS (keyValue s))))
                  (spread_of (kv_lookup KEY_INIT_PARAMS (keyValue s)))) in
  let consent :=
    ApiPostEvent (EVENT_GDPR_CONSENT K)
      (VObj [("channel", VBool enabled); ("device_type", device_type)]) in
  let s' := snd (setCommunicationEnabled K W argument s) in
  api s <> None ->
  answer W (length (trace s)) consent <> None ->
  kv_lookup KEY_COMMUNICATION_ENABLED (keyValue s') = VNum (if enabled then 1 else 0)
  /\ api s' = api s.
Proof.
  intros enabled device_type consent s' Ha Hc. subst s'.
  unfold setCommunicationEnabled, getParams, api_call, api_start, start, await,
    keyValue_set, keyValue_get, get_prop, emit, bind, gets, modify, log_action, ret, throw.
  destruct (api s) eqn:Ea; [|congruence]. simpl. rewrite Ea. simpl.
  fold device_type. fold enabled. fold consent.
  destruct (answer W (length (trace s)) consent) eqn:Ec; [|congruence]. simpl.
  clearbody consent. clearbody enabled.
  destruct enabled; simpl; rewrite ?Ea; simpl;
    match goal with
    | |- context [answer W ?t ?c] => destruct (answer W t c) eqn:Ef
    end; simpl; rewrite ?kv_lookup_put; simpl; split; first [reflexivity | exact Ea].
Qed.

(** X10.  Switching communication off makes the instance inert: once the
    backend has accepted the consent event of [setCommunicationEnabled] with
    a falsy argument, and whether or not the de-registration that follows
    succeeds, [subscribe] only logs and the install sequence does nothing,
    whatever the diff flags and the force parameter. *)
Theorem communication_off_is_inert
    (K : Consts) (P : Platform) (W W' : World) (argument force : value) (s : State) :
  let device_type :=
    obj_get "deviceType"
      (obj_spread (obj_spread [] (spread_of (kv_lookup KEY_API_PARAMS (keyValue s))))
                  (spread_of (kv_lookup KEY_INIT_PARAMS (keyValue s)))) in
  let consent :=
    ApiPostEvent (EVENT_GDPR_CONSENT K)
      (VObj [("channel", VBool false); ("device_type", device_type)]) in
  let s' := snd (setCommunicationEnabled K W argument s) in
  api s <> None ->
  truthy argument = false ->
  argument <> VUndef ->
  answer W (length (trace s)) consent <> None ->
  subscribe K P W' s'
    = (Ok tt, set_trace (trace s' ++ [ALog "error" "Communication is disabled"]) s')
  /\ installDevice P W' force s' = (Ok tt, s').
Proof.
  intros device_type consent s' Ha Hf Hu Hc.
  assert (He : truthy (match argument with VUndef => VBool true | v => v end) = false)
    by (destruct argument; [congruence | exact Hf ..]).
  pose proof (setCommunicationEnabled_flag K W argument s) as H.
  cbv zeta in H. rewrite He in H. fold device_type in H. fold consent in H.
  destruct (H Ha Hc) as [H1 Hs]. fold s' in H1, Hs.
  assert (Hapi : api s' <> None) by congruence.
  split.
  - unfold subscribe, bind, isCommunicationEnabled, keyValue_get, gets, ret. simpl.
    rewrite H1. reflexivity.
  - unfold installDevice, bind, isCommunicationEnabled, keyValue_get, gets, ret.
    simpl. destruct (api s'); [|congruence]. rewrite H1. reflexivity.
Qed.

Lemma communication_off_is_inert_witness :
  installDevice P_worker W_granted (VBool true)
    (snd (setCommunicationEnabled K0 W_granted (VBool false) after_first_run))
  = (Ok tt, snd (setCommunicationEnabled K0 W_granted (VBool false) after_first_run)).
Proof.
  destruct (communication_off_is_inert K0 P_worker W_granted W_granted (VBool false)
              (VBool true) after_first_run) as [_ H];
    [vm_compute; discriminate | reflexivity | discriminate | vm_compute; discriminate |].
  exact H.
Defined.

(** ** The install sequence *)

Ltac trace_normal := repeat rewrite <- app_assoc; simpl app.

(** X11.  [installDevice] starts [registerDevice] at most once, emits no
    event other than the register event, and emits nothing when it throws;
    when it returns, it has emitted the register event exactly when it
    started [registerDevice]. *)
Theorem installDevice_register_event (P : Platform) (W : World) (force : value) (s : State) :
  exists l,
    trace (snd (installDevice P W force s)) = trace s ++ l
    /\ count_actions (is_call_of is_registerDevice) l <= 1
    /\ count_actions is_emit l = count_actions (is_emit_of EVENT_ON_REGISTER) l
    /\ match fst (installDevice P W force s) with
       | Ok _ => count_actions (is_emit_of EVENT_ON_REGISTER) l
                 = count_actions (is_call_of is_registerDevice) l
       | Throw _ => count_actions is_emit l = 0
       end.
Proof.
  unfold installDevice, isCommunicationEnabled, api_start, start, await, Promise_all,
    keyValue_set, keyValue_get, get_prop, emit, when, bind, gets, modify, log_action,
    ret, throw.
  destruct (api s) eqn:Ea; simpl;
    [|exists []; rewrite app_nil_r; repeat split; try reflexivity; unfold count_actions; simpl; lia].
  destruct (negb (negb _)); simpl;
    [exists []; rewrite app_nil_r; repeat split; try reflexivity; unfold count_actions; simpl; lia|].
  destruct (negb (strict_eq (getVersion P) (kv_lookup KEY_SDK_VERSION (keyValue s))));
    destruct (truthy force); simpl;
    destruct (_isNeedRegisterDevice s) eqn:Ed;
    destruct (_isNeedSetTags s) eqn:Et;
    destruct (_isNeedRegisterUser s) eqn:Eu;
    repeat (progress (simpl; rewrite ?Ea, ?Ed, ?Et, ?Eu, ?orb_true_r));
    try (destruct (kv_lookup KEY_INIT_PARAMS (keyValue s));
         repeat (progress (simpl; rewrite ?Ea, ?Ed, ?Et, ?Eu, ?orb_true_r)));
    trace_normal;
    (first [ eexists; split; [reflexivity|]
           | exists []; split; [now rewrite app_nil_r|] ];
     unfold count_actions; simpl; repeat split; lia).
Qed.

(** X12.  A completed install makes the next one idle.  With no diff flag
    raised, once [installDevice] has returned (forced or not), the SDK
    version it found or wrote is the current one, so a following unforced
    [installDevice] starts nothing and leaves the state as it is. *)
Theorem installDevice_then_idle (P : Platform) (W W' : World) (force : value) (s : State) :
  let s1 := snd (installDevice P W force s) in
  is_primitive (getVersion P) = true ->
  _isNeedRegisterDevice s = false ->
  _isNeedSetTags s = false ->
  _isNeedRegisterUser s = false ->
  fst (installDevice P W force s) = Ok tt ->
  installDevice P W' VUndef s1 = (Ok tt, s1).
Proof.
  intros s1 Hv Hd Ht Hu Hok.
  assert (H : api s1 <> None
              /\ _isNeedRegisterDevice s1 = false
              /\ _isNeedSetTags s1 = false
              /\ _isNeedRegisterUser s1 = false
              /\ (strict_eq (kv_lookup KEY_COMMUNICATION_ENABLED (keyValue s1)) (VNum 0) = true
                  \/ strict_eq (getVersion P) (kv_lookup KEY_SDK_VERSION (keyValue s1)) = true)).
  { subst s1. revert Hok.
    unfold installDevice, isCommunicationEnabled, api_start, start, await, Promise_all,
      keyValue_set, keyValue_get, get_prop, emit, when, bind, gets, modify, log_action,
      ret, throw.
    destruct (api s) eqn:Ea; simpl; [|discriminate].
    destruct (strict_eq (kv_lookup KEY_COMMUNICATION_ENABLED (keyValue s)) (VNum 0)) eqn:Ec;
      simpl.
    { intros _. rewrite Ea. repeat split; try assumption; [discriminate | now left]. }
    destruct (strict_eq (getVersion P) (kv_lookup KEY_SDK_VERSION (keyValue s))) eqn:Es;
      destruct (truthy force);
      repeat (progress (simpl; rewrite ?Ea, ?Hd, ?Ht, ?Hu, ?orb_true_r));
      try (destruct (kv_lookup KEY_INIT_PARAMS (keyValue s));
           repeat (progress (simpl; rewrite ?Ea, ?Hd, ?Ht, ?Hu, ?orb_true_r)));
      try discriminate;
      intros _; rewrite ?kv_lookup_put; simpl;
      (repeat split; try assumption; try discriminate;
       right; first [exact Es | now apply strict_eq_refl]). }
  destruct H as (Ha & H1 & H2 & H3 & H4).
  unfold installDevice, isCommunicationEnabled, keyValue_get, bind, gets, ret, throw, when.
  simpl. destruct (api s1); [|congruence].
  destruct (strict_eq (kv_lookup KEY_COMMUNICATION_ENABLED (keyValue s1)) (VNum 0)) eqn:Ec;
    simpl; [reflexivity|].
  destruct H4 as [H4|H4]; [discriminate|].
  rewrite H4. simpl. rewrite H1. simpl. rewrite H2. simpl. rewrite H3. simpl.
  rewrite H1. reflexivity.
Qed.

Lemma installDevice_then_idle_witness :
  installDevice P_worker W_install_rejected VUndef
    (snd (installDevice P_worker W_granted (VBool true) after_first_run))
  = (Ok tt, snd (installDevice P_worker W_granted (VBool true)
                   after_first_run)).
Proof.
  apply (installDevice_then_idle P_worker W_granted W_install_rejected (VBool true)
           after_first_run);
    first [reflexivity | vm_compute; reflexivity].
Defined.

(** X13.  A forced install selects everything.  With the API facade built
    and communication enabled, when the force parameter is truthy or the
    stored SDK version is not the current one, [installDevice] writes the
    version if it is new and then starts [registerDevice], [setTags] with a
    copy of the persisted tags and [registerUser], in that order and
    whatever the diff flags, and emits the register event.  When no init
    parameters are persisted, reading their tags throws after
    [registerDevice] has been started: the other two calls and the event do
    not follow. *)
Theorem installDevice_forced (P : Platform) (W : World) (force : value) (s : State) :
  let saved := kv_lookup KEY_INIT_PARAMS (keyValue s) in
  let isNew := negb (strict_eq (getVersion P) (kv_lookup KEY_SDK_VERSION (keyValue s))) in
  let tags := VObj (obj_spread [] (spread_of (obj_get "tags" (spread_of saved)))) in
  let unreadable := match saved with VUndef | VNull => true | _ => false end in
  let s' := snd (installDevice P W force s) in
  api s <> None ->
  strict_eq (kv_lookup KEY_COMMUNICATION_ENABLED (keyValue s)) (VNum 0) = false ->
  truthy force || isNew = true ->
  fst (installDevice P W force s)
    = (if unreadable then Throw (TypeError "tags") else Ok tt)
  /\ trace s'
     = trace s
       ++ (if isNew then [AKvWrite KEY_SDK_VERSION (getVersion P)] else [])
       ++ ACall ApiRegisterDevice
          :: (if unreadable then []
              else [ACall (ApiSetTags tags); ACall ApiRegisterUser;
                    AEmit EVENT_ON_REGISTER VUndef])
  /\ keyValue s'
     = (if isNew then kv_put KEY_SDK_VERSION (getVersion P) (keyValue s) else keyValue s).
Proof.
  intros saved isNew tags unreadable s' Ha Hc Hf. subst s' unreadable tags.
  unfold installDevice, isCommunicationEnabled, api_start, start, await, Promise_all,
    keyValue_set, keyValue_get, get_prop, emit, when, bind, gets, modify, log_action,
    ret, throw.
  destruct (api s) eqn:Ea; [|congruence]. simpl. rewrite Hc. simpl.
  fold isNew. fold saved. rewrite Hf.
  clearbody saved. clearbody isNew.
  destruct isNew;
    repeat (progress (simpl; rewrite ?Ea, ?orb_true_r));
    destruct saved;
    repeat (progress (simpl; rewrite ?Ea, ?orb_true_r));
    trace_normal; repeat split; reflexivity.
Qed.

Lemma installDevice_forced_witness :
  fst (installDevice P_worker W_granted (VBool true) after_first_run) = Ok tt
  /\ keyValue (snd (installDevice P_worker W_granted (VBool true) after_first_run))
     = keyValue after_first_run.
Proof.
  destruct (installDevice_forced P_worker W_granted (VBool true) after_first_run)
    as (H1 & _ & H3);
    [vm_compute; discriminate | vm_compute; reflexivity | reflexivity |].
  split.
  - rewrite H1. vm_compute. reflexivity.
  - rewrite H3. vm_compute. reflexivity.
Defined.

(** ** Subscribing and unsubscribing *)

Lemma adds_bind_quiet {A B} (p : action -> bool) (n : nat) (m : M A) (k : A -> M B) :
  adds_at_most p 0 m -> (forall a, adds_at_most p n (k a)) ->
  adds_at_most p n (bind m k).
Proof. intros Hm Hk. apply (adds_bind p 0 n m k Hm Hk). Qed.

Lemma adds_try_catch_quiet {A} (p : action -> bool) (n : nat) (m : M A) (h : error -> M A) :
  adds_at_most p n m -> (forall e, adds_at_most p 0 (h e)) ->
  adds_at_most p n (try_catch m h).
Proof.
  intros Hm Hh. apply (adds_weaken p (n + 0) n); [lia|].
  now apply adds_try_catch.
Qed.

Lemma adds_ret {A} (p : action -> bool) (n : nat) (a : A) : adds_at_most p n (ret a).
Proof. intros s. simpl. lia. Qed.

Lemma keeps_count (p : action -> bool) {A} (m : M A) :
  keeps anything (avoids p) m ->
  forall s, count_actions p (trace (snd (m s))) = count_actions p (trace s).
Proof.
  intros H s. destruct (H s Logic.I) as [_ [l [E Hl]]].
  rewrite E, count_actions_app, (count_actions_avoids p l Hl). lia.
Qed.

Section SubscribeEvent.
Variables (K : Consts) (P : Platform) (W : World).
Let p := is_emit_of EVENT_ON_SUBSCRIBE.

Lemma quiet_installDevice force : keeps anything (avoids p) (installDevice P W force).
Proof.
  unfold installDevice, isCommunicationEnabled.
  keeps_structure frame_anything avoids_side.
Qed.

Lemma quiet_registerDuringSubscribe :
  keeps anything (avoids p) (registerDuringSubscribe K P W).
Proof.
  pose proof quiet_installDevice.
  unfold registerDuringSubscribe, needForcedOpen, callApplicationOpen.
  keeps_structure frame_anything avoids_side.
Qed.

Lemma onSubscribeEmitter_once : adds_at_most p 1 (onSubscribeEmitter W).
Proof.
  unfold onSubscribeEmitter.
  apply adds_bind_quiet.
  - apply adds_none_of_keeps. keeps_structure frame_anything avoids_side.
  - intros v. destruct (truthy v); [apply adds_log | apply adds_ret].
Qed.

Lemma subscribe_once : adds_at_most p 1 (subscribe K P W).
Proof.
  pose proof quiet_registerDuringSubscribe as HR.
  unfold subscribe.
  apply adds_bind_quiet.
  { apply adds_none_of_keeps. unfold isCommunicationEnabled.
    keeps_structure frame_anything avoids_side. }
  intros en. destruct (negb en).
  { apply (adds_weaken p 0 1); [lia|]. apply adds_none_of_keeps.
    keeps_structure frame_anything avoids_side. }
  apply adds_try_catch_quiet;
    [|intros e; apply adds_none_of_keeps; keeps_structure frame_anything avoids_side].
  apply adds_bind_quiet;
    [apply adds_none_of_keeps; keeps_structure frame_anything avoids_side|intros subscribed].
  apply adds_bind_quiet;
    [apply adds_none_of_keeps; keeps_structure frame_anything avoids_side|intros registered].
  apply adds_bind_quiet;
    [apply adds_none_of_keeps; keeps_structure frame_anything avoids_side|intros _].
  apply adds_bind_quiet;
    [apply adds_none_of_keeps; keeps_structure frame_anything avoids_side|intros _].
  destruct (negb (truthy subscribed)); [apply onSubscribeEmitter_once | apply adds_ret].
Qed.

Lemma subscribe_already_subscribed (s : State) (v : value) :
  answer W (length (trace s)) DriverIsSubscribed = Some v ->
  truthy v = true ->
  count_actions p (trace (snd (subscribe K P W s))) = count_actions p (trace s).
Proof.
  intros Ha Hv.
  pose proof quiet_registerDuringSubscribe as HR.
  unfold subscribe. unfold bind at 1.
  unfold isCommunicationEnabled, keyValue_get, bind at 1, gets at 1, ret at 1.
  destruct (negb (negb _)).
  { apply keeps_count. keeps_structure frame_anything avoids_side. }
  unfold try_catch. unfold bind at 1.
  destruct (driver_call W DriverIsSubscribed s) as [[x|e] s1] eqn:E1.
  - pose proof (driver_call_answer W _ _ _ _ E1) as Hx. rewrite Ha in Hx.
    injection Hx as <-.
    assert (H1 : count_actions p (trace s1) = count_actions p (trace s)).
    { pose proof (keeps_count p (driver_call W DriverIsSubscribed)) as Hk.
      rewrite <- (Hk ltac:(keeps_structure frame_anything avoids_side) s).
      now rewrite E1. }
    rewrite Hv. simpl negb.
    match goal with
    | |- count_actions p (trace (snd (let (r, s') := ?m s1 in _))) = _ =>
        assert (Hm : keeps anything (avoids p) m)
          by keeps_structure frame_anything avoids_side;
        pose proof (keeps_count p m Hm s1) as H2;
        pose proof (keeps_count p (Logger_write "error" "subscribe fail")
                      ltac:(keeps_structure frame_anything avoids_side)) as H3;
        destruct (m s1) as [[[]|e] s2]
    end; simpl in *.
    + congruence.
    + rewrite H3. congruence.
  - pose proof (keeps_count p (driver_call W DriverIsSubscribed)
                  ltac:(keeps_structure frame_anything avoids_side) s) as H1.
    rewrite E1 in H1. simpl in H1.
    pose proof (keeps_count p (Logger_write "error" "subscribe fail")
                  ltac:(keeps_structure frame_anything avoids_side) s1) as H3.
    simpl in *. congruence.
Qed.

End SubscribeEvent.

(** X14.  [subscribe] emits the subscribe event at most once, and not at
    all when the transport reported, at the start, that the device was
    already subscribed. *)
Theorem subscribe_event_at_most_once (K : Consts) (P : Platform) (W : World) (s : State) :
  let emitted := count_actions (is_emit_of EVENT_ON_SUBSCRIBE) in
  emitted (trace (snd (subscribe K P W s))) <= emitted (trace s) + 1
  /\ (forall v, answer W (length (trace s)) DriverIsSubscribed = Some v ->
                truthy v = true ->
                emitted (trace (snd (subscribe K P W s))) = emitted (trace s)).
Proof.
  intros emitted. split.
  - apply subscribe_once.
  - intros v. apply subscribe_already_subscribed.
Qed.

Lemma subscribe_event_witness :
  count_actions (is_emit_of EVENT_ON_SUBSCRIBE)
    (trace (snd (subscribe K0 P_worker W_granted after_first_run)))
  = count_actions (is_emit_of EVENT_ON_SUBSCRIBE) (trace after_first_run).
Proof.
  destruct (subscribe_event_at_most_once K0 P_worker W_granted after_first_run) as [_ H].
  apply (H (VBool true)); reflexivity.
Defined.

(** X15.  [unsubscribe] asks the transport at most once, calls the backend
    [unregisterDevice] only after the transport has confirmed, and emits the
    unsubscribe event only when asked to notify and after the backend has
    confirmed too. *)
Theorem unsubscribe_confirms_before_notifying (W : World) (notify : bool) (s : State) :
  exists l,
    trace (snd (unsubscribe W notify s)) = trace s ++ l
    /\ count_actions (is_call_of is_transport_unsubscribe) l <= 1
    /\ (In (ACall ApiUnregisterDevice) l -> In (ASettled DriverUnsubscribe true) l)
    /\ (forall payload,
          In (AEmit EVENT_ON_UNSUBSCRIBE payload) l ->
          notify = true /\ In (ASettled ApiUnregisterDevice true) l).
Proof.
  unfold unsubscribe, try_catch, driver_call, api_call, api_start,
    start, await, bind, gets, modify, log_action, Logger_write, emit, when, ret, throw.
  destruct (driver s); simpl.
  2:{ eexists. split; [reflexivity|]. unfold count_actions. simpl.
      split; [lia|]. split; [|intros payload]; intros [H|[]]; discriminate. }
  destruct (answer W (length (trace s)) DriverUnsubscribe); simpl.
  2:{ trace_normal. eexists. split; [reflexivity|]. unfold count_actions. simpl.
      split; [lia|]. split; [|intros payload]; simpl; intuition discriminate. }
  destruct (api s); simpl.
  2:{ trace_normal. eexists. split; [reflexivity|]. unfold count_actions. simpl.
      split; [lia|]. split; [|intros payload]; simpl; intuition discriminate. }
  destruct (answer W _ ApiUnregisterDevice); simpl.
  2:{ trace_normal. eexists. split; [reflexivity|]. unfold count_actions. simpl.
      split; [lia|]. split; [|intros payload]; simpl; intuition discriminate. }
  destruct notify; simpl; trace_normal; eexists; (split; [reflexivity|]);
    unfold count_actions; simpl; (split; [lia|]);
    (split; [|intros payload]); simpl; intuition discriminate.
Qed.

Lemma keeps_extends {A} (m : M A) (allowed : action -> Prop) :
  keeps anything allowed m ->
  forall s, exists l, trace (snd (m s)) = trace s ++ l /\ Forall allowed l.
Proof. intros H s. now destruct (H s Logic.I) as [_ Hl]. Qed.

Lemma driver_call_trace (W : World) (c : call) (s : State) (v : value) (s' : State) :
  driver_call W c s = (Ok v, s') ->
  trace s' = trace s ++ [ACall c; ASettled c true].
Proof.
  unfold driver_call, start, await, bind, gets, modify, log_action, ret, throw.
  destruct (driver s); simpl; [|discriminate].
  destruct (answer W _ c); simpl; intros H; inversion H; subst; simpl.
  now rewrite <- app_assoc.
Qed.

Lemma driver_call_starts (W : World) (c : call) (s : State) :
  driver s <> None ->
  exists b, trace (snd (driver_call W c s)) = trace s ++ [ACall c; ASettled c b]
            /\ driver (snd (driver_call W c s)) = driver s.
Proof.
  intros Hd.
  unfold driver_call, start, await, bind, gets, modify, log_action, ret, throw.
  destruct (driver s) eqn:Ed; simpl; [|congruence].
  destruct (answer W _ c); simpl; eexists; rewrite <- app_assoc;
    (split; [reflexivity | exact Ed]).
Qed.

(** X16.  [subscribe] leaves the backend alone for a device that is marked
    registered: it makes a backend call only in a run in which it asked the
    transport to subscribe a device not yet registered. *)
Theorem subscribe_backend_only_for_unregistered
    (K : Consts) (P : Platform) (W : World) (s : State) :
  exists l,
    trace (snd (subscribe K P W s)) = trace s ++ l
    /\ (In (ACall (DriverAskSubscribe false)) l
        \/ Forall (avoids (is_call_of is_backend_call)) l).
Proof.
  set (q := is_call_of is_backend_call).
  assert (Hlog : forall msg, keeps anything (avoids q) (Logger_write "error" msg))
    by (intros msg; keeps_structure frame_anything avoids_side).
  unfold subscribe. unfold bind at 1.
  unfold isCommunicationEnabled, keyValue_get, bind at 1, gets at 1, ret at 1.
  destruct (negb (negb _)).
  { destruct (keeps_extends _ _ (Hlog "Communication is disabled") s) as [l [E Hl]].
    exists l. split; [exact E | now right]. }
  unfold try_catch. unfold bind at 1.
  destruct (driver_call W DriverIsSubscribed s) as [[x|e] s1] eqn:E1.
  2:{ assert (H1 : exists l1, trace s1 = trace s ++ l1 /\ Forall (avoids q) l1).
      { destruct (keeps_extends (driver_call W DriverIsSubscribed) (avoids q)
                    ltac:(keeps_structure frame_anything avoids_side) s) as [l1 H1].
        rewrite E1 in H1. now exists l1. }
      destruct H1 as [l1 [F1 G1]].
      destruct (keeps_extends _ _ (Hlog "subscribe fail") s1) as [l2 [F2 G2]].
      exists (l1 ++ l2). rewrite F2, F1, app_assoc. split; [reflexivity|].
      right. now apply Forall_app. }
  pose proof (driver_call_trace _ _ _ _ _ E1) as T1.
  pose proof (driver_call_ok _ _ _ _ _ E1) as [Hd [Hd1 _]].
  unfold bind at 1. unfold gets at 1.
  destruct (isDeviceRegistered K s1).
  - simpl negb.
    match goal with
    | |- exists l, trace (snd (let (r, s') := ?m s1 in _)) = _ /\ _ =>
        assert (Hm : keeps anything (avoids q) m)
          by (unfold onSubscribeEmitter; keeps_structure frame_anything avoids_side);
        destruct (keeps_extends m _ Hm s1) as [l2 [F2 G2]];
        destruct (m s1) as [[[]|e] s2]
    end; simpl in *.
    + exists ([ACall DriverIsSubscribed; ASettled DriverIsSubscribed true] ++ l2).
      rewrite F2, T1, <- app_assoc. split; [reflexivity|]. right.
      apply Forall_app. split; [repeat constructor | exact G2].
    + exists ([ACall DriverIsSubscribed; ASettled DriverIsSubscribed true] ++ l2
              ++ [ALog "error" "subscribe fail"]).
      rewrite F2, T1, <- !app_assoc. split; [reflexivity|]. right.
      apply Forall_app. split; [repeat constructor|].
      apply Forall_app. split; [exact G2 | repeat constructor].
  - assert (Hd' : driver s1 <> None) by congruence.
    destruct (driver_call_starts W (DriverAskSubscribe false) s1 Hd') as [b [T2 _]].
    unfold bind at 1.
    assert (Hrest : forall tr : list action,
              (exists l2, tr = trace s1 ++ l2
                          /\ In (ACall (DriverAskSubscribe false)) l2) ->
              exists l, tr = trace s ++ l
                        /\ (In (ACall (DriverAskSubscribe false)) l
                            \/ Forall (avoids q) l)).
    { intros tr [l2 [F2 G2]]. exists ([ACall DriverIsSubscribed;
                                        ASettled DriverIsSubscribed true] ++ l2).
      rewrite F2, T1, <- app_assoc. split; [reflexivity|]. left.
      apply in_or_app. now right. }
    destruct (driver_call W (DriverAskSubscribe false) s1) as [[y|e] s2]; simpl in T2.
    + match goal with
      | |- exists l, trace (snd (let (r, s') := ?m s2 in _)) = _ /\ _ =>
          destruct (keeps_extends m any_action
                      ltac:(unfold registerDuringSubscribe, needForcedOpen,
                              callApplicationOpen, installDevice, isCommunicationEnabled,
                              onSubscribeEmitter;
                            keeps_structure frame_anything anything_side) s2)
            as [l3 [F3 _]];
          destruct (m s2) as [[[]|e] s3]
      end; simpl in *.
      * apply Hrest. exists ([ACall (DriverAskSubscribe false);
                                         ASettled (DriverAskSubscribe false) b] ++ l3).
        rewrite F3, T2, <- app_assoc. split; [reflexivity|]. now left.
      * apply Hrest. exists ([ACall (DriverAskSubscribe false);
                                         ASettled (DriverAskSubscribe false) b] ++ l3
                                        ++ [ALog "error" "subscribe fail"]).
        rewrite F3, T2, <- !app_assoc. split; [reflexivity|]. now left.
    + simpl. apply Hrest.
      exists ([ACall (DriverAskSubscribe false); ASettled (DriverAskSubscribe false) b]
              ++ [ALog "error" "subscribe fail"]).
      rewrite T2, <- !app_assoc. split; [reflexivity|]. now left.
Qed.

(** ** The API facade and the register-device flag *)

Lemma driver_call_ok_state (W : World) (c : call) (s : State) (v : value) (s' : State) :
  driver_call W c s = (Ok v, s') ->
  answer W (length (trace s)) c = Some v
  /\ s' = set_trace (trace s ++ [ACall c; ASettled c true])
            (set_registration_status
               (status_effect W (length (trace s)) c (registration_status s)) s).
Proof.
  unfold driver_call, start, await, bind, gets, modify, log_action, ret, throw.
  destruct (driver s); simpl; [|discriminate].
  destruct (answer W _ c); simpl; intros H; inversion H; subst; simpl.
  rewrite <- app_assoc. split; reflexivity.
Qed.

(** What a successful [initApi] has done. *)
Lemma initApi_effect (W : World) (s s' : State) :
  initApi W s = (Ok tt, s') ->
  exists dv,
    answer W (length (trace s)) DriverGetAPIParams = Some dv
    /\ _isNeedRegisterDevice s'
       = needRegisterDevice dv (js_or (kv_lookup KEY_API_PARAMS (keyValue s)) (VObj []))
    /\ kv_lookup KEY_API_PARAMS (keyValue s')
       = VObj (obj_spread (spread_of (kv_lookup KEY_API_PARAMS (keyValue s))) (spread_of dv))
    /\ api s' <> None
    /\ params s' = params s.
Proof.
  intros H. pose proof (initApi_ok W s s' H) as [_ Hapi].
  unfold initApi in H.
  apply bind_ok_inv in H. destruct H as (prm & s0 & E0 & H). cbv beta in H.
  inversion E0; subst; clear E0.
  apply bind_ok_inv in H. destruct H as (dv & s1 & E1 & H). cbv beta in H.
  apply driver_call_ok_state in E1. destruct E1 as (Ha & ->).
  exists dv. split; [exact Ha|].
  apply bind_ok_inv in H. destruct H as (lo & s2 & E2 & H). cbv beta zeta in H.
  inversion E2; subst; clear E2.
  apply bind_ok_inv in H. destruct H as (sv & s3 & E3 & H). cbv beta zeta in H.
  inversion E3; subst; clear E3.
  repeat (apply bind_ok_inv in H; destruct H as (? & ? & E & H); cbv beta zeta in H;
          apply get_prop_ok in E; subst).
  unfold keyValue_extend, keyValue_set, keyValue_get, await, bind, gets, modify,
    log_action, ret in H. simpl in H. inversion H; subst; clear H. simpl.
  rewrite !kv_lookup_put. simpl. repeat split; try reflexivity. discriminate.
Qed.

(** X17.  When [initApi] returns, the register-device flag says whether the
    parameters the transport reported and the API parameters that were
    stored (none counting as the empty object) serialise differently: it is
    false when they are the same.  For plain data (no [undefined] inside,
    integers below 2^53 in magnitude, objects with distinct keys none of
    which is an array index), it says whether they differ as ordered
    sequences of fields. *)
Theorem initApi_flag_compares_parameters (W : World) (s s' : State) :
  initApi W s = (Ok tt, s') ->
  exists dv,
    answer W (length (trace s)) DriverGetAPIParams = Some dv
    /\ let saved := js_or (kv_lookup KEY_API_PARAMS (keyValue s)) (VObj []) in
       (_isNeedRegisterDevice s' = true <-> JSON_stringify dv <> JSON_stringify saved)
       /\ (dv = saved -> _isNeedRegisterDevice s' = false)
       /\ (portable dv = true -> portable saved = true ->
           (_isNeedRegisterDevice s' = true <-> dv <> saved)).
Proof.
  intros H. destruct (initApi_effect W s s' H) as (dv & Ha & Hf & _).
  exists dv. split; [exact Ha|]. cbv zeta. rewrite Hf. unfold needRegisterDevice.
  rewrite opt_string_neq_true. split; [reflexivity|]. split.
  - intros <-. apply opt_string_neq_refl.
  - intros C1 C2. apply portable_clean in C1. apply portable_clean in C2.
    split; intros Hn E; apply Hn.
    + now rewrite E.
    + now apply JSON_stringify_injective.
Qed.

Lemma initApi_flag_witness :
  exists dv,
    answer W_granted (length (trace worker_granted_before_defaultProcess)) DriverGetAPIParams
      = Some dv
    /\ (_isNeedRegisterDevice (snd (initApi W_granted worker_granted_before_defaultProcess))
          = true
        <-> dv <> VObj []).
Proof.
  destruct (initApi_flag_compares_parameters W_granted worker_granted_before_defaultProcess
              (snd (initApi W_granted worker_granted_before_defaultProcess)))
    as (dv & Ha & _ & _ & H); [vm_compute; reflexivity|].
  exists dv. split; [exact Ha|].
  vm_compute in Ha. injection Ha as <-. apply H; reflexivity.
Defined.

Lemma obj_set_in_place (k : string) (v v0 : value) (pre post : obj) :
  ~ In k (obj_keys pre) ->
  obj_set k v (pre ++ (k, v0) :: post) = pre ++ (k, v) :: post.
Proof.
  induction pre as [|[k1 v1] t IH]; simpl; intros H.
  - now rewrite String.eqb_refl.
  - destruct (k =? k1)%string eqn:E.
    + apply String.eqb_eq in E. subst. tauto.
    + rewrite IH; [reflexivity | tauto].
Qed.

Lemma obj_spread_same_keys (pre old d : obj) :
  obj_keys old = obj_keys d ->
  NoDup (obj_keys pre ++ obj_keys d) ->
  obj_spread (pre ++ old) d = pre ++ d.
Proof.
  unfold obj_spread. revert pre old.
  induction d as [|[k v] d IH]; intros pre old Hk Hnd.
  - destruct old; [reflexivity | discriminate].
  - destruct old as [|[k0 v0] old]; [discriminate|]. simpl in Hk.
    injection Hk as -> Hk. simpl.
    rewrite obj_set_in_place.
    + change (pre ++ (k, v) :: old) with (pre ++ [(k, v)] ++ old).
      rewrite app_assoc, (IH (pre ++ [(k, v)]) old Hk).
      * now rewrite <- app_assoc.
      * unfold obj_keys in *. rewrite map_app. simpl. rewrite <- app_assoc. exact Hnd.
    + simpl in Hnd. apply NoDup_remove_2 in Hnd. intros Hc. apply Hnd.
      apply in_or_app. now left.
Qed.

Lemma obj_spread_fresh (base ext : obj) :
  NoDup (obj_keys base ++ obj_keys ext) ->
  obj_spread base ext = base ++ ext.
Proof.
  intros H. rewrite <- (app_nil_r base) at 1.
  rewrite <- (app_nil_r base) in H at 1.
  revert base H. unfold obj_spread.
  induction ext as [|[k v] t IH]; intros base H; simpl.
  - now rewrite !app_nil_r.
  - rewrite app_nil_r in *. rewrite obj_set_fresh.
    + specialize (IH (base ++ [(k, v)])). rewrite app_nil_r in IH.
      rewrite IH; [now rewrite <- app_assoc|].
      unfold obj_keys in *. rewrite map_app. simpl. rewrite <- app_assoc. exact H.
    + simpl in H. apply NoDup_remove_2 in H. intros Hc. apply H.
      apply in_or_app. now left.
Qed.

Lemma obj_spread_onto_prefix (old d1 d2 : obj) :
  obj_keys old = obj_keys d1 ->
  NoDup (obj_keys (d1 ++ d2)) ->
  obj_spread old (d1 ++ d2) = d1 ++ d2.
Proof.
  intros Hk Hnd. unfold obj_spread. rewrite fold_left_app.
  fold (obj_spread old d1). fold (obj_spread (obj_spread old d1) d2).
  unfold obj_keys in Hnd. rewrite map_app in Hnd.
  assert (E : obj_spread old d1 = d1).
  { apply (obj_spread_same_keys [] old d1 Hk). simpl.
    now apply NoDup_app_remove_r in Hnd. }
  rewrite E. apply obj_spread_fresh. exact Hnd.
Qed.

(** X18.  The second [initApi] of a startup lowers the register-device flag
    the first one raised.  When the stored API parameters hold the first
    fields the transport reports (all of them, or none on an empty store),
    whatever their values, the first [initApi] stores the reported
    parameters as they are ([keyValue.extend] merging them over the entry);
    a later [initApi] over that entry, the transport reporting the same
    parameters, sets the flag to false. *)
Theorem initApi_second_lowers_flag (W W' : World) (s s1 s1' s2 : State) (d1 d2 : obj) :
  initApi W s = (Ok tt, s1) ->
  answer W (length (trace s)) DriverGetAPIParams = Some (VObj (d1 ++ d2)) ->
  obj_keys (spread_of (kv_lookup KEY_API_PARAMS (keyValue s))) = obj_keys d1 ->
  NoDup (obj_keys (d1 ++ d2)) ->
  kv_lookup KEY_API_PARAMS (keyValue s1') = kv_lookup KEY_API_PARAMS (keyValue s1) ->
  initApi W' s1' = (Ok tt, s2) ->
  answer W' (length (trace s1')) DriverGetAPIParams = Some (VObj (d1 ++ d2)) ->
  kv_lookup KEY_API_PARAMS (keyValue s1) = VObj (d1 ++ d2)
  /\ _isNeedRegisterDevice s2 = false.
Proof.
  intros H1 A1 Hk Hnd Hsame H2 A2.
  destruct (initApi_effect W s s1 H1) as (dv & Ha & _ & Hs & _).
  rewrite A1 in Ha. injection Ha as <-. simpl spread_of in Hs.
  rewrite (obj_spread_onto_prefix _ d1 d2 Hk Hnd) in Hs.
  split; [exact Hs|].
  destruct (initApi_effect W' s1' s2 H2) as (dv & Ha & Hf & _).
  rewrite A2 in Ha. injection Ha as <-.
  rewrite Hf, Hsame, Hs. unfold js_or. simpl truthy. cbv iota.
  apply opt_string_neq_refl.
Qed.

Lemma initApi_second_lowers_flag_witness :
  _isNeedRegisterDevice
    (snd (initApi W_granted
            (set_keyValue store_with_old_token worker_granted_before_defaultProcess)))
    = true
  /\ _isNeedRegisterDevice
       (snd (initApi W_granted
               (snd (initApi W_granted
                       (set_keyValue store_with_old_token
                          worker_granted_before_defaultProcess)))))
     = false
  /\ count_actions (is_call_of is_registerDevice) (trace after_token_change) = 0.
Proof.
  split; [vm_compute; reflexivity|]. split; [|vm_compute; reflexivity].
  apply (initApi_second_lowers_flag W_granted W_granted
           (set_keyValue store_with_old_token worker_granted_before_defaultProcess)
           (snd (initApi W_granted
                   (set_keyValue store_with_old_token worker_granted_before_defaultProcess)))
           (snd (initApi W_granted
                   (set_keyValue store_with_old_token worker_granted_before_defaultProcess)))
           _ [("hwid", VStr "h1"); ("pushToken", VStr "t1")] []).
  - vm_compute. reflexivity.
  - reflexivity.
  - vm_compute. reflexivity.
  - repeat constructor; simpl; intuition discriminate.
  - reflexivity.
  - vm_compute. reflexivity.
  - reflexivity.
Defined.

(** ** What [init] can throw *)

Lemma keeps_result {A} (Inv : State -> Prop) (allowed : action -> Prop) (m : M A)
    (s : State) (r : res A) (s' : State) :
  keeps Inv allowed m -> Inv s -> m s = (r, s') ->
  Inv s' /\ exists l, trace s' = trace s ++ l /\ Forall allowed l.
Proof. intros H Hs E. specialize (H s Hs). now rewrite E in H. Qed.

Lemma extends_subscribe K P W : keeps anything any_action (subscribe K P W).
Proof.
  unfold subscribe, isCommunicationEnabled, onSubscribeEmitter, registerDuringSubscribe,
    needForcedOpen, callApplicationOpen, installDevice, isCommunicationEnabled.
  keeps_structure frame_anything anything_side.
Qed.

Lemma extends_defaultProcess K P W : keeps anything any_action (defaultProcess K P W).
Proof.
  pose proof (extends_subscribe K P W).
  unfold defaultProcess, startup_prologue, permission_branch, startup_epilogue,
    removeRegistrationStatus, initApi, unsubscribe, needForcedOpen, callApplicationOpen,
    installDevice, isCommunicationEnabled.
  keeps_structure frame_anything anything_side.
Qed.

Lemma init_defaultActions_returns K P W (s : State) :
  fst (init_defaultActions K P W s) = Ok tt
  /\ exists l, trace (snd (init_defaultActions K P W s))
               = trace s ++ l ++ [ADispatchInitialized].
Proof.
  unfold init_defaultActions.
  set (m := try_catch
              (defaultProcess K P W ;;
               when (serviceWorker_in_navigator P) (modify (set_sw_onmessage true)))
              (fun _ => Logger_write "error" "defaultProcess fail")).
  assert (Hk : keeps anything any_action m).
  { pose proof (extends_defaultProcess K P W). unfold m.
    keeps_structure frame_anything anything_side. }
  assert (Hok : fst (m s) = Ok tt) by apply try_catch_logged.
  unfold bind. destruct (m s) as [r s1] eqn:E. simpl in Hok. subst r.
  destruct (keeps_result _ _ _ _ _ _ Hk Logic.I E) as [_ [l [F _]]].
  split; [reflexivity|]. exists l. simpl. rewrite F, <- app_assoc. reflexivity.
Qed.

Lemma init_driver_outcomes (P : Platform) (W : World) (prm : obj)
    (scope applicationCode url : value) (s : State) :
  let can := canUseServiceWorkers P
             || (isSafari s && truthy (obj_get "safariWebsitePushID" prm)) in
  let s1 := snd (init_driver P W prm scope applicationCode url s) in
  if can
  then fst (init_driver P W prm scope applicationCode url s) = Ok tt
       /\ driver s1 <> None
       /\ (exists d l, trace s1 = trace s ++ ANewDriver d :: l)
  else init_driver P W prm scope applicationCode url s
       = (Throw (Error "can't initialize safari"), s).
Proof.
  intros can s1. subst can s1.
  destruct (canUseServiceWorkers P) eqn:Ec; simpl orb.
  - set (d := {| drv_kind := WorkerDriver;
                 drv_settings :=
                   [("scope", scope);
                    ("applicationCode", applicationCode);
                    ("serviceWorkerUrl", obj_get "serviceWorkerUrl" prm);
                    ("applicationServerPublicKey",
                     obj_get "applicationServerPublicKey"
                       (spread_of (obj_get "worker"
                                     (spread_of (obj_get "driversSettings" prm)))))] |}).
    set (m := try_catch
                (if driver_has_initWorker P WorkerDriver
                 then _ <- driver_call W DriverInitWorker ;; ret tt
                 else ret tt)
                (fun _ => Logger_write "error" "driver initialization failed")).
    set (st := set_trace (trace s ++ [ANewDriver d]) (set_driver (Some d) s)).
    assert (E : init_driver P W prm scope applicationCode url s = m st).
    { unfold init_driver. unfold bind at 1. unfold gets at 1. rewrite Ec. reflexivity. }
    rewrite E.
    assert (Hok : fst (m st) = Ok tt) by apply try_catch_logged.
    assert (Hk : keeps (driver_is (Some d)) any_action m)
      by (unfold m; keeps_structure (frame_driver_is (Some d)) driver_side).
    destruct (Hk st eq_refl) as [Hd [l [F _]]].
    split; [exact Hok|]. split.
    + unfold driver_is in Hd. rewrite Hd. discriminate.
    + exists d, l. rewrite F. simpl. now rewrite <- app_assoc.
  - set (d := {| drv_kind := SafariDriver;
                 drv_settings :=
                   [("applicationCode", applicationCode);
                    ("pushwooshUrl", url);
                    ("pushwooshApiUrl", obj_get "pushwooshApiUrl" prm);
                    ("webSitePushID", obj_get "safariWebsitePushID" prm)] |}).
    assert (E : init_driver P W prm scope applicationCode url s
                = if isSafari s && truthy (obj_get "safariWebsitePushID" prm)
                  then (Ok tt, set_trace (trace s ++ [ANewDriver d]) (set_driver (Some d) s))
                  else (Throw (Error "can't initialize safari"), s)).
    { unfold init_driver. unfold bind at 1. unfold gets at 1. rewrite Ec.
      destruct (isSafari s && truthy (obj_get "safariWebsitePushID" prm)); reflexivity. }
    rewrite E.
    destruct (isSafari s && truthy (obj_get "safariWebsitePushID" prm)); simpl.
    + split; [reflexivity|]. split; [discriminate|].
      exists d, []. reflexivity.
    + reflexivity.
Qed.

(** X19.  [init] on a configuration object either returns or throws one of
    two errors, and nothing else (no failure of the transport, of the
    backend or of the store escapes it).  It throws ['no application code']
    when the application code is falsy; otherwise it throws
    ["can't initialize safari"], before any call and with the store
    untouched, when the browser has no service workers and is not Safari
    configured with a website push id; otherwise it constructs the
    driver, returns, and the last thing it has done is to dispatch
    [pushwoosh.initialized], whether or not the default process failed. *)
Theorem init_outcomes (K : Consts) (P : Platform) (W : World) (cfg : obj) (s : State) :
  let url := getPushwooshUrl P (obj_get "applicationCode" cfg)
               (obj_get "pushwooshApiUrl" cfg) in
  let prm := drop_default_userId K (build_params K P (VObj cfg) url) in
  let r := fst (init K P W (VObj cfg) s) in
  let s' := snd (init K P W (VObj cfg) s) in
  if negb (truthy (obj_get "applicationCode" cfg))
  then r = Throw (Error "no application code")
  else if canUseServiceWorkers P
          || (isSafari s && truthy (obj_get "safariWebsitePushID" prm))
       then r = Ok tt
            /\ driver s' <> None
            /\ exists d l, trace s' = trace s ++ ANewDriver d :: l ++ [ADispatchInitialized]
       else r = Throw (Error "can't initialize safari")
            /\ trace s' = trace s
            /\ keyValue s' = keyValue s
            /\ registration_status s' = registration_status s
            /\ driver s' = driver s.
Proof.
  intros url prm r s'. subst r s'. rewrite init_through_body. simpl fst. simpl snd.
  rewrite init_body_unfold. fold url. fold prm.
  destruct (negb (truthy (obj_get "applicationCode" cfg))); [reflexivity|].
  match goal with
  | |- context [(init_driver P W prm ?sc ?ac url ;; _) ?st] =>
      pose proof (init_driver_outcomes P W prm sc ac url st) as Hd;
      set (st0 := st) in *
  end.
  cbv zeta in Hd. change (isSafari st0) with (isSafari s) in Hd.
  destruct (canUseServiceWorkers P || (isSafari s && truthy (obj_get "safariWebsitePushID" prm))).
  - destruct Hd as (H1 & H2 & d & l & H3). unfold bind.
    destruct (init_driver P W prm _ _ url st0) as [r1 s1]. simpl in H1, H2, H3. subst r1.
    destruct (init_defaultActions_returns K P W s1) as [G1 [l2 G2]].
    assert (Hdrv : keeps (driver_is (driver s1)) any_action (init_defaultActions K P W)).
    { unfold init_defaultActions, defaultProcess, startup_prologue, permission_branch,
        startup_epilogue, removeRegistrationStatus, subscribe, onSubscribeEmitter,
        registerDuringSubscribe, initApi, unsubscribe, needForcedOpen, callApplicationOpen,
        installDevice, isCommunicationEnabled.
      keeps_structure (frame_driver_is (driver s1)) driver_side. }
    destruct (Hdrv s1 eq_refl) as [G3 _].
    destruct (init_defaultActions K P W s1) as [r2 s2]. simpl in *. subst r2.
    split; [reflexivity|]. split; [unfold driver_is in G3; congruence|].
    exists d, (l ++ l2). rewrite G2, H3. simpl. rewrite <- !app_assoc. reflexivity.
  - unfold bind. rewrite Hd. simpl. repeat split; reflexivity.
Qed.

(** ** The ready flag *)

Lemma frame_ready_has_api : frame ready_has_api.
Proof. split; intros s x H; exact H. Qed.

Lemma frame_api_built : frame api_built.
Proof. split; intros s x H; exact H. Qed.

Ltac ready_side :=
  let Hi := fresh "Hi" in
  first [ exact Logic.I | intros; exact Logic.I
        | intros ? Hi; exact Hi
        | intros ? Hi; unfold ready_has_api in *; simpl; intros _; discriminate
        | intros ? Hi; unfold api_built in *; simpl; first [exact Hi | discriminate] ].

(** A continuation that runs under a stronger invariant, which a
    successful first step establishes. *)
Lemma keeps_bind_after {A B} (Inv Inv' : State -> Prop) (allowed : action -> Prop)
    (m : M A) (k : A -> M B) :
  keeps Inv allowed m ->
  (forall s a s1, m s = (Ok a, s1) -> Inv' s1) ->
  (forall a, keeps Inv' allowed (k a)) ->
  (forall s, Inv' s -> Inv s) ->
  keeps Inv allowed (bind m k).
Proof.
  intros Hm Hok Hk Himp s Hs. unfold bind.
  destruct (Hm s Hs) as [H1 [l1 [E1 A1]]].
  destruct (m s) as [[a|e] s1] eqn:E; simpl in *.
  - destruct (Hk a s1 (Hok s a s1 E)) as [H2 [l2 [E2 A2]]].
    split; [now apply Himp|].
    exists (l1 ++ l2). rewrite E2, E1, app_assoc. split; [reflexivity | now apply Forall_app].
  - split; [exact H1 | now exists l1].
Qed.

Section ReadyFlag.
Variables (K : Consts) (P : Platform) (W : World).

Lemma built_installDevice force : keeps api_built any_action (installDevice P W force).
Proof.
  unfold installDevice, isCommunicationEnabled.
  keeps_structure frame_api_built ready_side.
Qed.

Lemma built_needForcedOpen : keeps api_built any_action (needForcedOpen K W).
Proof. unfold needForcedOpen. keeps_structure frame_api_built ready_side. Qed.

Lemma built_callApplicationOpen force :
  keeps api_built any_action (callApplicationOpen K W force).
Proof. unfold callApplicationOpen. keeps_structure frame_api_built ready_side. Qed.

Lemma ready_initApi : keeps ready_has_api any_action (initApi W).
Proof. unfold initApi. keeps_structure frame_ready_has_api ready_side. Qed.

Lemma ready_subscribe : keeps ready_has_api any_action (subscribe K P W).
Proof.
  unfold subscribe, isCommunicationEnabled, onSubscribeEmitter, registerDuringSubscribe,
    needForcedOpen, callApplicationOpen, installDevice, isCommunicationEnabled.
  keeps_structure frame_ready_has_api ready_side.
Qed.

(** The rest of the epilogue runs once the API facade is built: the ready
    flag is set on an instance that has it. *)
Lemma ready_startup_epilogue : keeps ready_has_api any_action (startup_epilogue K P W).
Proof.
  unfold startup_epilogue.
  apply (keeps_bind_after ready_has_api api_built).
  - exact ready_initApi.
  - intros s [] s1 E. now apply (initApi_ok W s s1).
  - intros _. pose proof (built_installDevice VUndef). pose proof built_needForcedOpen.
    pose proof (built_callApplicationOpen (VBool true)).
    keeps_structure frame_api_built ready_side.
  - intros s H _. exact H.
Qed.

Lemma ready_defaultProcess : keeps ready_has_api any_action (defaultProcess K P W).
Proof.
  pose proof ready_startup_epilogue. pose proof ready_subscribe. pose proof ready_initApi.
  unfold defaultProcess, startup_prologue, permission_branch,
    removeRegistrationStatus, unsubscribe, callApplicationOpen.
  keeps_structure frame_ready_has_api ready_side.
Qed.


End ReadyFlag.

(** ** The placeholder user id: the state [init] leaves (C10) *)

Lemma frame_without_userId W prm a0 : frame (without_userId W prm a0).
Proof. split; intros s x H; exact H. Qed.



Section WithoutUserId.
Variables (K : Consts) (P : Platform) (W : World) (prm : obj) (a0 : option API).
Hypothesis no_userId : obj_get "userId" prm = VUndef.
Let Inv := without_userId W prm a0.
Let F := frame_without_userId W prm a0.




End WithoutUserId.



(** ** The command queue *)

Section Queue.
Variables (K : Consts) (P : Platform) (W : World) (N : Names.t) (B : Abilities).


Lemma ready_settle_init (v : value) :
  keeps ready_has_api any_action (settle_init K P W v).
Proof.
  pose proof (ready_defaultProcess K P W).
  unfold settle_init, init_body, init_defaultActions, init_driver, getParams.
  keeps_structure frame_ready_has_api ready_side.
Qed.


End Queue.


(** X21.  The ready flag is set only on an instance that has its API
    facade.  Whatever the configuration, the platform and the answers of the
    transport and the backend, a started [init] followed to its settlement
    leaves the ready flag down or the facade built, on every instance where
    that held before (a new instance among them).  So a function handed to
    [onReadyHandler] once [init] has settled is either called at once, with
    a built facade, or registered for the ready event. *)
Theorem ready_only_with_facade (K : Consts) (P : Platform) (W : World)
    (N : Names.t) (v : value) (pg : Page) (f : nat) :
  (ready (pw pg) = true -> api (pw pg) <> None) ->
  let pg' := set_pw (snd (settle_init K P W v (pw pg))) pg in
  (ready (pw pg') = true -> api (pw pg') <> None)
  /\ (onReadyHandler N f pg' = add_listener (Names.EVENT_ON_READY N) f pg'
      \/ exists a, onReadyHandler N f pg' = add_called f (Some a) pg').
Proof.
  intros H pg'.
  assert (G : ready (pw pg') = true -> api (pw pg') <> None).
  { subst pg'. simpl. now destruct (ready_settle_init K P W v (pw pg) H) as [G _]. }
  split; [exact G|].
  unfold onReadyHandler. destruct (ready (pw pg')) eqn:Er; [right | now left].
  destruct (api (pw pg')) as [a|]; [now exists a | now destruct (G eq_refl)].
Qed.

Lemma ready_only_with_facade_witness :
  api (pw (set_pw (snd (settle_init K0 P_worker W_granted (VObj sample_config)
                          (pw (new_Page B0 P_worker [] None))))
             (new_Page B0 P_worker [] None))) <> None.
Proof.
  assert (H0 : ready (pw (new_Page B0 P_worker [] None)) = true ->
               api (pw (new_Page B0 P_worker [] None)) <> None)
    by (intros H; discriminate H).
  destruct (ready_only_with_facade K0 P_worker W_granted N0 (VObj sample_config)
              (new_Page B0 P_worker [] None) 7 H0) as [H _].
  apply H. vm_compute. reflexivity.
Defined.

(** ** The tombstone *)

Lemma frame_store_is kv : frame (store_is kv).
Proof. split; intros s x H; exact H. Qed.

Section TombstoneKept.
Variables (K : Consts) (P : Platform) (W : World) (v : value).
Let Inv := entry_kept KEY_DEVICE_DATA_REMOVED v.
Let F := frame_entry_kept KEY_DEVICE_DATA_REMOVED v.

Lemma removed_subscribe : keeps Inv any_action (subscribe K P W).
Proof.
  unfold subscribe, isCommunicationEnabled, onSubscribeEmitter, registerDuringSubscribe,
    needForcedOpen, callApplicationOpen, installDevice, isCommunicationEnabled.
  keeps_structure F entry_side.
Qed.

Lemma removed_unsubscribe notify : keeps Inv any_action (unsubscribe W notify).
Proof. unfold unsubscribe. keeps_structure F entry_side. Qed.

Lemma removed_setCommunicationEnabled a :
  keeps Inv any_action (setCommunicationEnabled K W a).
Proof.
  unfold setCommunicationEnabled, getParams.
  keeps_structure F entry_side.
Qed.

Lemma removed_defaultProcess : keeps Inv any_action (defaultProcess K P W).
Proof.
  pose proof removed_subscribe. pose proof removed_unsubscribe.
  unfold defaultProcess, startup_prologue, permission_branch, startup_epilogue,
    removeRegistrationStatus, initApi, needForcedOpen, callApplicationOpen,
    installDevice, isCommunicationEnabled.
  keeps_structure F entry_side.
Qed.

Lemma removed_init ip : keeps Inv any_action (init K P W ip).
Proof.
  pose proof removed_defaultProcess.
  unfold init, init_body, init_defaultActions, init_driver, getParams.
  keeps_structure F entry_side.
Qed.

End TombstoneKept.

(** X22.  Nothing in the class clears the tombstone.  [init], [subscribe],
    [unsubscribe] and [setCommunicationEnabled] leave the
    device-data-removed entry of the store as they found it, whatever
    happens during them; [removeAllDeviceData] leaves it or writes 1. *)
Theorem tombstone_is_never_cleared (K : Consts) (P : Platform) (W : World) (s : State) :
  let removed := fun s' => kv_lookup KEY_DEVICE_DATA_REMOVED (keyValue s') in
  (forall ip, removed (snd (init K P W ip s)) = removed s)
  /\ removed (snd (subscribe K P W s)) = removed s
  /\ (forall notify, removed (snd (unsubscribe W notify s)) = removed s)
  /\ (forall a, removed (snd (setCommunicationEnabled K W a s)) = removed s)
  /\ (removed (snd (removeAllDeviceData K W s)) = removed s
      \/ removed (snd (removeAllDeviceData K W s)) = VNum 1).
Proof.
  intros removed. unfold removed.
  split; [|split; [|split; [|split]]].
  - intros ip. now destruct (removed_init K P W _ ip s eq_refl) as [H _].
  - now destruct (removed_subscribe K P W _ s eq_refl) as [H _].
  - intros notify. now destruct (removed_unsubscribe W _ notify s eq_refl) as [H _].
  - intros a. now destruct (removed_setCommunicationEnabled K W _ a s eq_refl) as [H _].
  - unfold removeAllDeviceData.
    set (v := kv_lookup KEY_DEVICE_DATA_REMOVED (keyValue s)).
    assert (Hk : keeps (fun s' => entry_kept KEY_DEVICE_DATA_REMOVED v s'
                                   \/ entry_kept KEY_DEVICE_DATA_REMOVED (VNum 1) s')
                   any_action (removeAllDeviceData K W)).
    { assert (F : frame (fun s' => entry_kept KEY_DEVICE_DATA_REMOVED v s'
                                   \/ entry_kept KEY_DEVICE_DATA_REMOVED (VNum 1) s'))
        by (split; intros s' x H; exact H).
      unfold removeAllDeviceData, getParams, Object_keys.
      keeps_structure F
        ltac:(first [ exact Logic.I | intros; exact Logic.I
                    | intros ? ?; right; unfold entry_kept; simpl;
                      rewrite kv_lookup_put; reflexivity ]). }
    destruct (Hk s (or_introl eq_refl)) as [H _]. exact H.
Qed.

Ltac store_side :=
  let Hi := fresh "Hi" in
  first [ exact Logic.I | intros; exact Logic.I
        | intros ? Hi; unfold store_is in *; simpl; exact Hi ].

Lemma purge_outcome_bind {A} (kv : list (kv_key * value)) (m : M A) (k : A -> M value) :
  keeps (store_is kv) any_action m ->
  (forall a s1, store_is kv s1 -> purge_outcome kv (k a s1)) ->
  forall s, store_is kv s -> purge_outcome kv (bind m k s).
Proof.
  intros Hm Hk s Hs. unfold bind. destruct (Hm s Hs) as [H1 _].
  destruct (m s) as [[a|e] s1]; simpl in *.
  - now apply Hk.
  - exact H1.
Qed.

Lemma removeAllDeviceData_outcome (K : Consts) (W : World) (s : State) :
  purge_outcome (keyValue s) (removeAllDeviceData K W s).
Proof.
  set (kv := keyValue s).
  assert (Hs : store_is kv s) by reflexivity. clearbody kv.
  unfold removeAllDeviceData.
  unfold bind at 1. unfold gets at 1. destruct (api s) as [a|]; [|exact Hs].
  repeat (match goal with
          | H : store_is _ ?s1 |- purge_outcome _ (bind _ _ ?s1) => revert s1 H
          end;
          apply purge_outcome_bind;
          [solve [unfold getParams, Object_keys;
                  keeps_structure (frame_store_is kv) store_side]
          |intros ? ? ?]).
  match goal with
  | H : store_is _ ?s1 |- _ =>
      unfold purge_outcome, keyValue_set, await, bind, modify, log_action, ret;
      simpl; now rewrite H
  end.
Qed.

(** X23.  A purge is all or nothing for the tombstone.  When
    [removeAllDeviceData] throws (no API facade, a rejected backend call, a
    reply of [getTags] without a result), the store is as it was; when it
    returns, the only change to the store is the tombstone, set to 1. *)
Theorem removeAllDeviceData_marks_only_on_success (K : Consts) (W : World) (s : State) :
  match fst (removeAllDeviceData K W s) with
  | Ok _ =>
      keyValue (snd (removeAllDeviceData K W s))
      = kv_put KEY_DEVICE_DATA_REMOVED (VNum 1) (keyValue s)
  | Throw _ => keyValue (snd (removeAllDeviceData K W s)) = keyValue s
  end.
Proof. exact (removeAllDeviceData_outcome K W s). Qed.

(** X24.  A purge is final.  Once [removeAllDeviceData] has returned, every
    later page load stops at the tombstone: whatever the configuration, the
    platform and the answers of the transport and the backend, [init] on a
    new instance over the stores the purge left emits no event and leaves
    the instance not ready. *)
Theorem startup_after_purge_stops (K : Consts) (W : World) (s : State)
    (K' : Consts) (P' : Platform) (W' : World) (ip : value) :
  let purged := snd (removeAllDeviceData K W s) in
  let s' := snd (init K' P' W' ip (reload P' purged)) in
  (exists v, fst (removeAllDeviceData K W s) = Ok v) ->
  kv_lookup KEY_DEVICE_DATA_REMOVED (keyValue s') = VNum 1
  /\ ready s' = false
  /\ filter is_emit (trace s') = [].
Proof.
  intros purged s' [v Hv].
  pose proof (removeAllDeviceData_outcome K W s) as Ho.
  unfold purge_outcome in Ho. rewrite Hv in Ho. fold purged in Ho.
  assert (Ht : tombstone_kept (VNum 1) false (reload P' purged)).
  { split; [|reflexivity]. simpl. rewrite Ho. now rewrite kv_lookup_put. }
  destruct (tombstone_init K' P' W' (VNum 1) false ip eq_refl _ Ht) as [[H1 H2] [l [E A]]].
  fold s' in H1, H2, E.
  split; [exact H1|]. split; [exact H2|].
  rewrite E. now rewrite filter_emit_app.
Qed.

Lemma startup_after_purge_witness :
  ready (snd (init K0 P_worker W_granted (VObj sample_config)
                (reload P_worker (snd (removeAllDeviceData K0 W_granted after_first_run)))))
  = false.
Proof.
  destruct (startup_after_purge_stops K0 W_granted after_first_run K0 P_worker W_granted
              (VObj sample_config)) as (_ & H & _);
    [eexists; vm_compute; reflexivity|].
  exact H.
Defined.

(** ** The delayed event *)

Section DelayedEvent.
Variables (K : Consts) (P : Platform) (W : World) (v : value).
Let Inv := entry_kept KEY_DELAYED_EVENT v.
Let F := frame_entry_kept KEY_DELAYED_EVENT v.

Lemma delayed_initApi : keeps Inv any_action (initApi W).
Proof. unfold initApi. keeps_structure F entry_side. Qed.

Lemma delayed_installDevice force : keeps Inv any_action (installDevice P W force).
Proof. unfold installDevice, isCommunicationEnabled. keeps_structure F entry_side. Qed.

Lemma delayed_needForcedOpen : keeps Inv any_action (needForcedOpen K W).
Proof. unfold needForcedOpen. keeps_structure F entry_side. Qed.

Lemma delayed_callApplicationOpen force :
  keeps Inv any_action (callApplicationOpen K W force).
Proof. unfold callApplicationOpen. keeps_structure F entry_side. Qed.

End DelayedEvent.

(** X25.  A delayed event is delivered once.  When the epilogue of the
    startup completes, it has emitted the ready event and set the ready
    flag; if the store held a delayed event, it has emitted it next, with
    its type and payload, and has overwritten the entry with [null]; in
    both cases the entry is falsy afterwards, so that the next startup
    emits no delayed event. *)
Theorem delayed_event_delivered_once (K : Consts) (P : Platform) (W : World)
    (s s' : State) :
  let delayed := kv_lookup KEY_DELAYED_EVENT (keyValue s) in
  startup_epilogue K P W s = (Ok tt, s') ->
  ready s' = true
  /\ truthy (kv_lookup KEY_DELAYED_EVENT (keyValue s')) = false
  /\ exists l,
       trace s' = trace s ++ l ++
                  AEmit EVENT_ON_READY VUndef ::
                  (if truthy delayed
                   then [AEmit (EVENT_DYNAMIC (obj_get "type" (spread_of delayed)))
                           (obj_get "payload" (spread_of delayed));
                         AKvWrite KEY_DELAYED_EVENT VNull]
                   else []).
Proof.
  intros delayed H. unfold startup_epilogue in H.
  assert (H0 : entry_kept KEY_DELAYED_EVENT delayed s) by reflexivity.
  apply bind_ok_inv in H. destruct H as ([] & s1 & E1 & H).
  destruct (keeps_result _ _ _ _ _ _ (delayed_initApi W delayed) H0 E1)
    as [H1 [l1 [F1 _]]].
  apply bind_ok_inv in H. destruct H as ([] & s2 & E2 & H).
  destruct (keeps_result _ _ _ _ _ _ (delayed_installDevice P W delayed VUndef) H1 E2)
    as [H2 [l2 [F2 _]]].
  apply bind_ok_inv in H. destruct H as (force & s3 & E3 & H).
  destruct (keeps_result _ _ _ _ _ _ (delayed_needForcedOpen K W delayed) H2 E3)
    as [H3 [l3 [F3 _]]].
  apply bind_ok_inv in H. destruct H as ([] & s4 & E4 & H).
  assert (Hw : keeps (entry_kept KEY_DELAYED_EVENT delayed) any_action
                 (when force (callApplicationOpen K W (VBool true)))).
  { apply keeps_when. apply delayed_callApplicationOpen. }
  destruct (keeps_result _ _ _ _ _ _ Hw H3 E4) as [H4 [l4 [F4 _]]].
  assert (T : trace s4 = trace s ++ (l1 ++ l2 ++ l3 ++ l4)).
  { rewrite F4, F3, F2, F1, <- !app_assoc. reflexivity. }
  unfold entry_kept in H4.
  unfold emit, keyValue_get, keyValue_set, await, get_prop, bind, gets, modify,
    log_action, ret, throw in H. simpl in H. rewrite H4 in H.
  destruct (truthy delayed) eqn:Ed.
  - destruct delayed as [| |b|n|x|l|l] eqn:Edel; try discriminate Ed;
      simpl in H; inversion H; subst s'; clear H; simpl;
      (split; [reflexivity|]); (split; [rewrite kv_lookup_put; reflexivity|]);
      exists (l1 ++ l2 ++ l3 ++ l4); rewrite T; rewrite <- !app_assoc; reflexivity.
  - inversion H; subst s'; clear H; simpl.
    split; [reflexivity|]. split; [rewrite H4; exact Ed|].
    exists (l1 ++ l2 ++ l3 ++ l4). rewrite T. rewrite <- !app_assoc. reflexivity.
Qed.

Lemma delayed_event_witness :
  ready (snd (startup_epilogue K0 P_worker W_granted with_delayed_event)) = true
  /\ kv_lookup KEY_DELAYED_EVENT
       (keyValue (snd (startup_epilogue K0 P_worker W_granted with_delayed_event)))
     = VNull
  /\ kv_lookup KEY_DELAYED_EVENT
       (keyValue (snd (startup_epilogue K0 P_worker W_granted
                         (snd (startup_epilogue K0 P_worker W_granted with_delayed_event)))))
     = VNull.
Proof.
  destruct (delayed_event_delivered_once K0 P_worker W_granted with_delayed_event
              (snd (startup_epilogue K0 P_worker W_granted with_delayed_event)))
    as (H1 & _ & _); [vm_compute; reflexivity|].
  split; [exact H1|]. split; vm_compute; reflexivity.
Defined.

(** ** The permission branch: prompt *)

Lemma bind_returned {A B} (m : M A) (k : A -> M B) (s : State) (a : A) :
  fst (m s) = Ok a -> bind m k s = k a (snd (m s)).
Proof. unfold bind. destruct (m s) as [[x|e] s1]; simpl; congruence. Qed.

Lemma subscribe_returns (K : Consts) (P : Platform) (W : World) (s : State) :
  fst (subscribe K P W s) = Ok tt.
Proof.
  unfold subscribe, bind, isCommunicationEnabled, keyValue_get, gets, ret. simpl.
  destruct (negb _); [reflexivity|]. apply try_catch_logged.
Qed.

(** X26.  While the permission has not been asked for, the permission branch
    of the startup emits the permission-prompt event exactly when automatic
    subscription is off
    (a falsy [autoSubscribe]); in that case the branch returns normally,
    asks the transport for no subscription, and leaves the registration
    status removed. *)
Theorem prompt_event_when_autoSubscribe_is_off
    (K : Consts) (P : Platform) (W : World) (autoSubscribe : value) (s : State) :
  let s' := snd (permission_branch K P W autoSubscribe s) in
  let prompts := count_actions (is_emit_of EVENT_ON_PERMISSION_PROMPT) in
  let asks := count_actions (is_call_of is_ask_subscribe) in
  permissionOnInit s = VStr (PERMISSION_PROMPT K) ->
  PERMISSION_PROMPT K <> PERMISSION_DENIED K ->
  fst (permission_branch K P W autoSubscribe s) = Ok tt
  /\ prompts (trace s') = prompts (trace s) + (if truthy autoSubscribe then 0 else 1)
  /\ (truthy autoSubscribe = false ->
      asks (trace s') = asks (trace s) /\ registration_status s' = None).
Proof.
  intros s' prompts asks Hp Hne. subst s' prompts asks.
  assert (E : permission_branch K P W autoSubscribe s
              = ((when (negb (isSafari s) && isDeviceRegistered K s) (unsubscribe W true) ;;
                  removeRegistrationStatus ;;
                  if truthy autoSubscribe then subscribe K P W
                  else emit EVENT_ON_PERMISSION_PROMPT VUndef) s)).
  { unfold permission_branch. unfold bind at 1. unfold gets at 1.
    unfold bind at 1. unfold gets at 1. rewrite Hp. unfold strict_eq.
    assert (E1 : (PERMISSION_PROMPT K =? PERMISSION_DENIED K)%string = false)
      by now apply String.eqb_neq.
    rewrite E1, String.eqb_refl. reflexivity. }
  rewrite E. clear E.
  set (u := when (negb (isSafari s) && isDeviceRegistered K s) (unsubscribe W true)).
  assert (Hu : fst (u s) = Ok tt).
  { unfold u. destruct (negb (isSafari s) && isDeviceRegistered K s); simpl;
      [apply try_catch_logged | reflexivity]. }
  assert (Ku1 : keeps anything (avoids (is_emit_of EVENT_ON_PERMISSION_PROMPT)) u)
    by (unfold u, unsubscribe; keeps_structure frame_anything avoids_side).
  assert (Ku2 : keeps anything (avoids (is_call_of is_ask_subscribe)) u)
    by (unfold u, unsubscribe; keeps_structure frame_anything avoids_side).
  pose proof (keeps_count _ u Ku1 s) as C1.
  pose proof (keeps_count _ u Ku2 s) as C2.
  rewrite (bind_returned u _ s tt Hu).
  set (su := snd (u s)) in *. clearbody su. clear Hu Ku1 Ku2. clearbody u.
  set (sr := set_trace (trace su ++ [ALocalStorageRemove]) (set_registration_status None su)).
  change ((removeRegistrationStatus ;;
           if truthy autoSubscribe then subscribe K P W
           else emit EVENT_ON_PERMISSION_PROMPT VUndef) su)
    with ((if truthy autoSubscribe then subscribe K P W
           else emit EVENT_ON_PERMISSION_PROMPT VUndef) sr).
  assert (R1 : count_actions (is_emit_of EVENT_ON_PERMISSION_PROMPT) (trace sr)
               = count_actions (is_emit_of EVENT_ON_PERMISSION_PROMPT) (trace s)).
  { unfold sr. simpl. rewrite count_actions_app, C1. unfold count_actions. simpl. lia. }
  destruct (truthy autoSubscribe).
  - split; [apply subscribe_returns|].
    split; [|discriminate].
    assert (Ks : keeps anything (avoids (is_emit_of EVENT_ON_PERMISSION_PROMPT))
                   (subscribe K P W)).
    { unfold subscribe, isCommunicationEnabled, onSubscribeEmitter,
        registerDuringSubscribe, needForcedOpen, callApplicationOpen, installDevice,
        isCommunicationEnabled.
      keeps_structure frame_anything avoids_side. }
    pose proof (keeps_count _ _ Ks sr) as C3. lia.
  - simpl. split; [reflexivity|]. split.
    + rewrite !count_actions_app, C1. unfold count_actions. simpl. lia.
    + intros _. split; [|reflexivity].
      rewrite !count_actions_app, C2. unfold count_actions. simpl. lia.
Qed.

Lemma prompt_event_witness :
  fst (permission_branch K0 P_worker W_prompt (VBool false) at_prompt_branch) = Ok tt
  /\ registration_status
       (snd (permission_branch K0 P_worker W_prompt (VBool false) at_prompt_branch))
     = None.
Proof.
  destruct (prompt_event_when_autoSubscribe_is_off K0 P_worker W_prompt (VBool false)
              at_prompt_branch) as (H1 & _ & H3);
    [vm_compute; reflexivity | discriminate |].
  split; [exact H1|]. now apply H3.
Defined.

(** ** The permission branch: granted *)

(** X27.  A device the user has unsubscribed is not subscribed again.  With
    the permission granted and no change of application, the permission
    branch only emits the permission-granted event when the device is
    marked registered or unregistered, or the transport is Safari's: it
    calls nothing and changes nothing else. *)
Theorem granted_branch_respects_status
    (K : Consts) (P : Platform) (W : World) (autoSubscribe : value) (s : State) :
  permissionOnInit s = VStr (PERMISSION_GRANTED K) ->
  PERMISSION_GRANTED K <> PERMISSION_DENIED K ->
  PERMISSION_GRANTED K <> PERMISSION_PROMPT K ->
  _isNeedResubscribe s = false ->
  isSafari s = true \/ isDeviceRegistered K s = true \/ isDeviceUnregistered K s = true ->
  permission_branch K P W autoSubscribe s
  = (Ok tt, set_trace (trace s ++ [AEmit EVENT_ON_PERMISSION_GRANTED VUndef]) s).
Proof.
  intros Hp Hd Hq Hr Hs.
  unfold permission_branch, bind, gets, emit, log_action, modify, when. simpl.
  rewrite Hp. unfold strict_eq.
  apply String.eqb_neq in Hd. apply String.eqb_neq in Hq.
  rewrite Hd, Hq, String.eqb_refl. simpl. rewrite Hr.
  change (isDeviceRegistered K (set_trace _ s)) with (isDeviceRegistered K s).
  change (isDeviceUnregistered K (set_trace _ s)) with (isDeviceUnregistered K s).
  destruct Hs as [H|[H|H]]; rewrite H; simpl; rewrite ?andb_false_r; reflexivity.
Qed.

Lemma granted_branch_respects_status_witness :
  permission_branch K0 P_worker W_granted (VBool true) at_granted_branch_unregistered
  = (Ok tt, set_trace (trace at_granted_branch_unregistered
                       ++ [AEmit EVENT_ON_PERMISSION_GRANTED VUndef])
              at_granted_branch_unregistered).
Proof.
  apply (granted_branch_respects_status K0 P_worker W_granted (VBool true)
           at_granted_branch_unregistered).
  - vm_compute. reflexivity.
  - discriminate.
  - discriminate.
  - vm_compute. reflexivity.
  - right. right. vm_compute. reflexivity.
Defined.

(** ** The merged parameters *)

(** X28.  In the parameters [init] builds, the platform's facts cannot be
    overridden and the defaults can: [deviceType] and the tag
    ['Device Model'] are the browser's whatever the configuration says,
    the tag [Language] is the configuration's when it gives one and the
    browser's language (or ['en']) otherwise, and [autoSubscribe] is the
    configuration's value, [true] when it gives none or [undefined]. *)
Theorem build_params_precedence (K : Consts) (P : Platform) (cfg : obj) (url : value) :
  let prm := drop_default_userId K (build_params K P (VObj cfg) url) in
  let tags := spread_of (obj_get "tags" prm) in
  let given := spread_of (obj_get "tags" cfg) in
  NoDup (obj_keys cfg) ->
  NoDup (obj_keys given) ->
  obj_get "deviceType" prm = getBrowserType P
  /\ obj_get "Device Model" tags = getBrowserVersion P
  /\ obj_get "Language" tags
     = (if existsb (String.eqb "Language") (obj_keys given)
        then obj_get "Language" given
        else js_or (navigator_language P) (VStr "en"))
  /\ (forall k, k <> "Device Model" -> k <> "Language" ->
                obj_get k tags = obj_get k given)
  /\ autoSubscribe_of (VObj prm)
     = match obj_get "autoSubscribe" cfg with
       | VUndef => VBool true
       | v => v
       end.
Proof.
  intros prm tags given Hc Hg.
  assert (D : forall k, k <> "userId" ->
                obj_get k prm = obj_get k (build_params K P (VObj cfg) url)).
  { intros k Hk. unfold prm, drop_default_userId.
    destruct (strict_eq _ _); [|reflexivity].
    rewrite obj_get_delete. apply String.eqb_neq in Hk. now rewrite Hk. }
  assert (T : obj_get "tags" prm
              = VObj (obj_set "Device Model" (getBrowserVersion P)
                        (obj_spread [("Language", js_or (navigator_language P) (VStr "en"))]
                           given))).
  { rewrite D by discriminate. unfold build_params. simpl spread_of.
    rewrite !obj_get_set. reflexivity. }
  split; [|split; [|split; [|split]]].
  - rewrite D by discriminate. unfold build_params. rewrite !obj_get_set. reflexivity.
  - unfold tags. rewrite T. simpl spread_of. now rewrite obj_get_set.
  - unfold tags. rewrite T. simpl spread_of. rewrite obj_get_set. simpl.
    rewrite (obj_get_spread _ _ _ Hg). reflexivity.
  - intros k H1 H2. unfold tags. rewrite T. simpl spread_of. rewrite obj_get_set.
    apply String.eqb_neq in H1. rewrite H1.
    rewrite (obj_get_spread _ _ _ Hg).
    destruct (existsb (String.eqb k) (obj_keys given)) eqn:E; [reflexivity|].
    simpl. apply String.eqb_neq in H2. rewrite H2.
    symmetry. now apply obj_get_absent.
  - unfold autoSubscribe_of. unfold js_or. simpl truthy. cbv iota. simpl spread_of.
    rewrite D by discriminate. unfold build_params. simpl spread_of.
    rewrite !obj_get_set. simpl. rewrite (obj_get_spread _ _ _ Hc).
    destruct (existsb (String.eqb "autoSubscribe") (obj_keys cfg)) eqn:E.
    + reflexivity.
    + simpl. now rewrite (obj_get_absent _ _ E).
Qed.

Lemma build_params_precedence_witness :
  let prm := drop_default_userId K0
               (build_params K0 P_worker (VObj sample_config_overriding) (VStr "url")) in
  obj_get "deviceType" prm = VNum 11
  /\ obj_get "Device Model" (spread_of (obj_get "tags" prm)) = VStr "Chrome 70"
  /\ obj_get "Language" (spread_of (obj_get "tags" prm)) = VStr "fr"
  /\ autoSubscribe_of (VObj prm) = VNull.
Proof.
  destruct (build_params_precedence K0 P_worker sample_config_overriding (VStr "url"))
    as (H1 & H2 & H3 & _ & H5).
  - repeat constructor; simpl; intuition discriminate.
  - repeat constructor; simpl; intuition discriminate.
  - cbv zeta. split; [exact H1|]. split; [exact H2|]. split; [exact H3 | exact H5].
Defined.

(** ** Before a driver exists *)

(** X29.  On an instance that has no driver yet ([init] has not run, or has
    thrown), [subscribe] and [unsubscribe] return normally having done
    nothing but log one error: no call is made, and no field of the
    instance, no entry of the stores is touched. *)
Theorem without_driver_only_logs (K : Consts) (P : Platform) (W : World)
    (notify : bool) (s : State) :
  driver s = None ->
  subscribe K P W s
  = (Ok tt,
     set_trace
       (trace s ++
        [ALog "error"
           (if strict_eq (kv_lookup KEY_COMMUNICATION_ENABLED (keyValue s)) (VNum 0)
            then "Communication is disabled" else "subscribe fail")]) s)
  /\ unsubscribe W notify s
     = (Ok tt, set_trace (trace s ++ [ALog "error" "Error occurred during the unsubscribe"]) s).
Proof.
  intros Hd. split.
  - unfold subscribe, isCommunicationEnabled, try_catch, driver_call, keyValue_get,
      Logger_write, log_action, bind, gets, modify, ret, throw. simpl.
    destruct (strict_eq _ _); simpl; [reflexivity|]. rewrite Hd. reflexivity.
  - unfold unsubscribe, try_catch, driver_call, Logger_write, log_action, bind, gets,
      modify, ret, throw. rewrite Hd. reflexivity.
Qed.

Lemma without_driver_only_logs_witness :
  fst (subscribe K0 P_worker W_granted (new_Pushwoosh P_worker [] None)) = Ok tt
  /\ trace (snd (subscribe K0 P_worker W_granted (new_Pushwoosh P_worker [] None)))
     = [ALog "error" "subscribe fail"].
Proof.
  destruct (without_driver_only_logs K0 P_worker W_granted true
              (new_Pushwoosh P_worker [] None)) as [H _]; [reflexivity|].
  rewrite H. split; reflexivity.
Defined.
